(** * python-data-generator: a shallow embedding of [simulate_data.py] and
    [test_connection.py], and the properties of the batching, record
    generation, configuration and insertion code.

    Python [int] is [Z]; [str] is [string], read as the sequence of its
    characters (code points below 256); a [dict] is an association list in
    insertion order; exceptions are values of [exn] carried by [result]. *)

From Stdlib Require Import ZArith List String Ascii Bool Lia PeanoNat.
From Stdlib Require Import SpecFloat.
From Stdlib Require DecimalString DecimalPos.
Import ListNotations.

Local Open Scope string_scope.
Local Open Scope Z_scope.

(** ** Exceptions and results *)

(** What the interpreter itself reports ([str(e)] of an error raised by a
    built-in); the wording belongs to CPython, so it is kept symbolic. *)
Inductive native_failure : Type :=
  | NotEnoughValues (expected got : nat)   (* a, b = [x]            *)
  | TooManyValues (expected : nat)         (* a, b = [x, y, z]      *)
  | InvalidLiteral (s : string)            (* int("abc")            *)
  | MissingKey (k : string)                (* d["k"]                *)
  | NotSubscriptable                       (* None["k"], [..]["k"]  *)
  | NotIterable                            (* "k" in 3              *)
  | NoAttribute (name : string)            (* (3).startswith        *)
  | IndexOutOfRange                        (* "abc"[7]              *)
  | DivisionByZero.                        (* i % 0, n // 0         *)

Inductive message : Type :=
  | Lit (s : string)
  | Native (f : native_failure)
  | Cat (s : string) (m : message).        (* "literal" + str(e) *)

Inductive exc_class : Type :=
  | ValueError | KeyError | TypeError | AttributeError | ZeroDivisionError
  | IndexError
  | OSError              (* open() / json.load() *)
  | DatabaseError        (* psycopg2.Error and its subclasses *)
  | PoolError.           (* psycopg2.pool.PoolError *)

(** An instance of a subclass of Python's [Exception]. *)
Inductive exn : Type := Exn (cls : exc_class) (msg : message).

Definition exn_class (e : exn) : exc_class := let 'Exn c _ := e in c.
Definition str_exn (e : exn) : message := let 'Exn _ m := e in m.

Inductive result (A : Type) : Type :=
  | Ok (a : A)
  | Raise (e : exn).
Arguments Ok {A} a.
Arguments Raise {A} e.

Definition is_ok {A} (r : result A) : bool :=
  match r with Ok _ => true | Raise _ => false end.

Definition rbind {A B} (r : result A) (k : A -> result B) : result B :=
  match r with
  | Ok a => k a
  | Raise e => Raise e
  end.

(** [try: body except Exception as e: raise h(e)] *)
Definition rcatch {A} (r : result A) (h : exn -> result A) : result A :=
  match r with
  | Ok a => Ok a
  | Raise e => h e
  end.

(** ** Python values read from JSON *)

#[warnings="-register-all"]
Inductive pyval : Type :=
  | PNone
  | PBool (b : bool)
  | PInt (z : Z)
  | PFloat (f : spec_float)
  | PStr (s : string)
  | PList (l : list pyval)
  | PDict (d : list (string * pyval)).

Definition dict : Type := list (string * pyval).

Fixpoint dict_get (k : string) (d : dict) : option pyval :=
  match d with
  | [] => None
  | (k', v) :: d' => if String.eqb k k' then Some v else dict_get k d'
  end.

(** [d[k] = v]: replaces the value of an existing key, else appends. *)
Fixpoint dict_set (k : string) (v : pyval) (d : dict) : dict :=
  match d with
  | [] => [(k, v)]
  | (k', v') :: d' =>
      if String.eqb k k' then (k', v) :: d' else (k', v') :: dict_set k v d'
  end.

(** Truth value of an object, as in [x if c else y]. *)
Definition truthy (v : pyval) : bool :=
  match v with
  | PNone => false
  | PBool b => b
  | PInt z => negb (z =? 0)
  | PFloat f => match f with S754_zero _ => false | _ => true end
  | PStr s => negb (String.eqb s "")
  | PList l => match l with [] => false | _ => true end
  | PDict d => match d with [] => false | _ => true end
  end.

(** ** String operations *)

(** [s.startswith(p)] *)
Definition startswith (p s : string) : bool := String.prefix p s.

(** [s[n:]] *)
Fixpoint drop_chars (n : nat) (s : string) : string :=
  match n, s with
  | O, _ => s
  | S _, EmptyString => EmptyString
  | S k, String _ r => drop_chars k r
  end.

(** [s.split(sep, maxsplit)] for a one-character separator. *)
Fixpoint str_split (sep : ascii) (maxsplit : nat) (s : string) : list string :=
  match s with
  | EmptyString => [EmptyString]
  | String c r =>
      if Ascii.eqb c sep then
        match maxsplit with
        | O => [s]
        | S k => EmptyString :: str_split sep k r
        end
      else
        match str_split sep maxsplit r with
        | h :: t => String c h :: t
        | [] => [String c EmptyString]
        end
  end.

(** [s.split(sep)]: no limit; a string of length n has at most n separators. *)
Definition str_split_all (sep : ascii) (s : string) : list string :=
  str_split sep (String.length s) s.

(** [a, b = l] *)
Definition unpack2 {A} (l : list A) : result (A * A) :=
  match l with
  | [a; b] => Ok (a, b)
  | [] | [_] => Raise (Exn ValueError (Native (NotEnoughValues 2 (List.length l))))
  | _ => Raise (Exn ValueError (Native (TooManyValues 2)))
  end.

(** *** [int(s)] on a string, base 10:
    blanks, an optional sign, digits with single underscores between
    them, blanks.

    The limit that CPython 3.11 and later put on the number of digits (4300
    unless set otherwise with [sys.set_int_max_str_digits],
    [PYTHONINTMAXSTRDIGITS] or [-X int_max_str_digits]) is a setting of the
    interpreter, not of the program, and is not part of this model: [py_int]
    is [int] with the limit switched off.  The two are the same on every
    string of at most 4300 characters.

    [int] does not skip all that [str.strip()] removes: of the characters
    below 128 it skips those of C's [isspace] (9 to 13, and 32); above, the
    Unicode blanks (133 and 160).  [str.strip()] also removes the
    separators 28 to 31. *)

Definition is_space (c : ascii) : bool :=
  let n := nat_of_ascii c in
  ((9 <=? n) && (n <=? 13) || (28 <=? n) && (n <=? 32)
   || (n =? 133) || (n =? 160))%nat.

Definition is_int_space (c : ascii) : bool :=
  let n := nat_of_ascii c in
  ((9 <=? n) && (n <=? 13) || (n =? 32) || (n =? 133) || (n =? 160))%nat.

Definition is_digit (c : ascii) : bool :=
  let n := nat_of_ascii c in ((48 <=? n) && (n <=? 57))%nat.

Definition digit_val (c : ascii) : Z := Z.of_nat (nat_of_ascii c) - 48.

Fixpoint lstrip (blank : ascii -> bool) (l : list ascii) : list ascii :=
  match l with
  | c :: r => if blank c then lstrip blank r else l
  | [] => []
  end.

Definition strip (blank : ascii -> bool) (l : list ascii) : list ascii :=
  rev (lstrip blank (rev (lstrip blank l))).

Fixpoint digits_rest (acc : Z) (l : list ascii) : option Z :=
  match l with
  | [] => Some acc
  | c :: r =>
      if is_digit c then digits_rest (10 * acc + digit_val c) r
      else if Ascii.eqb c "_" then
        match r with
        | d :: r' =>
            if is_digit d then digits_rest (10 * acc + digit_val d) r'
            else None
        | [] => None
        end
      else None
  end.

Definition digits (l : list ascii) : option Z :=
  match l with
  | c :: r => if is_digit c then digits_rest (digit_val c) r else None
  | [] => None
  end.

Definition int_literal (s : string) : option Z :=
  match strip is_int_space (list_ascii_of_string s) with
  | c :: r =>
      if Ascii.eqb c "+" then digits r
      else if Ascii.eqb c "-" then option_map Z.opp (digits r)
      else digits (c :: r)
  | [] => None
  end.

Definition py_int (s : string) : result Z :=
  match int_literal s with
  | Some z => Ok z
  | None => Raise (Exn ValueError (Native (InvalidLiteral s)))
  end.

(** ** [parse_jdbc_url], [load_db_config] *)

(** The files a run can open: name to parsed JSON, or the error of
    [open]/[json.load]. *)
Definition filesystem : Type := string -> result pyval.

(** [alias not in config_data], then [config_data[alias]]. *)
Definition lookup_alias (alias : string) (config_data : pyval) : result pyval :=
  let not_found :=
    Raise (Exn ValueError (Lit ("Alias '" ++ alias ++ "' not found in config file."))) in
  match config_data with
  | PDict d =>
      match dict_get alias d with
      | Some v => Ok v
      | None => not_found
      end
  | PList l =>
      if existsb (fun v => match v with PStr s => String.eqb s alias | _ => false end) l
      then Raise (Exn TypeError (Native NotSubscriptable))
      else not_found
  | PStr s =>
      match String.index 0 alias s with
      | Some _ => Raise (Exn TypeError (Native NotSubscriptable))
      | None => not_found
      end
  | _ => Raise (Exn TypeError (Native NotIterable))
  end.

(** [conn_info["url"]] *)
Definition subscript (conn_info : pyval) (k : string) : result pyval :=
  match conn_info with
  | PDict d =>
      match dict_get k d with
      | Some v => Ok v
      | None => Raise (Exn KeyError (Native (MissingKey k)))
      end
  | _ => Raise (Exn TypeError (Native NotSubscriptable))
  end.

(** [conn_info.get(k, default)] on a dict. *)
Definition dict_get_default (d : dict) (k : string) (default : pyval) : pyval :=
  match dict_get k d with Some v => v | None => default end.

Definition strip_scheme (jdbc_url : string) : result string :=
  let jdbc_url :=
    if startswith "jdbc:" jdbc_url
    then drop_chars (String.length "jdbc:") jdbc_url else jdbc_url in
  if negb (startswith "postgresql://" jdbc_url)
  then Raise (Exn ValueError (Lit "Invalid JDBC URL format."))
  else Ok (drop_chars (String.length "postgresql://") jdbc_url).

Definition reraise_parsing {A} (r : result A) : result A :=
  rcatch r (fun e =>
    Raise (Exn ValueError (Cat "Error parsing JDBC URL: " (str_exn e)))).

(** [load_db_config] has the same text in both files; each calls the
    [parse_jdbc_url] of its own file. *)
Section LoadDbConfig.

Variable parse_jdbc_url : string -> result dict.

Definition load_db_config_with (fs : filesystem) (config_file alias : string)
  : result dict :=
  rbind (fs config_file) (fun config_data =>
  rbind (lookup_alias alias config_data) (fun conn_info =>
  rbind (subscript conn_info "url") (fun url =>
  rbind (match url with
         | PStr u => parse_jdbc_url u
         | _ => Raise (Exn AttributeError (Native (NoAttribute "startswith")))
         end) (fun db_params =>
  match conn_info with
  | PDict ci =>
      let db_params := dict_set "user" (dict_get_default ci "username" (PStr "")) db_params in
      let db_params := dict_set "password" (dict_get_default ci "password" (PStr "")) db_params in
      let db_params :=
        dict_set "sslmode"
          (if truthy (dict_get_default ci "ssl" PNone)
           then PStr "require" else PStr "disable") db_params in
      Ok db_params
  | _ => Raise (Exn AttributeError (Native (NoAttribute "get")))
  end)))).

End LoadDbConfig.

(** The two functions that both files define, each under its file's name;
    everything else below is from simulate_data.py. *)
Module SimulateData.

(** simulate_data.py, lines 13-33 *)
Definition parse_jdbc_url (jdbc_url : string) : result dict :=
  rbind (strip_scheme jdbc_url) (fun jdbc_url =>
  reraise_parsing (
    rbind (unpack2 (str_split "/" 1 jdbc_url)) (fun '(host_port, dbname) =>
    rbind (unpack2 (str_split_all ":" host_port)) (fun '(host, port) =>
    rbind (py_int port) (fun port =>
    Ok [("host", PStr host); ("port", PInt port); ("dbname", PStr dbname)]))))).

(** simulate_data.py, lines 35-64 *)
Definition load_db_config : filesystem -> string -> string -> result dict :=
  load_db_config_with parse_jdbc_url.

End SimulateData.

Module TestConnection.

(** test_connection.py, lines 6-28 *)
Definition parse_jdbc_url (jdbc_url : string) : result dict :=
  rbind (strip_scheme jdbc_url) (fun jdbc_url =>
  reraise_parsing (
    rbind (unpack2 (str_split "/" 1 jdbc_url)) (fun '(host_port, dbname) =>
    rbind (unpack2 (str_split ":" 1 host_port)) (fun '(host, port) =>
    rbind (py_int port) (fun port =>
    Ok [("host", PStr host); ("port", PInt port); ("dbname", PStr dbname)]))))).

(** test_connection.py, lines 30-55 *)
Definition load_db_config : filesystem -> string -> string -> result dict :=
  load_db_config_with parse_jdbc_url.

End TestConnection.

(** ** Floating point and the random source *)

(** The floats this program computes before rounding ([random()], and
    [1.0 + 999.0 * random()], [random() * 62.0]) are non-negative multiples
    of 2^-53 in the normal range of binary64.  Such a float [x] is
    represented by the integer [x * 2^53]; an arithmetic result is the exact
    result rounded to 53 significant bits, ties to even. *)
Module Binary64.

Definition scale : Z := 2 ^ 53.

(** The integer nearest to [n / d] ([d > 0]), ties to the even one. *)
Definition rne_div (n d : Z) : Z :=
  let q := n / d in
  let r := n mod d in
  if 2 * r <? d then q
  else if d <? 2 * r then q + 1
  else if Z.even q then q else q + 1.

(** Bits of [X] below its 53 leading ones. *)
Definition excess_bits (X : Z) : Z := Z.max 0 (Z.log2 X - 52).

(** Rounding of an exact result to binary64. *)
Definition fl (X : Z) : Z :=
  let s := excess_bits X in rne_div X (2 ^ s) * 2 ^ s.

(** [float(c) * x] and [float(c) + x] for a small integer [c]. *)
Definition fmul_int (c X : Z) : Z := fl (c * X).
Definition fadd_int (c X : Z) : Z := fl (c * scale + X).

(** [math.floor(x)] *)
Definition floor (X : Z) : Z := X / scale.

(** [round(x, 2)]: the decimal with two places nearest to the exact value
    of [x] (ties to even), converted back to the nearest double.  That
    double is identified by its number of hundredths, which is what this
    returns. *)
Definition round2 (X : Z) : Z := rne_div (100 * X) scale.

End Binary64.

(** The Mersenne Twister is an arbitrary stream of 32-bit outputs (any seed,
    any history); [pos] counts the outputs consumed. *)
Record rng : Type := { words : nat -> Z; pos : nat }.

Definition next_uint32 (g : rng) : Z * rng :=
  (words g (pos g) mod 2 ^ 32, {| words := words g; pos := S (pos g) |}).

(** [random.random()]: [(a * 2^26 + b) / 2^53] with [a], [b] the top 27 and
    26 bits of two outputs. *)
Definition random (g : rng) : Z * rng :=
  let '(w1, g) := next_uint32 g in
  let '(w2, g) := next_uint32 g in
  (Z.shiftr w1 5 * 67108864 + Z.shiftr w2 6, g).

(** [random.uniform(a, b)] is [a + (b - a) * random()]; here a = 1.0 and
    b = 1000.0. *)
Definition uniform_1_1000 (g : rng) : Z * rng :=
  let '(r, g) := random g in
  (Binary64.fadd_int 1 (Binary64.fmul_int 999 r), g).

Definition ascii_lowercase : string := "abcdefghijklmnopqrstuvwxyz".
Definition ascii_uppercase : string := "ABCDEFGHIJKLMNOPQRSTUVWXYZ".
Definition ascii_letters : string := ascii_lowercase ++ ascii_uppercase.
Definition string_digits : string := "0123456789".

(** [population[i]] for a non-negative index. *)
Definition str_index (population : string) (i : Z) : result ascii :=
  match String.get (Z.to_nat i) population with
  | Some c => Ok c
  | None => Raise (Exn IndexError (Native IndexOutOfRange))
  end.

(** [random.choices(population, k=k)]:
    [[population[floor(random() * n)] for i in repeat(None, k)]]. *)
Fixpoint choices (population : string) (k : nat) (g : rng)
  : result (list ascii) * rng :=
  match k with
  | O => (Ok [], g)
  | S k' =>
      let '(r, g) := random g in
      let n := Z.of_nat (String.length population) in
      match str_index population (Binary64.floor (Binary64.fmul_int n r)) with
      | Raise e => (Raise e, g)
      | Ok c =>
          let '(rest, g) := choices population k' g in
          (rbind rest (fun l => Ok (c :: l)), g)
      end
  end.

(** A row [(amount, description)]; [amount] in hundredths. *)
Record record : Type := { amount : Z; description : string }.

(** The two lines that build a row, as they stand in [insert_records],
    [generate_batches] and [simulate_production]. *)
Definition random_record (g : rng) : result record * rng :=
  let '(u, g) := uniform_1_1000 g in
  let amount := Binary64.round2 u in
  let '(cs, g) := choices (ascii_letters ++ string_digits) 10 g in
  (rbind cs (fun cs =>
     Ok {| amount := amount; description := string_of_list_ascii cs |}), g).

(** ** [generate_batches] *)

(** A generator run to exhaustion: the batches it yields, in order, and the
    exception that ends it, if any. *)
Record generated : Type :=
  { yielded : list (list record); ending : option exn; rng_after : rng }.

Definition yield_first (b : list record) (rest : generated) : generated :=
  {| yielded := b :: yielded rest;
     ending := ending rest;
     rng_after := rng_after rest |}.

(** The body of [for i in range(1, num_records + 1)], with [n] iterations
    left, and the [if batch: yield batch] after it. *)
Fixpoint generate_loop (n : nat) (i batch_size : Z) (batch : list record)
    (g : rng) : generated :=
  match n with
  | O =>
      {| yielded := match batch with [] => [] | _ => [batch] end;
         ending := None; rng_after := g |}
  | S n' =>
      match random_record g with
      | (Raise e, g) => {| yielded := []; ending := Some e; rng_after := g |}
      | (Ok r, g) =>
          let batch := (batch ++ [r])%list in
          if batch_size =? 0 then
            {| yielded := [];
               ending := Some (Exn ZeroDivisionError (Native DivisionByZero));
               rng_after := g |}
          else if i mod batch_size =? 0 then
            yield_first batch (generate_loop n' (i + 1) batch_size [] g)
          else generate_loop n' (i + 1) batch_size batch g
      end
  end.

(** simulate_data.py, lines 153-167 *)
Definition generate_batches (num_records batch_size : Z) (g : rng) : generated :=
  generate_loop (Z.to_nat num_records) 1 batch_size [] g.

(** ** The database driver, the pool and the console *)

(** A connection object. *)
Definition conn : Type := nat.

(** Calls into psycopg2; each of them can raise. *)
Inductive call : Type :=
  | PoolCreate (minconn maxconn : Z) (db_params : dict)
                                (* SimpleConnectionPool(minconn, maxconn, **db_params) *)
  | Getconn                                   (* connection_pool.getconn() *)
  | Putconn (c : conn)                        (* connection_pool.putconn(conn) *)
  | Closeall                                  (* connection_pool.closeall() *)
  | Cursor (c : conn)                         (* conn.cursor() *)
  | ExecuteValues (c : conn) (sql : string) (rows : list record)
                                (* execute_values(cur, insert_sql, rows) *)
  | CursorClose (c : conn)                    (* leaving [with conn.cursor()] *)
  | Commit (c : conn)                         (* conn.commit() *)
  | Rollback (c : conn).                      (* conn.rollback() *)

Record event : Type := { made : call; failed : option exn }.

(** [print] and the progress bar. *)
Inductive output : Type :=
  | Print (m : message)
  | TqdmNew (total : Z)
  | TqdmUpdate (n : Z)
  | TqdmClose.

(** A finished task of the thread pool: what [future.result()] gives, and
    what the worker thread did. *)
Record future : Type :=
  { f_result : result unit;
    f_log : list event;
    f_console : list output }.

(** What one thread of the program has done so far. [conn_var] is the local
    variable [conn] of [insert_batch_pool]; [futures] are the tasks the
    thread has submitted, in order. *)
Record world : Type :=
  { log : list event;
    console : list output;
    gen : rng;
    conn_var : option conn;
    futures : list future }.

(** What the surroundings decide: whether the n-th call into the driver
    raises ([fault n], n counted from 0 in this thread), which connection the
    pool hands out, whether [tqdm] can be imported; and for the k-th task
    submitted to a thread pool, the same two things ([worker_fault k],
    [worker_conn k]) and when it completes ([finish_time k]). *)
Record env : Type :=
  { fault : nat -> option exn;
    pool_conn : conn;
    has_tqdm : bool;
    worker_fault : nat -> nat -> option exn;
    worker_conn : nat -> conn;
    finish_time : nat -> nat }.

Definition M (A : Type) : Type := env -> world -> result A * world.

Definition ret {A} (a : A) : M A := fun _ w => (Ok a, w).

Definition raise {A} (e : exn) : M A := fun _ w => (Raise e, w).

Definition bind {A B} (m : M A) (k : A -> M B) : M B :=
  fun en w =>
    match m en w with
    | (Ok a, w') => k a en w'
    | (Raise e, w') => (Raise e, w')
    end.

Notation "x <- m ;; k" := (bind m (fun x => k))
  (at level 61, m at next level, right associativity).
Notation "m ;;; k" := (bind m (fun _ => k))
  (at level 61, right associativity).

(** [try: body except Exception as e: handler] *)
Definition try_except {A} (body : M A) (handler : exn -> M A) : M A :=
  fun en w =>
    match body en w with
    | (Ok a, w') => (Ok a, w')
    | (Raise e, w') => handler e en w'
    end.

(** [try: body finally: final] *)
Definition try_finally {A} (body : M A) (final : M unit) : M A :=
  fun en w =>
    let '(r, w') := body en w in
    match final en w' with
    | (Ok _, w'') => (r, w'')
    | (Raise e, w'') => (Raise e, w'')
    end.

Definition set_log (l : list event) (w : world) : world :=
  {| log := l; console := console w; gen := gen w; conn_var := conn_var w;
     futures := futures w |}.
Definition set_console (c : list output) (w : world) : world :=
  {| log := log w; console := c; gen := gen w; conn_var := conn_var w;
     futures := futures w |}.
Definition set_gen (g : rng) (w : world) : world :=
  {| log := log w; console := console w; gen := g; conn_var := conn_var w;
     futures := futures w |}.
Definition set_conn_var (c : option conn) (w : world) : world :=
  {| log := log w; console := console w; gen := gen w; conn_var := c;
     futures := futures w |}.
Definition set_futures (f : list future) (w : world) : world :=
  {| log := log w; console := console w; gen := gen w; conn_var := conn_var w;
     futures := f |}.

(** A call into the driver: recorded, and raising when the surroundings say so. *)
Definition do_call (c : call) : M unit :=
  fun en w =>
    let f := fault en (List.length (log w)) in
    (match f with Some e => Raise e | None => Ok tt end,
     set_log (log w ++ [{| made := c; failed := f |}])%list w).

Definition emit (o : output) : M unit :=
  fun _ w => (Ok tt, set_console (console w ++ [o])%list w).

Definition assign_conn (c : option conn) : M unit :=
  fun _ w => (Ok tt, set_conn_var c w).
Definition read_conn : M (option conn) :=
  fun _ w => (Ok (conn_var w), w).

Definition getconn : M conn :=
  do_call Getconn ;;; (fun en w => (Ok (pool_conn en), w)).

(** [with conn.cursor() as cur: body]: the cursor is closed on the way out,
    however [body] ends. *)
Definition with_cursor {A} (c : conn) (body : M A) : M A :=
  do_call (Cursor c) ;;; try_finally body (do_call (CursorClose c)).

(** The two lines that build a row, on the thread's random source. *)
Definition draw_record : M record :=
  fun _ w => let '(r, g) := random_record (gen w) in (r, set_gen g w).

(** [i % batch_size] *)
Definition py_mod (a b : Z) : M Z :=
  if b =? 0 then raise (Exn ZeroDivisionError (Native DivisionByZero))
  else ret (a mod b).

(** [a // b] *)
Definition py_floordiv (a b : Z) : M Z :=
  if b =? 0 then raise (Exn ZeroDivisionError (Native DivisionByZero))
  else ret (a / b).

(** The progress bar: [None] when tqdm is missing, else the bar with its
    [total]; a bar is true in a condition when its total is positive. *)
Definition make_progress (total : M Z) : M (option Z) :=
  fun en w =>
    if has_tqdm en then (t <- total ;; emit (TqdmNew t) ;;; ret (Some t)) en w
    else (Ok None, w).

Definition progress_true (progress : option Z) : bool :=
  match progress with Some total => 0 <? total | None => false end.

Definition progress_update (progress : option Z) (n : Z) : M unit :=
  if progress_true progress then emit (TqdmUpdate n) else ret tt.

Definition progress_close (progress : option Z) : M unit :=
  if progress_true progress then emit TqdmClose else ret tt.

Definition insert_sql_for (table_name : string) : string :=
  "INSERT INTO " ++ table_name ++ " (amount, description) VALUES %s".

(** ** [insert_records] (simulate_data.py, lines 95-132) *)

(** The [for] loop of lines 109-122 with [n] iterations left; returns the
    rows not yet inserted. *)
Fixpoint insert_loop (n : nat) (i batch_size : Z) (c : conn) (insert_sql : string)
    (progress : option Z) (records : list record) : M (list record) :=
  match n with
  | O => ret records
  | S n' =>
      r <- draw_record ;;
      let records := (records ++ [r])%list in
      m <- py_mod i batch_size ;;
      if m =? 0 then
        do_call (ExecuteValues c insert_sql records) ;;;
        do_call (Commit c) ;;;
        progress_update progress batch_size ;;;
        insert_loop n' (i + 1) batch_size c insert_sql progress []
      else insert_loop n' (i + 1) batch_size c insert_sql progress records
  end.

(** Lines 108-129: the loop, then the insert of the rows that remain. *)
Definition insert_body (c : conn) (insert_sql : string) (progress : option Z)
    (num_records batch_size : Z) : M unit :=
  records <- insert_loop (Z.to_nat num_records) 1 batch_size c insert_sql
               progress [] ;;
  match records with
  | [] => ret tt
  | _ =>
      do_call (ExecuteValues c insert_sql records) ;;;
      do_call (Commit c) ;;;
      progress_update progress (Z.of_nat (List.length records))
  end.

Definition insert_records (c : conn) (table_name : string)
    (num_records batch_size : Z) : M unit :=
  progress <- make_progress (ret num_records) ;;
  let insert_sql := insert_sql_for table_name in
  with_cursor c (insert_body c insert_sql progress num_records batch_size) ;;;
  progress_close progress.

(** ** [insert_batch_pool] (simulate_data.py, lines 134-151) *)

Definition insert_batch_pool (table_name : string) (batch : list record) : M unit :=
  let insert_sql := insert_sql_for table_name in
  assign_conn None ;;;
  try_finally
    (try_except
       (c <- getconn ;;
        assign_conn (Some c) ;;;
        with_cursor c (do_call (ExecuteValues c insert_sql batch)) ;;;
        do_call (Commit c))
       (fun e =>
          emit (Print (Cat ("Error inserting batch for " ++ table_name ++ ": ")
                           (str_exn e))) ;;;
          v <- read_conn ;;
          match v with
          | Some c => do_call (Rollback c)
          | None => ret tt
          end))
    (v <- read_conn ;;
     match v with
     | Some c => do_call (Putconn c)
     | None => ret tt
     end).

(** ** [insert_records_concurrent] (simulate_data.py, lines 169-194) *)

(** The surroundings of the k-th task, and the state its thread starts in. *)
Definition worker_env (en : env) (k : nat) : env :=
  {| fault := worker_fault en k;
     pool_conn := worker_conn en k;
     has_tqdm := has_tqdm en;
     worker_fault := worker_fault en;
     worker_conn := worker_conn en;
     finish_time := finish_time en |}.

Definition worker_start (w : world) : world :=
  {| log := []; console := []; gen := gen w; conn_var := None; futures := [] |}.

(** [ThreadPoolExecutor(max_workers=num_workers)] *)
Definition new_executor (num_workers : Z) : M unit :=
  if num_workers <=? 0
  then raise (Exn ValueError (Lit "max_workers must be greater than 0"))
  else ret tt.

(** [futures.append(executor.submit(insert_batch_pool, connection_pool,
    table_name, batch))]: the task runs on a worker thread, to its end. *)
Definition submit (table_name : string) (batch : list record) : M unit :=
  fun en w =>
    let k := List.length (futures w) in
    let '(r, wk) := insert_batch_pool table_name batch (worker_env en k)
                      (worker_start w) in
    (Ok tt,
     set_futures
       (futures w ++ [{| f_result := r; f_log := log wk; f_console := console wk |}])%list
       w).

Fixpoint submit_each (table_name : string) (progress : option Z)
    (batches : list (list record)) : M unit :=
  match batches with
  | [] => ret tt
  | batch :: rest =>
      submit table_name batch ;;;
      progress_update progress 1 ;;;
      submit_each table_name progress rest
  end.

(** [for batch in generate_batches(num_records, batch_size): ...] *)
Definition for_generate_batches (table_name : string) (progress : option Z)
    (num_records batch_size : Z) : M unit :=
  fun en w =>
    let g := generate_batches num_records batch_size (gen w) in
    (submit_each table_name progress (yielded g) ;;;
     match ending g with
     | Some e => raise e
     | None => ret tt
     end) en (set_gen (rng_after g) w).

(** The order in which [as_completed] hands the futures over: by completion
    time, earlier submissions first among equals. *)
Fixpoint insert_by_time (t : nat -> nat) (k : nat) (l : list nat) : list nat :=
  match l with
  | [] => [k]
  | h :: r => if (t h <=? t k)%nat then h :: insert_by_time t k r else k :: l
  end.

Definition as_completed (t : nat -> nat) (n : nat) : list nat :=
  fold_left (fun l k => insert_by_time t k l) (seq 0 n) [].

(** [for future in as_completed(futures): future.result()] *)
Fixpoint results_in_order (order : list nat) (fs : list future) : result unit :=
  match order with
  | [] => Ok tt
  | k :: rest =>
      match nth_error fs k with
      | Some {| f_result := Raise e |} => Raise e
      | _ => results_in_order rest fs
      end
  end.

Definition wait_results : M unit :=
  fun en w =>
    (results_in_order
       (as_completed (finish_time en) (List.length (futures w))) (futures w), w).

Definition insert_records_concurrent (db_params : dict) (table_name : string)
    (num_records batch_size num_workers : Z) : M unit :=
  progress <- make_progress
                (py_floordiv (num_records + batch_size - 1) batch_size) ;;
  do_call (PoolCreate 1 num_workers db_params) ;;;
  new_executor num_workers ;;;
  for_generate_batches table_name progress num_records batch_size ;;;
  wait_results ;;;
  progress_close progress ;;;
  do_call Closeall.

(** A state with nothing done yet, and surroundings in which nothing fails. *)
Definition start (g : rng) : world :=
  {| log := []; console := []; gen := g; conn_var := None; futures := [] |}.

Definition calm : env :=
  {| fault := fun _ => None; pool_conn := O; has_tqdm := true;
     worker_fault := fun _ _ => None; worker_conn := fun k => k;
     finish_time := fun k => k |}.

(** ** Vocabulary of the properties *)

(** Same result of two parsers: equal dictionaries, or [ValueError] twice. *)
Definition same_outcome (r1 r2 : result dict) : Prop :=
  match r1, r2 with
  | Ok d1, Ok d2 => d1 = d2
  | Raise e1, Raise e2 => exn_class e1 = ValueError /\ exn_class e2 = ValueError
  | _, _ => False
  end.

Fixpoint has_char (c : ascii) (s : string) : bool :=
  match s with
  | EmptyString => false
  | String a r => Ascii.eqb a c || has_char c r
  end.

(** A character of [A-Za-z0-9]. *)
Definition is_alnum (c : ascii) : bool :=
  let n := nat_of_ascii c in
  ((48 <=? n) && (n <=? 57) || (65 <=? n) && (n <=? 90)
   || (97 <=? n) && (n <=? 122))%nat.

(** Ten alphanumeric characters, and an amount between 1.00 and 1000.00
    (in hundredths). *)
Definition record_ok (r : record) : Prop :=
  String.length (description r) = 10%nat
  /\ Forall (fun c => is_alnum c = true) (list_ascii_of_string (description r))
  /\ 100 <= amount r <= 100000.

Definition size (batch : list record) : Z := Z.of_nat (List.length batch).

Definition total_size (batches : list (list record)) : Z :=
  fold_right (fun b acc => size b + acc) 0 batches.

(** Full batches, then the remainder if there is one. *)
Definition expected_sizes (total_records batch_size : Z) : list Z :=
  (repeat batch_size (Z.to_nat (total_records / batch_size))
   ++ (if total_records mod batch_size =? 0 then []
       else [total_records mod batch_size]))%list.

(** The calls a thread made between two of its states. *)
Definition new_events (w w' : world) : list event :=
  skipn (List.length (log w)) (log w').

Definition raised (ev : event) : bool :=
  match failed ev with Some _ => true | None => false end.

(** The steps of a batch insert, and the clean-up after it. *)
Definition is_insert_step (c : call) : bool :=
  match c with
  | Cursor _ | ExecuteValues _ _ _ | CursorClose _ | Commit _ => true
  | _ => false
  end.

Definition is_cleanup (c : call) : bool :=
  match c with
  | Rollback _ | Putconn _ => true
  | _ => false
  end.

Definition insert_failed (trace : list event) : bool :=
  existsb (fun ev => is_insert_step (made ev) && raised ev) trace.

Definition cleanup_failed (trace : list event) : bool :=
  existsb (fun ev => is_cleanup (made ev) && raised ev) trace.

Definition acquisition_failed (trace : list event) : bool :=
  existsb (fun ev => match made ev with Getconn => raised ev | _ => false end) trace.

(** The calls that insert a batch, and the rows handed to the driver. *)
Definition is_insert_call (c : call) : bool :=
  match c with
  | ExecuteValues _ _ _ | Commit _ => true
  | _ => false
  end.

Fixpoint rows_attempted (trace : list event) : nat :=
  match trace with
  | [] => O
  | ev :: rest =>
      (match made ev with
       | ExecuteValues _ _ rows => List.length rows
       | _ => O
       end + rows_attempted rest)%nat
  end.

(** Random-source outputs consumed between two states; a row takes 22. *)
Definition outputs_drawn (w w' : world) : nat := (pos (gen w') - pos (gen w))%nat.

(** The rows a call hands to the driver. *)
Definition rows_of (ev : event) : list record :=
  match made ev with
  | ExecuteValues _ _ rows => rows
  | _ => []
  end.

Definition rows_ok (ev : event) : Prop := Forall record_ok (rows_of ev).

(** A call that went through. *)
Definition quiet (ev : event) : Prop := raised ev = false.

(** A run of calls that went through, stopped by an insert call that
    raised [e]. *)
Inductive stopped_at (e : exn) : list event -> Prop :=
  | Stopped pre ev :
      Forall quiet pre -> failed ev = Some e -> is_insert_call (made ev) = true ->
      stopped_at e (pre ++ [ev]).

(** What [insert_loop] has done when it is left, entered with [pending] rows
    and [n] iterations to go: its result [r], its calls [trace], and the
    outputs of the random source it consumed. *)
Definition loop_post (b : Z) (pending n : nat) (r : result (list record))
    (trace : list event) (drawn : nat) : Prop :=
  Forall rows_ok trace /\
  match r with
  | Ok rest =>
      Forall quiet trace /\ drawn = (22 * n)%nat
      /\ (rows_attempted trace + List.length rest = pending + n)%nat
      /\ Forall record_ok rest
  | Raise e =>
      (b = 0 /\ trace = [] /\ e = Exn ZeroDivisionError (Native DivisionByZero))
      \/ (stopped_at e trace /\ exists k, drawn = (22 * k)%nat
          /\ rows_attempted trace = (pending + k)%nat)
  end.

(** ** Symbolic runs *)

Ltac unfold_M :=
  unfold with_cursor, getconn, try_finally, try_except, bind,
    ret, raise, emit, assign_conn, read_conn;
  cbn [log console gen conn_var futures fst snd set_log set_console set_conn_var].

(** One call into the driver, in both of its outcomes. *)
Ltac step_call :=
  match goal with
  | |- context [do_call ?c ?en ?w] =>
      let f := fresh "f" in
      change (do_call c en w) with
        ((fun f => (match f with Some e => Raise e | None => @Ok unit tt end,
                    set_log (log w ++ [{| made := c; failed := f |}])%list w))
           (fault en (List.length (log w))));
      generalize (fault en (List.length (log w))); intros f; destruct f;
      cbn beta iota;
      cbn [log console gen conn_var futures fst snd set_log set_console set_conn_var]
  end.

(** A list of at most five elements given by what follows. *)
Ltac pick_list k :=
  first [ exists []; k | eexists [_]; k | eexists [_; _]; k
        | eexists [_; _; _]; k | eexists [_; _; _; _]; k
        | eexists [_; _; _; _; _]; k ].

(** The same, up to seven. *)
Ltac pick_longer k :=
  first [ pick_list k | eexists [_; _; _; _; _; _]; k
        | eexists [_; _; _; _; _; _; _]; k ].

(** ** Scenarios *)

(** A random source (any would do), and a parsed configuration. *)
Definition rng0 : rng :=
  {| words := fun n =>
       match n with
       | O => 3141592653
       | S O => 2718281828
       | S (S O) => 1618033988
       | _ => 1414213562
       end;
     pos := O |}.

Definition demo_params : dict :=
  [("host", PStr "localhost"); ("port", PInt 5432); ("dbname", PStr "bench");
   ("user", PStr "loader"); ("password", PStr "secret");
   ("sslmode", PStr "disable")].

Definition demo_config : filesystem :=
  fun _ =>
    Ok (PDict [("PSQLDS1",
                PDict [("url", PStr "jdbc:postgresql://localhost:5432/bench");
                       ("username", PStr "loader");
                       ("password", PStr "secret");
                       ("ssl", PBool true)])]).

Definition statement_failed : exn :=
  Exn DatabaseError (Lit "server closed the connection unexpectedly").
Definition connection_closed : exn :=
  Exn DatabaseError (Lit "connection already closed").

(** In a worker: [getconn] (call 0) and [cursor] (call 1) succeed,
    [execute_values] (call 2) raises; everything else succeeds. *)
Definition statement_fails : env :=
  {| fault := fun n => if (n =? 2)%nat then Some statement_failed else None;
     pool_conn := 7%nat; has_tqdm := true;
     worker_fault := fun _ _ => None; worker_conn := fun k => k;
     finish_time := fun k => k |}.

(** The same, and then [rollback] (call 4) raises as well. *)
Definition link_lost : env :=
  {| fault := fun n => if (n =? 2)%nat then Some statement_failed
                       else if (n =? 4)%nat then Some connection_closed
                       else None;
     pool_conn := 7%nat; has_tqdm := true;
     worker_fault := fun _ _ => None; worker_conn := fun k => k;
     finish_time := fun k => k |}.

(** A load job in which the insert of the first batch fails (its
    [execute_values] raises) and nothing else goes wrong. *)
Definition first_batch_fails : env :=
  {| fault := fun _ => None; pool_conn := O; has_tqdm := true;
     worker_fault := fun k n =>
       if ((k =? 0) && (n =? 2))%nat then Some statement_failed else None;
     worker_conn := fun k => k;
     finish_time := fun k => k |}.

(** The sequential driver with the commit of the first batch (call 2, after
    [cursor] and [execute_values]) raising. *)
Definition first_commit_fails : env :=
  {| fault := fun n => if (n =? 2)%nat then Some statement_failed else None;
     pool_conn := O; has_tqdm := true;
     worker_fault := fun _ _ => None; worker_conn := fun k => k;
     finish_time := fun k => k |}.

(** * Further definitions: the rest of the two programs *)

(** ** Further vocabulary *)

(** The text [[jdbc:]postgresql://host:port/dbname]. *)
Definition jdbc_url_of (jdbc : bool) (host port dbname : string) : string :=
  (if jdbc then "jdbc:" else "") ++ "postgresql://" ++ host ++ ":" ++ port
  ++ "/" ++ dbname.

(** The dictionary both parsers build. *)
Definition url_params (host : string) (port : Z) (dbname : string) : dict :=
  [("host", PStr host); ("port", PInt port); ("dbname", PStr dbname)].

(** The two messages [parse_jdbc_url] raises with. *)
Definition bad_scheme : message := Lit "Invalid JDBC URL format.".
Definition bad_rest (m : message) : message := Cat "Error parsing JDBC URL: " m.

(** Two runs ending alike: in the same value, or in exceptions of one class. *)
Definition alike {A} (r1 r2 : result A) : Prop :=
  match r1, r2 with
  | Ok a1, Ok a2 => a1 = a2
  | Raise e1, Raise e2 => exn_class e1 = exn_class e2
  | _, _ => False
  end.

(** The connection parameters [load_db_config] returns for an entry
    [conn_info] whose URL parsed to [host], [port], [dbname]. *)
Definition connection_params (conn_info : dict) (host : string) (port : Z)
    (dbname : string) : dict :=
  [("host", PStr host); ("port", PInt port); ("dbname", PStr dbname);
   ("user", dict_get_default conn_info "username" (PStr ""));
   ("password", dict_get_default conn_info "password" (PStr ""));
   ("sslmode", if truthy (dict_get_default conn_info "ssl" PNone)
               then PStr "require" else PStr "disable")].

(** A configuration file whose only entry has no [url], and no other file. *)
Definition entry_without_url : dict := [("username", PStr "loader")].
Definition config_without_url : dict := [("PSQLDS1", PDict entry_without_url)].
Definition only_one_file : filesystem :=
  fun name =>
    if String.eqb name "python-datasource.json" then Ok (PDict config_without_url)
    else Raise (Exn OSError (Lit "No such file or directory")).

(** The first [n] rows a random source gives, and the source after them. *)
Fixpoint draw_rows (n : nat) (g : rng) : list record * rng :=
  match n with
  | O => ([], g)
  | S n' =>
      match random_record g with
      | (Ok r, g') => let '(rows, g'') := draw_rows n' g' in (r :: rows, g'')
      | (Raise _, g') => ([], g')
      end
  end.

(** A call that went through. *)
Definition went (c : call) : event := {| made := c; failed := None |}.

(** The insert and the commit of each batch in turn. *)
Definition insert_events (c : conn) (insert_sql : string)
    (batches : list (list record)) : list event :=
  flat_map (fun batch => [went (ExecuteValues c insert_sql batch); went (Commit c)])
           batches.

(** Surroundings in which no call of this thread raises. *)
Definition fault_free (en : env) : Prop := forall k, fault en k = None.

(** A commit that went through; a rollback that was called. *)
Definition committed (trace : list event) : bool :=
  existsb (fun ev => match made ev with
                     | Commit _ => negb (raised ev)
                     | _ => false
                     end) trace.

Definition rolled_back (trace : list event) : bool :=
  existsb (fun ev => match made ev with Rollback _ => true | _ => false end) trace.

(** A worker for which [getconn] raises. *)
Definition no_connection : exn := Exn PoolError (Lit "connection pool exhausted").
Definition pool_exhausted : env :=
  {| fault := fun n => if (n =? 0)%nat then Some no_connection else None;
     pool_conn := 7%nat; has_tqdm := true;
     worker_fault := fun _ _ => None; worker_conn := fun k => k;
     finish_time := fun k => k |}.

(** The task the driver submits for the [k]-th batch, run to its end on a
    worker thread. *)
Definition task_run (table_name : string) (en : env) (g : rng) (k : nat)
    (batch : list record) : future :=
  let '(r, wk) := insert_batch_pool table_name batch (worker_env en k) (start g) in
  {| f_result := r; f_log := log wk; f_console := console wk |}.

Fixpoint tasks_from (table_name : string) (en : env) (g : rng) (k : nat)
    (batches : list (list record)) : list future :=
  match batches with
  | [] => []
  | batch :: rest =>
      task_run table_name en g k batch :: tasks_from table_name en g (S k) rest
  end.

(** Surroundings in which no call of any worker raises. *)
Definition workers_fault_free (en : env) : Prop :=
  forall k j, worker_fault en k j = None.

(** The error of [ThreadPoolExecutor] for a non-positive [max_workers]. *)
Definition no_workers : exn :=
  Exn ValueError (Lit "max_workers must be greater than 0").

Definition division_by_zero : exn := Exn ZeroDivisionError (Native DivisionByZero).

(** A job in which, for the first batch, [execute_values] raises and then
    [rollback] raises as well. *)
Definition first_worker_loses_link : env :=
  {| fault := fun _ => None; pool_conn := O; has_tqdm := true;
     worker_fault := fun k n =>
       if ((k =? 0) && (n =? 2))%nat then Some statement_failed
       else if ((k =? 0) && (n =? 4))%nat then Some connection_closed
       else None;
     worker_conn := fun k => k;
     finish_time := fun k => k |}.

(** Surroundings without [tqdm] in which nothing fails. *)
Definition calm_without_tqdm : env :=
  {| fault := fun _ => None; pool_conn := O; has_tqdm := false;
     worker_fault := fun _ _ => None; worker_conn := fun k => k;
     finish_time := fun k => k |}.

(** The rows handed to the driver in a trace, in order. *)
Definition rows_sent (trace : list event) : list record := flat_map rows_of trace.

(** ** Sessions: the DDL helpers, [test_connection] and the two [main]s

    These functions talk to one connection, statement by statement, and call
    the two drivers.  A session records each step and what is on the
    console; a call to a driver (modelled above, on its own state) is one
    step that returns or raises, and so is [simulate_production], which runs
    until it is interrupted; what such a step wrote to the console is kept
    as one piece, its text left open. *)
Module Session.

Inductive step : Type :=
  | Connect (db_params : dict)                (* psycopg2.connect *)
  | Cursor (c : conn)                         (* conn.cursor() *)
  | Execute (c : conn) (sql : string)         (* cur.execute(sql) *)
  | Fetchone (c : conn)                       (* cursor.fetchone() *)
  | CursorClose (c : conn)                    (* leaving [with conn.cursor()] *)
  | Commit (c : conn)                         (* conn.commit() *)
  | Close (c : conn)                          (* conn.close() *)
  | InsertRecords (c : conn) (table_name : string) (num_records batch_size : Z)
  | InsertRecordsConcurrent (db_params : dict) (table_name : string)
      (num_records batch_size num_workers : Z)
  | SimulateProduction (c : conn) (table_names : list string) (batch_size : Z)
      (delay : spec_float).

Record event : Type := { made : step; failed : option exn }.

(** What is on the console: a printed line (a message, or a prefix and a
    value, [print(a, b)]), or all that a driver or the simulation wrote while
    it ran as the step [c], kept as one piece whatever it is (progress bars,
    the error lines of the workers, the lines of the simulation). *)
Inductive line : Type :=
  | Line (m : message)
  | LineValue (prefix : string) (v : pyval)
  | Output (c : step).

Record state : Type := { log : list event; console : list line }.

(** What the surroundings decide: whether the n-th step raises, the
    connection [connect] returns, the row [fetchone] returns, the files. *)
Record env : Type :=
  { fault : nat -> option exn;
    connection : conn;
    fetched : pyval;
    files : filesystem }.

Definition S (A : Type) : Type := env -> state -> result A * state.

Definition ret {A} (a : A) : S A := fun _ s => (Ok a, s).
Definition raise {A} (e : exn) : S A := fun _ s => (Raise e, s).

Definition bind {A B} (m : S A) (k : A -> S B) : S B :=
  fun en s =>
    match m en s with
    | (Ok a, s') => k a en s'
    | (Raise e, s') => (Raise e, s')
    end.

(** [try: body except Exception as e: handler] *)
Definition try_except {A} (body : S A) (handler : exn -> S A) : S A :=
  fun en s =>
    match body en s with
    | (Ok a, s') => (Ok a, s')
    | (Raise e, s') => handler e en s'
    end.

(** [try: body finally: final] *)
Definition try_finally {A} (body : S A) (final : S unit) : S A :=
  fun en s =>
    let '(r, s') := body en s in
    match final en s' with
    | (Ok _, s'') => (r, s'')
    | (Raise e, s'') => (Raise e, s'')
    end.

Definition do_step (c : step) : S unit :=
  fun en s =>
    let f := fault en (List.length (log s)) in
    (match f with Some e => Raise e | None => Ok tt end,
     {| log := (log s ++ [{| made := c; failed := f |}])%list;
        console := console s |}).

Definition print (l : line) : S unit :=
  fun _ s => (Ok tt, {| log := log s; console := (console s ++ [l])%list |}).

(** A step that runs one of the drivers or the simulation: it returns or
    raises like any step, and what it wrote is on the console. *)
Definition do_callee (c : step) : S unit :=
  fun en s =>
    let f := fault en (List.length (log s)) in
    (match f with Some e => Raise e | None => Ok tt end,
     {| log := (log s ++ [{| made := c; failed := f |}])%list;
        console := (console s ++ [Output c])%list |}).

(** A pure computation that may raise. *)
Definition lift {A} (r : result A) : S A := fun _ s => (r, s).

(** [with conn.cursor() as cur: body] *)
Definition with_cursor {A} (c : conn) (body : S A) : S A :=
  bind (do_step (Cursor c)) (fun _ => try_finally body (do_step (CursorClose c))).

Definition connect (db_params : dict) : S conn :=
  bind (do_step (Connect db_params)) (fun _ en s => (Ok (connection en), s)).

Definition fetchone (c : conn) : S pyval :=
  bind (do_step (Fetchone c)) (fun _ en s => (Ok (fetched en), s)).

End Session.

Notation "x <~ m ;; k" := (Session.bind m (fun x => k))
  (at level 61, m at next level, right associativity).
Notation "m ;;~ k" := (Session.bind m (fun _ => k))
  (at level 61, right associativity).

Definition newline : string := String (ascii_of_nat 10) "".

(** simulate_data.py, lines 74-81 *)
Definition create_table_sql (table_name : string) : string :=
  newline ++
  "    CREATE TABLE IF NOT EXISTS " ++ table_name ++ " (" ++ newline ++
  "        id SERIAL PRIMARY KEY," ++ newline ++
  "        transaction_ts TIMESTAMP NOT NULL DEFAULT CURRENT_TIMESTAMP," ++ newline ++
  "        amount NUMERIC(10,2) NOT NULL," ++ newline ++
  "        description TEXT" ++ newline ++
  "    );" ++ newline ++
  "    ".

Definition drop_table_sql (table_name : string) : string :=
  "DROP TABLE IF EXISTS " ++ table_name ++ ";".

(** simulate_data.py, lines 66-84 *)
Definition create_table_if_not_exists (c : conn) (table_name : string)
  : Session.S unit :=
  Session.with_cursor c
    (Session.do_step (Session.Execute c (create_table_sql table_name))) ;;~
  Session.do_step (Session.Commit c).

(** simulate_data.py, lines 86-93 *)
Definition reset_table (c : conn) (table_name : string) : Session.S unit :=
  Session.with_cursor c
    (Session.do_step (Session.Execute c (drop_table_sql table_name))) ;;~
  Session.do_step (Session.Commit c) ;;~
  create_table_if_not_exists c table_name.

(** test_connection.py, lines 57-70 *)
Definition test_connection (db_params : dict) : Session.S unit :=
  Session.try_except
    (connection <~ Session.connect db_params ;;
     Session.print
       (Session.Line (Lit "Successfully connected to the database!")) ;;~
     Session.with_cursor connection
       (Session.do_step (Session.Execute connection "SELECT version();") ;;~
        version <~ Session.fetchone connection ;;
        Session.print (Session.LineValue "Database version:" version)) ;;~
     Session.do_step (Session.Close connection))
    (fun e =>
       Session.print
         (Session.Line (Cat "Failed to connect to the database. Error: "
                            (str_exn e)))).

(** test_connection.py, lines 72-84, after [parse_args]. *)
Definition test_connection_main (config alias : string) : Session.S unit :=
  Session.try_except
    (db_params <~
       (fun en s =>
          (TestConnection.load_db_config (Session.files en) config alias, s)) ;;
     test_connection db_params)
    (fun e => Session.print (Session.Line (Cat "Error: " (str_exn e)))).

Definition session_start : Session.state :=
  {| Session.log := []; Session.console := [] |}.

(** The steps a session made between two of its states. *)
Definition new_steps (s s' : Session.state) : list Session.event :=
  skipn (List.length (Session.log s)) (Session.log s').

Definition step_raised (ev : Session.event) : bool :=
  match Session.failed ev with Some _ => true | None => false end.

Definition passed (c : Session.step) : Session.event :=
  {| Session.made := c; Session.failed := None |}.

Ltac unfold_S :=
  unfold Session.with_cursor, Session.connect, Session.fetchone,
    Session.try_finally, Session.try_except, Session.bind, Session.ret,
    Session.raise, Session.print, Session.lift;
  cbn [Session.log Session.console fst snd].

(** One step of a session, in both of its outcomes. *)
Ltac session_step :=
  match goal with
  | |- context [Session.do_step ?c ?en ?s] =>
      let f := fresh "f" in
      change (Session.do_step c en s) with
        ((fun f => (match f with Some e => Raise e | None => @Ok unit tt end,
                    {| Session.log :=
                         (Session.log s ++ [{| Session.made := c;
                                               Session.failed := f |}])%list;
                       Session.console := Session.console s |}))
           (Session.fault en (List.length (Session.log s))));
      generalize (Session.fault en (List.length (Session.log s)));
      intros f; destruct f;
      cbn beta iota; cbn [Session.log Session.console fst snd]
  end.

(** The steps a symbolic run made, as a list. *)
Ltac name_steps :=
  match goal with
  | |- context [new_steps ?s ?S'] =>
      let E := fresh "E" in
      eassert (E : new_steps s S' = _)
        by (unfold new_steps; cbn [Session.log snd];
            rewrite <- ?app_assoc; cbn [app];
            rewrite skipn_app, skipn_all, Nat.sub_diag; cbn [app skipn];
            reflexivity);
      rewrite E; clear E
  end.

(** No step of a short list of steps is the one asked for. *)
Ltac no_such_step :=
  repeat match goal with
         | H : Exists _ [] |- _ => now apply Exists_nil in H
         | H : Exists _ (_ :: _) |- _ =>
             apply Exists_cons in H; destruct H as [H|H];
             [exfalso; cbn [Session.made passed] in H;
              first [discriminate H | solve [inversion H]]|]
         end.

(** One of the steps of a short list raised. *)
Ltac some_step_raised :=
  repeat first [apply Exists_cons_hd; reflexivity | apply Exists_cons_tl].

(** The steps of [create_table_if_not_exists] and of the drop in
    [reset_table], when all pass. *)
Definition create_steps (c : conn) (table_name : string) : list Session.event :=
  map passed [Session.Cursor c; Session.Execute c (create_table_sql table_name);
              Session.CursorClose c; Session.Commit c].

Definition drop_steps (c : conn) (table_name : string) : list Session.event :=
  map passed [Session.Cursor c; Session.Execute c (drop_table_sql table_name);
              Session.CursorClose c; Session.Commit c].

(** Sessions in which nothing fails, in which the second step raises, and in
    which the configuration file has no usable entry. *)
Definition permission_denied : exn :=
  Exn DatabaseError (Lit "permission denied for schema public").

Definition quiet_session : Session.env :=
  {| Session.fault := fun _ => None; Session.connection := 7%nat;
     Session.fetched := PList [PStr "PostgreSQL 16.3"];
     Session.files := demo_config |}.

Definition second_step_fails : Session.env :=
  {| Session.fault := fun n => if (n =? 1)%nat then Some permission_denied else None;
     Session.connection := 7%nat;
     Session.fetched := PList [PStr "PostgreSQL 16.3"];
     Session.files := only_one_file |}.

(** The lines [test_connection] prints. *)
Definition connected_line : Session.line :=
  Session.Line (Lit "Successfully connected to the database!").
Definition failed_line (e : exn) : Session.line :=
  Session.Line (Cat "Failed to connect to the database. Error: " (str_exn e)).

(** ** [main] of simulate_data.py *)

(** [str(i)] and [s.strip()]. *)
Definition str_int (i : Z) : string := DecimalString.NilZero.string_of_int (Z.to_int i).

Definition str_strip (s : string) : string :=
  string_of_list_ascii (strip is_space (list_ascii_of_string s)).

(** [range(lo, hi)] *)
Definition py_range (lo hi : Z) : list Z :=
  map (fun k => lo + Z.of_nat k) (seq 0 (Z.to_nat (hi - lo))).

(** What [parse_args] returns. *)
Module Args.

Record t : Type :=
  { config : string;
    alias : string;
    num_tables : Z;
    start_table : Z;
    records_per_table : Z;
    simulate : bool;
    batch_size : Z;
    delay : spec_float;
    num_workers : Z;
    reset_all : bool;
    reset_tables : string }.

End Args.

(** [int(x.strip()) for x in parts], blank parts left out: the first
    [int] that raises ends the comprehension. *)
Fixpoint int_each (parts : list string) : result (list Z) :=
  match parts with
  | [] => Ok []
  | x :: rest =>
      if String.eqb (str_strip x) "" then int_each rest
      else
        rbind (py_int (str_strip x)) (fun i =>
        rbind (int_each rest) (fun more => Ok (i :: more)))
  end.

(** simulate_data.py, lines 257-263: the numbers of [--reset_tables], the
    set as a list. *)
Definition parse_reset_tables (reset_tables : string) : result (list Z) :=
  if String.eqb reset_tables "" then Ok []
  else int_each (str_split_all "," reset_tables).

(** [for x in l: body] *)
Fixpoint for_each {A} (l : list A) (body : A -> Session.S unit) : Session.S unit :=
  match l with
  | [] => Session.ret tt
  | x :: rest => body x ;;~ for_each rest body
  end.

(** [try: x = m  except Exception as e: handler; return], then the rest
    of the function. *)
Definition or_return {A} (m : Session.S A) (handler : exn -> Session.S unit)
    (rest : A -> Session.S unit) : Session.S unit :=
  fun en s =>
    match m en s with
    | (Ok a, s') => rest a en s'
    | (Raise e, s') => handler e en s'
    end.

Definition table_name_of (i : Z) : string := "transactions_" ++ str_int i.

(** simulate_data.py, lines 281-298: the body of the loop over the tables.
    The two drivers are single steps here: each returns or raises, and
    leaves what it wrote on the console. *)
Definition process_table (a : Args.t) (db_params : dict) (c : conn)
    (reset_tables_set : list Z) (i : Z) : Session.S unit :=
  let table_name := table_name_of i in
  (if Args.reset_all a || existsb (Z.eqb i) reset_tables_set
   then
     Session.print (Session.Line (Lit ("Resetting table: " ++ table_name))) ;;~
     reset_table c table_name
   else
     Session.print
       (Session.Line (Lit ("Creating table (if not exists): " ++ table_name))) ;;~
     create_table_if_not_exists c table_name) ;;~
  Session.print
    (Session.Line (Lit ("Inserting " ++ str_int (Args.records_per_table a)
                        ++ " records into " ++ table_name ++ "."))) ;;~
  (if 1 <? Args.num_workers a
   then
     Session.do_callee
       (Session.InsertRecordsConcurrent db_params table_name
          (Args.records_per_table a) (Args.batch_size a) (Args.num_workers a))
   else
     Session.do_callee
       (Session.InsertRecords c table_name (Args.records_per_table a)
          (Args.batch_size a))).

Definition processed_tables (a : Args.t) : list Z :=
  py_range (Args.start_table a) (Args.num_tables a + 1).

(** simulate_data.py, lines 279-305: from the loop to the end of [main]. *)
Definition run_tables (a : Args.t) (db_params : dict) (reset_tables_set : list Z)
    (c : conn) : Session.S unit :=
  for_each (processed_tables a) (process_table a db_params c reset_tables_set) ;;~
  (if Args.simulate a
   then
     Session.do_callee
       (Session.SimulateProduction c (map table_name_of (processed_tables a))
          (Args.batch_size a) (Args.delay a))
   else Session.ret tt) ;;~
  Session.do_step (Session.Close c).

(** simulate_data.py, lines 219-305, after [parse_args]. *)
Definition main (a : Args.t) : Session.S unit :=
  if negb ((1 <=? Args.num_tables a) && (Args.num_tables a <=? 1000)) then
    Session.raise (Exn ValueError (Lit "num_tables must be between 1 and 1000."))
  else if negb ((1000 <=? Args.records_per_table a)
                && (Args.records_per_table a <=? 10000000)) then
    Session.raise
      (Exn ValueError (Lit "records_per_table must be between 1000 and 10000000."))
  else if Args.start_table a <? 1 then
    Session.raise (Exn ValueError (Lit "start_table must be 1 or greater."))
  else if Args.num_tables a <? Args.start_table a then
    Session.print
      (Session.Line
         (Lit "start_table is greater than num_tables. Nothing to process."))
  else
    or_return (Session.lift (parse_reset_tables (Args.reset_tables a)))
      (fun e =>
         Session.print
           (Session.Line (Cat "Error processing --reset_tables: " (str_exn e))))
      (fun reset_tables_set =>
    or_return
      (fun en s =>
         (SimulateData.load_db_config (Session.files en) (Args.config a)
            (Args.alias a), s))
      (fun e =>
         Session.print (Session.Line (Cat "Error loading config: " (str_exn e))))
      (fun db_params =>
    or_return (Session.connect db_params)
      (fun e =>
         Session.print
           (Session.Line (Cat "Error connecting to the database: " (str_exn e))))
      (run_tables a db_params reset_tables_set))).

(** The arguments [main] validates, and those with which it reaches the
    database. *)
Definition valid_arguments (a : Args.t) : Prop :=
  1 <= Args.num_tables a <= 1000
  /\ 1000 <= Args.records_per_table a <= 10000000
  /\ 1 <= Args.start_table a.

(** The steps of one table when all pass. *)
Definition insert_step (a : Args.t) (db_params : dict) (c : conn) (i : Z)
  : Session.step :=
  if 1 <? Args.num_workers a
  then Session.InsertRecordsConcurrent db_params (table_name_of i)
         (Args.records_per_table a) (Args.batch_size a) (Args.num_workers a)
  else Session.InsertRecords c (table_name_of i) (Args.records_per_table a)
         (Args.batch_size a).

Definition table_steps (a : Args.t) (db_params : dict) (c : conn)
    (reset_tables_set : list Z) (i : Z) : list Session.event :=
  ((if Args.reset_all a || existsb (Z.eqb i) reset_tables_set
    then drop_steps c (table_name_of i) else [])
   ++ create_steps c (table_name_of i)
   ++ [passed (insert_step a db_params c i)])%list.

(** What is on the console for one table when all pass: the two lines of
    [main] and what the driver wrote. *)
Definition table_lines (a : Args.t) (db_params : dict) (c : conn)
    (reset_tables_set : list Z) (i : Z) : list Session.line :=
  [Session.Line
     (Lit (if Args.reset_all a || existsb (Z.eqb i) reset_tables_set
           then "Resetting table: " ++ table_name_of i
           else "Creating table (if not exists): " ++ table_name_of i));
   Session.Line (Lit ("Inserting " ++ str_int (Args.records_per_table a)
                      ++ " records into " ++ table_name_of i ++ "."));
   Session.Output (insert_step a db_params c i)].

(** The steps of [main] when all pass. *)
Definition main_steps (a : Args.t) (db_params : dict) (c : conn)
    (reset_tables_set : list Z) : list Session.event :=
  (passed (Session.Connect db_params)
   :: flat_map (table_steps a db_params c reset_tables_set) (processed_tables a)
   ++ (if Args.simulate a
       then [passed (Session.SimulateProduction c
                       (map table_name_of (processed_tables a))
                       (Args.batch_size a) (Args.delay a))]
       else [])
   ++ [passed (Session.Close c)])%list.

(** The console of [main] when all its steps pass. *)
Definition main_lines (a : Args.t) (db_params : dict) (c : conn)
    (reset_tables_set : list Z) : list Session.line :=
  (flat_map (table_lines a db_params c reset_tables_set) (processed_tables a)
   ++ (if Args.simulate a
       then [Session.Output
               (Session.SimulateProduction c
                  (map table_name_of (processed_tables a))
                  (Args.batch_size a) (Args.delay a))]
       else []))%list.

Definition is_connect (c : Session.step) : bool :=
  match c with Session.Connect _ => true | _ => false end.

Definition is_close (c : Session.step) : bool :=
  match c with Session.Close _ => true | _ => false end.

Definition session_fault_free (en : Session.env) : Prop :=
  forall k, Session.fault en k = None.

(** What a piece of a session does: it extends the log by steps other than
    connecting and closing, and the console by lines; its result is normal
    exactly when every step passed, and then the steps are [steps] and the
    lines [lines]; an exception it raises is that of one of its steps. *)
Definition piece (m : Session.S unit) (steps : list Session.event)
    (lines : list Session.line) : Prop :=
  forall en s, exists r t ls,
    m en s = (r, {| Session.log := (Session.log s ++ t)%list;
                    Session.console := (Session.console s ++ ls)%list |})
    /\ Forall (fun ev => is_connect (Session.made ev) = false
                         /\ is_close (Session.made ev) = false) t
    /\ (r = Ok tt <-> Forall (fun ev => step_raised ev = false) t)
    /\ (r = Ok tt -> t = steps /\ ls = lines)
    /\ (forall e, r = Raise e -> Exists (fun ev => Session.failed ev = Some e) t).

(** [main] gets as far as connecting: the arguments are valid, there are
    tables to process, [--reset_tables] reads as [reset_tables_set] and the
    configuration gives [db_params]. *)
Definition ready (a : Args.t) (en : Session.env) (reset_tables_set : list Z)
    (db_params : dict) : Prop :=
  valid_arguments a
  /\ Args.start_table a <= Args.num_tables a
  /\ parse_reset_tables (Args.reset_tables a) = Ok reset_tables_set
  /\ SimulateData.load_db_config (Session.files en) (Args.config a) (Args.alias a)
     = Ok db_params.

(** Three tables from the second on, the third one reset. *)
Definition demo_arguments : Args.t :=
  {| Args.config := "python-datasource.json"; Args.alias := "PSQLDS1";
     Args.num_tables := 4; Args.start_table := 2;
     Args.records_per_table := 1000; Args.simulate := false;
     Args.batch_size := 10000; Args.delay := S754_finite false 4503599627370496 (-52);
     Args.num_workers := 1; Args.reset_all := false;
     Args.reset_tables := "3, ,7" |}.

Definition no_tables : Args.t :=
  {| Args.config := "python-datasource.json"; Args.alias := "PSQLDS1";
     Args.num_tables := 0; Args.start_table := 1;
     Args.records_per_table := 1000; Args.simulate := true;
     Args.batch_size := 10000; Args.delay := S754_finite false 4503599627370496 (-52);
     Args.num_workers := 4; Args.reset_all := true;
     Args.reset_tables := "" |}.

(** A session in which the first insertion (the sixth step) raises. *)
Definition first_insert_fails : Session.env :=
  {| Session.fault := fun n => if (n =? 5)%nat then Some statement_failed else None;
     Session.connection := 7%nat;
     Session.fetched := PList [PStr "PostgreSQL 16.3"];
     Session.files := demo_config |}.

(** [",".join(str(i) for i in l)] *)
Definition comma_separated (l : list Z) : string :=
  String.concat "," (map str_int l).

(** The value of a string of decimal digits read after [acc]. *)
Fixpoint uint_val (d : Decimal.uint) (acc : Z) : Z :=
  match d with
  | Decimal.Nil => acc
  | Decimal.D0 l => uint_val l (10 * acc)
  | Decimal.D1 l => uint_val l (10 * acc + 1)
  | Decimal.D2 l => uint_val l (10 * acc + 2)
  | Decimal.D3 l => uint_val l (10 * acc + 3)
  | Decimal.D4 l => uint_val l (10 * acc + 4)
  | Decimal.D5 l => uint_val l (10 * acc + 5)
  | Decimal.D6 l => uint_val l (10 * acc + 6)
  | Decimal.D7 l => uint_val l (10 * acc + 7)
  | Decimal.D8 l => uint_val l (10 * acc + 8)
  | Decimal.D9 l => uint_val l (10 * acc + 9)
  end.

(** A character [str(i)] can hold. *)
Definition is_int_char (c : ascii) : bool := is_digit c || Ascii.eqb c "-".

(** A run of [main] rewritten into one of its shapes; [shape] is the lemma
    that lists them. *)
Ltac by_shape shape a en s :=
  let r := fresh "r" in
  let t := fresh "t" in
  let ls := fresh "ls" in
  let E := fresh "E" in
  let H := fresh "H" in
  let T := fresh "T" in
  destruct (shape a en s) as (r & t & ls & E & H);
  cbn zeta; rewrite E; cbn [fst snd Session.console];
  assert (T : new_steps s {| Session.log := (Session.log s ++ t)%list;
                             Session.console := (Session.console s ++ ls)%list |}
              = t)
    by (unfold new_steps; cbn [Session.log];
        rewrite skipn_app, skipn_all, Nat.sub_diag; reflexivity);
  rewrite ?T; clear T E.

(** * Properties *)

(** ** The two URL parsers *)

Lemma str_split_nonempty sep n s : str_split sep n s <> [].
Proof.
  revert n; induction s as [|c r IH]; intros n; simpl; [discriminate|].
  destruct (Ascii.eqb c sep).
  - destruct n; discriminate.
  - destruct (str_split sep n r); discriminate.
Qed.

Lemma str_split_no_sep sep n s :
  has_char sep s = false -> str_split sep n s = [s].
Proof.
  revert n; induction s as [|c r IH]; intros n H; simpl in *; [reflexivity|].
  apply orb_false_iff in H as [H1 H2]. rewrite H1, (IH n H2). reflexivity.
Qed.

Lemma str_split_sep_two sep n s :
  has_char sep s = true -> (String.length s <= n)%nat ->
  exists a b t, str_split sep n s = a :: b :: t.
Proof.
  revert n; induction s as [|c r IH]; intros n H L; simpl in *; [discriminate|].
  destruct (Ascii.eqb c sep) eqn:E.
  - destruct n as [|k]; [lia|].
    destruct (str_split sep k r) as [|h t] eqn:S; [now apply str_split_nonempty in S|].
    now exists EmptyString, h, t.
  - simpl in H. destruct (IH n H ltac:(lia)) as (a & b & t & ->).
    now exists (String c a), b, t.
Qed.

Lemma str_split_zero sep s : str_split sep 0 s = [s].
Proof.
  induction s as [|c r IH]; simpl; [reflexivity|].
  destruct (Ascii.eqb c sep); [reflexivity|]. now rewrite IH.
Qed.

Lemma str_split_one sep n s :
  (String.length s <= S n)%nat ->
  match str_split sep 1 s with
  | [a] => str_split sep (S n) s = [a] /\ has_char sep s = false
  | [a; b] => str_split sep (S n) s = a :: str_split sep n b
              /\ (String.length b <= n)%nat
  | _ => False
  end.
Proof.
  induction s as [|c r IH]; intros L; simpl in *; [split; reflexivity|].
  destruct (Ascii.eqb c sep) eqn:E.
  - rewrite str_split_zero. split; [reflexivity|lia].
  - specialize (IH ltac:(lia)).
    destruct (str_split sep 1 r) as [|a [|b [|x t]]]; try contradiction.
    + destruct IH as [-> H]. simpl. now split.
    + destruct IH as [-> H]. now split.
Qed.

Lemma lstrip_keeps blank c l :
  In c l -> blank c = false -> In c (lstrip blank l).
Proof.
  induction l as [|a l IH]; simpl; intros H S; [contradiction|].
  destruct (blank a) eqn:E.
  - destruct H as [->|H]; [congruence|auto].
  - exact H.
Qed.

Lemma strip_keeps blank c l :
  In c l -> blank c = false -> In c (strip blank l).
Proof.
  intros H S. unfold strip. apply -> in_rev. apply lstrip_keeps; [|exact S].
  apply -> in_rev. now apply lstrip_keeps.
Qed.

Lemma digits_rest_chars_bounded (n : nat) : forall l acc z c,
  (List.length l <= n)%nat ->
  digits_rest acc l = Some z -> In c l -> is_digit c = true \/ c = "_"%char.
Proof.
  induction n as [|n IH]; intros l acc z c L H I.
  - destruct l; [contradiction|simpl in L; lia].
  - destruct l as [|a r]; [contradiction|]. simpl in H, L.
    destruct (is_digit a) eqn:D.
    + destruct I as [<-|I]; [now left|]. eapply (IH r); eauto; lia.
    + destruct (Ascii.eqb a "_") eqn:U; [|discriminate].
      apply Ascii.eqb_eq in U. subst a.
      destruct r as [|d r']; [discriminate|].
      destruct (is_digit d) eqn:D2; [|discriminate].
      destruct I as [<-|[<-|I]]; [now right|now left|].
      eapply (IH r'); eauto. simpl in L; lia.
Qed.

Lemma digits_rest_chars acc l z c :
  digits_rest acc l = Some z -> In c l -> is_digit c = true \/ c = "_"%char.
Proof. apply (digits_rest_chars_bounded (List.length l)); lia. Qed.

Lemma digits_chars l z c :
  digits l = Some z -> In c l -> is_digit c = true \/ c = "_"%char.
Proof.
  destruct l as [|a r]; [discriminate|]. simpl.
  destruct (is_digit a) eqn:D; [|discriminate].
  intros H [<-|I]; [now left|]. eapply digits_rest_chars; eauto.
Qed.

Lemma in_list_ascii c s : has_char c s = true -> In c (list_ascii_of_string s).
Proof.
  induction s as [|a r IH]; simpl; [discriminate|].
  intros H. apply orb_true_iff in H as [H|H].
  - left. now apply Ascii.eqb_eq.
  - right. auto.
Qed.

Lemma int_literal_colon s : has_char ":" s = true -> int_literal s = None.
Proof.
  intros H. apply in_list_ascii in H.
  apply (strip_keeps is_int_space) in H; [|reflexivity].
  unfold int_literal.
  destruct (strip is_int_space (list_ascii_of_string s)) as [|c r]; [reflexivity|].
  assert (N : forall l, In ":"%char l -> digits l = None).
  { intros l I. destruct (digits l) eqn:E; [|reflexivity].
    destruct (digits_chars _ _ _ E I) as [D|D]; discriminate. }
  destruct (Ascii.eqb c "+") eqn:P.
  - apply Ascii.eqb_eq in P; subst. destruct H as [H|H]; [discriminate|]. auto.
  - destruct (Ascii.eqb c "-") eqn:Q.
    + apply Ascii.eqb_eq in Q; subst. destruct H as [H|H]; [discriminate|].
      now rewrite N.
    + auto.
Qed.

Lemma py_int_colon s : has_char ":" s = true -> exists e, py_int s = Raise e /\ exn_class e = ValueError.
Proof.
  intros H. unfold py_int. rewrite (int_literal_colon _ H). eauto.
Qed.

Lemma reraise_parsing_outcome {A} (r : result A) :
  match reraise_parsing r with
  | Ok a => r = Ok a
  | Raise e => exn_class e = ValueError /\ exists e', r = Raise e'
  end.
Proof. destruct r; simpl; eauto. Qed.

(** C9. The two [parse_jdbc_url] agree on every string: both raise
    [ValueError], or both return the same dictionary.  They differ only in
    [split(':')] against [split(':', 1)]; with a second colon the first
    fails to unpack three parts and the second fails in [int] on a port that
    contains a colon. *)
Theorem parse_jdbc_url_equivalent (jdbc_url : string) :
  same_outcome (SimulateData.parse_jdbc_url jdbc_url)
               (TestConnection.parse_jdbc_url jdbc_url).
Proof.
  unfold SimulateData.parse_jdbc_url, TestConnection.parse_jdbc_url.
  destruct (strip_scheme jdbc_url) as [u|e] eqn:S; simpl.
  2:{ unfold strip_scheme in S.
      destruct (negb _) in S; inversion S; subst; now split. }
  destruct (unpack2 (str_split "/" 1 u)) as [[host_port dbname]|e]; simpl;
    [|now split].
  unfold str_split_all.
  destruct (String.length host_port) as [|n] eqn:L.
  { destruct host_port; [|discriminate]. simpl. now split. }
  pose proof (str_split_one ":" n host_port ltac:(lia)) as H.
  destruct (str_split ":" 1 host_port) as [|a [|b [|x t]]]; try contradiction.
  - destruct H as [-> _]. simpl. now split.
  - destruct H as [-> Lb].
    destruct (has_char ":" b) eqn:C.
    + destruct (str_split_sep_two ":" n b C Lb) as (p & q & t & ->).
      destruct (py_int_colon b C) as (e & E & Ee). cbn. rewrite E. cbn. now split.
    + rewrite (str_split_no_sep _ _ _ C). simpl.
      destruct (py_int b); simpl; [reflexivity|now split].
Qed.

(** ** Rounding and the random source *)

Module Binary64Facts.
Import Binary64.

Lemma rne_div_le n d K : 0 < d -> n <= K * d -> rne_div n d <= K.
Proof.
  intros Hd H. unfold rne_div.
  pose proof (Z.div_mod n d ltac:(lia)) as E.
  pose proof (Z.mod_pos_bound n d Hd) as B.
  destruct (2 * (n mod d) <? d) eqn:C1; [nia|].
  apply Z.ltb_ge in C1.
  destruct (d <? 2 * (n mod d)) eqn:C2; [nia|].
  destruct (Z.even (n / d)); nia.
Qed.

Lemma rne_div_ge n d K : 0 < d -> K * d <= n -> K <= rne_div n d.
Proof.
  intros Hd H. unfold rne_div.
  pose proof (Z.div_mod n d ltac:(lia)) as E.
  pose proof (Z.mod_pos_bound n d Hd) as B.
  destruct (2 * (n mod d) <? d) eqn:C1; [nia|].
  destruct (d <? 2 * (n mod d)) eqn:C2; [nia|].
  destruct (Z.even (n / d)); nia.
Qed.

(** Below the midpoint between K and K + 1, rounding does not reach K + 1. *)
Lemma rne_div_below_half n d K :
  0 < d -> 2 * n < (2 * K + 1) * d -> rne_div n d <= K.
Proof.
  intros Hd H. unfold rne_div.
  pose proof (Z.div_mod n d ltac:(lia)) as E.
  pose proof (Z.mod_pos_bound n d Hd) as B.
  destruct (2 * (n mod d) <? d) eqn:C1; [nia|].
  apply Z.ltb_ge in C1.
  destruct (d <? 2 * (n mod d)) eqn:C2; [nia|].
  apply Z.ltb_ge in C2.
  destruct (Z.even (n / d)); nia.
Qed.

Lemma excess_bits_range X b :
  0 <= X < 2 ^ b -> 53 <= b -> 0 <= excess_bits X <= b - 53.
Proof.
  intros [H0 H1] Hb. unfold excess_bits.
  destruct (Z.eq_dec X 0) as [->|N]; [change (Z.log2 0) with 0; lia|].
  assert (Z.log2 X < b) by (apply Z.log2_lt_pow2; lia). lia.
Qed.

Lemma fl_between lo hi X :
  0 <= lo -> lo * scale <= X <= hi * scale -> hi < 2 ^ 53 ->
  lo * scale <= fl X <= hi * scale.
Proof.
  intros Hlo [H1 H2] Hhi. unfold fl, scale in *.
  assert (B : 0 <= X < 2 ^ 106).
  { change (2 ^ 106) with (2 ^ 53 * 2 ^ 53). nia. }
  pose proof (excess_bits_range X 106 B ltac:(lia)) as S.
  set (s := excess_bits X) in *.
  assert (P : 2 ^ 53 = 2 ^ (53 - s) * 2 ^ s).
  { rewrite <- Z.pow_add_r by lia. f_equal. lia. }
  assert (0 < 2 ^ s) by (apply Z.pow_pos_nonneg; lia).
  assert (rne_div X (2 ^ s) <= hi * 2 ^ (53 - s)).
  { apply rne_div_le; [lia|]. rewrite <- Z.mul_assoc, <- P. lia. }
  assert (lo * 2 ^ (53 - s) <= rne_div X (2 ^ s)).
  { apply rne_div_ge; [lia|]. rewrite <- Z.mul_assoc, <- P. lia. }
  rewrite P. nia.
Qed.

Lemma fmul_999_range X :
  0 <= X < scale -> 0 <= fmul_int 999 X <= 999 * scale.
Proof.
  intros H. unfold fmul_int.
  apply (fl_between 0 999); unfold scale in *; lia.
Qed.

Lemma uniform_range X :
  0 <= X < scale ->
  1 * scale <= fadd_int 1 (fmul_int 999 X) <= 1000 * scale.
Proof.
  intros H. pose proof (fmul_999_range X H). unfold fadd_int.
  apply (fl_between 1 1000); unfold scale in *; lia.
Qed.

Lemma round2_range lo hi U :
  lo * scale <= U <= hi * scale ->
  100 * lo <= round2 U <= 100 * hi.
Proof.
  intros H. unfold round2. split.
  - apply rne_div_ge; unfold scale in *; lia.
  - apply rne_div_le; unfold scale in *; lia.
Qed.

Lemma choice_index_range X :
  0 <= X < scale -> 0 <= floor (fmul_int 62 X) < 62.
Proof.
  intros H. unfold floor, fmul_int, fl, scale in *.
  assert (B : 0 <= 62 * X < 2 ^ 59) by (change (2 ^ 59) with (64 * 2 ^ 53); lia).
  pose proof (excess_bits_range _ 59 B ltac:(lia)) as S.
  set (s := excess_bits (62 * X)) in *.
  assert (P : 2 ^ 53 = 2 ^ (53 - s) * 2 ^ s).
  { rewrite <- Z.pow_add_r by lia. f_equal. lia. }
  assert (0 < 2 ^ s) by (apply Z.pow_pos_nonneg; lia).
  assert (2 ^ s <= 2 ^ 6) by (apply Z.pow_le_mono_r; lia).
  change (2 ^ 6) with 64 in *.
  assert (0 <= rne_div (62 * X) (2 ^ s)) by (apply rne_div_ge; lia).
  assert (rne_div (62 * X) (2 ^ s) <= 62 * 2 ^ (53 - s) - 1).
  { apply rne_div_below_half; [lia|]. nia. }
  split.
  - apply Z.div_pos; nia.
  - apply Z.div_lt_upper_bound; [lia|]. nia.
Qed.

End Binary64Facts.

Lemma random_range g : 0 <= fst (random g) < Binary64.scale.
Proof.
  unfold random, next_uint32. cbn [fst words pos].
  set (w1 := words g (pos g) mod 2 ^ 32).
  set (w2 := words g (S (pos g)) mod 2 ^ 32).
  assert (0 <= w1 < 2 ^ 32) by (apply Z.mod_pos_bound; lia).
  assert (0 <= w2 < 2 ^ 32) by (apply Z.mod_pos_bound; lia).
  rewrite !Z.shiftr_div_pow2 by lia.
  assert (0 <= w1 / 2 ^ 5 < 2 ^ 27).
  { split; [apply Z.div_pos; lia|apply Z.div_lt_upper_bound; lia]. }
  assert (0 <= w2 / 2 ^ 6 < 2 ^ 26).
  { split; [apply Z.div_pos; lia|apply Z.div_lt_upper_bound; lia]. }
  unfold Binary64.scale. lia.
Qed.

Lemma random_pos g : pos (snd (random g)) = (pos g + 2)%nat.
Proof. unfold random, next_uint32. cbn. lia. Qed.

Lemma alphabet_lookup (i : nat) :
  (i < 62)%nat ->
  exists c, String.get i (ascii_letters ++ string_digits) = Some c
            /\ is_alnum c = true.
Proof.
  intros H.
  assert (F : forallb (fun i =>
              match String.get i (ascii_letters ++ string_digits) with
              | Some c => is_alnum c
              | None => false
              end) (seq 0 62) = true) by reflexivity.
  rewrite forallb_forall in F.
  specialize (F i ltac:(apply in_seq; lia)).
  destruct (String.get i _) as [c|]; [eauto|discriminate].
Qed.

Lemma choices_alnum (k : nat) : forall g,
  exists cs g', choices (ascii_letters ++ string_digits) k g = (Ok cs, g')
    /\ List.length cs = k
    /\ Forall (fun c => is_alnum c = true) cs
    /\ pos g' = (pos g + 2 * k)%nat.
Proof.
  induction k as [|k IH]; intros g.
  - exists [], g. cbn. repeat split; [constructor|lia].
  - cbn [choices].
    pose proof (random_range g) as R. pose proof (random_pos g) as P.
    destruct (random g) as [r g1]. cbn [fst snd] in R, P.
    change (Z.of_nat (String.length (ascii_letters ++ string_digits))) with 62.
    pose proof (Binary64Facts.choice_index_range r R) as I.
    destruct (alphabet_lookup (Z.to_nat (Binary64.floor (Binary64.fmul_int 62 r)))
                ltac:(lia)) as (c & G & A).
    unfold str_index. rewrite G.
    destruct (IH g1) as (cs & g' & E & L & F & P').
    rewrite E. exists (c :: cs), g'. cbn.
    repeat split; [congruence|now constructor|lia].
Qed.

Lemma length_string_of_list l :
  String.length (string_of_list_ascii l) = List.length l.
Proof. induction l; cbn; congruence. Qed.

Lemma random_record_ok g :
  exists r g', random_record g = (Ok r, g') /\ record_ok r
               /\ pos g' = (pos g + 22)%nat.
Proof.
  unfold random_record, uniform_1_1000.
  pose proof (random_range g) as R. pose proof (random_pos g) as P.
  destruct (random g) as [x g1]. cbn [fst snd] in R, P.
  destruct (choices_alnum 10 g1) as (cs & g' & E & L & F & P').
  rewrite E. eexists _, g'. split; [reflexivity|]. split; [|lia].
  unfold record_ok. cbn [amount description].
  rewrite length_string_of_list, list_ascii_of_string_of_list_ascii.
  repeat split; try assumption.
  - pose proof (Binary64Facts.round2_range 1 1000 _ (Binary64Facts.uniform_range x R)). lia.
  - pose proof (Binary64Facts.round2_range 1 1000 _ (Binary64Facts.uniform_range x R)). lia.
Qed.

(** ** [generate_batches] *)

Lemma size_app_one batch r : size (batch ++ [r]) = size batch + 1.
Proof. unfold size. rewrite length_app. cbn. lia. Qed.

Lemma expected_sizes_small k b :
  0 <= k < b ->
  expected_sizes k b = if k =? 0 then [] else [k].
Proof.
  intros H. unfold expected_sizes.
  rewrite Z.div_small, Z.mod_small by lia. reflexivity.
Qed.

Lemma expected_sizes_full n b :
  0 < b -> 0 <= n ->
  expected_sizes (b + n) b = b :: expected_sizes n b.
Proof.
  intros Hb Hn. unfold expected_sizes.
  replace (b + n) with (n + 1 * b) by lia.
  rewrite Z.div_add, Z.mod_add by lia.
  replace (Z.to_nat (n / b + 1)) with (S (Z.to_nat (n / b))).
  - reflexivity.
  - pose proof (Z.div_pos n b Hn Hb). lia.
Qed.

(** The loop, entered with [size batch] rows pending and [n] rows to go. *)
Lemma generate_loop_sizes (n : nat) : forall i b batch g,
  0 < b -> size batch < b -> i mod b = (size batch + 1) mod b ->
  let G := generate_loop n i b batch g in
  ending G = None
  /\ map size (yielded G) = expected_sizes (size batch + Z.of_nat n) b
  /\ pos (rng_after G) = (pos g + 22 * n)%nat.
Proof.
  induction n as [|n IH]; intros i b batch g Hb Hk Hi; cbn zeta.
  - cbn [generate_loop ending yielded rng_after].
    rewrite Z.add_0_r, expected_sizes_small by (unfold size in *; lia).
    destruct batch; cbn; repeat split; lia.
  - cbn [generate_loop].
    destruct (random_record_ok g) as (r & g' & -> & _ & P).
    assert ((b =? 0) = false) as -> by lia.
    pose proof (size_app_one batch r) as S1.
    assert (0 <= size batch) by (unfold size; lia).
    destruct (i mod b =? 0) eqn:E.
    + apply Z.eqb_eq in E.
      assert (size batch + 1 = b).
      { rewrite E in Hi. symmetry in Hi.
        destruct (Z.eq_dec (size batch + 1) b) as [?|N]; [assumption|].
        rewrite Z.mod_small in Hi by lia. lia. }
      destruct (IH (i + 1) b [] g' Hb ltac:(cbn; lia)) as (A & B & C).
      { change (size []) with 0. rewrite Z.add_mod, E by lia.
        rewrite Z.add_0_l. apply Z.mod_mod. lia. }
      cbn [yield_first ending yielded rng_after map].
      repeat split; [assumption| |lia].
      rewrite B, S1. change (size []) with 0.
      replace (size batch + Z.of_nat (S n)) with (b + Z.of_nat n) by lia.
      rewrite expected_sizes_full by lia. rewrite Z.add_0_l. now rewrite H0.
    + apply Z.eqb_neq in E.
      assert (size batch + 1 < b).
      { destruct (Z.eq_dec (size batch + 1) b) as [Q|N]; [|lia].
        rewrite Q, Z.mod_same in Hi by lia. contradiction. }
      destruct (IH (i + 1) b (batch ++ [r])%list g' Hb ltac:(lia)) as (A & B & C).
      { rewrite S1. rewrite Z.add_mod, Hi by lia.
        rewrite <- Z.add_mod by lia. reflexivity. }
      repeat split; [assumption| |lia].
      rewrite B, S1. f_equal. lia.
Qed.

Lemma generate_batches_sizes n b g :
  0 < b ->
  ending (generate_batches n b g) = None
  /\ map size (yielded (generate_batches n b g)) = expected_sizes (Z.max 0 n) b.
Proof.
  intros Hb. unfold generate_batches.
  destruct (generate_loop_sizes (Z.to_nat n) 1 b [] g Hb ltac:(cbn; lia) eq_refl)
    as (A & B & _).
  split; [assumption|]. rewrite B. change (size []) with 0. f_equal. lia.
Qed.

Lemma expected_sizes_props n b :
  0 < n -> 0 < b ->
  let l := expected_sizes n b in
  let c := Z.of_nat (List.length l) in
  c = (n + b - 1) / b
  /\ b * (c - 1) < n <= b * c
  /\ fold_right Z.add 0 l = n
  /\ exists front, l = (front ++ [if n mod b =? 0 then b else n mod b])%list
       /\ Forall (fun s => s = b) front.
Proof.
  intros Hn Hb. cbn zeta. unfold expected_sizes.
  pose proof (Z.div_mod n b ltac:(lia)) as E.
  pose proof (Z.mod_pos_bound n b Hb) as M.
  assert (Q : 0 <= n / b) by (apply Z.div_pos; lia).
  assert (S : forall k, fold_right Z.add 0 (repeat b k) = b * Z.of_nat k).
  { induction k; cbn [repeat fold_right]; lia. }
  rewrite length_app, repeat_length, fold_right_app.
  destruct (n mod b =? 0) eqn:R.
  - apply Z.eqb_eq in R. cbn [List.length fold_right].
    assert (C : (n + b - 1) / b = n / b).
    { symmetry. apply (Z.div_unique _ _ _ (b - 1)); lia. }
    rewrite C.
    assert (0 < n / b) by nia.
    repeat split; try nia.
    + rewrite S. nia.
    + exists (repeat b (Z.to_nat (n / b - 1))). split.
      * rewrite app_nil_r.
        replace (Z.to_nat (n / b)) with (Z.to_nat (n / b - 1) + 1)%nat by lia.
        now rewrite repeat_app.
      * apply Forall_forall. intros x Hx. now apply repeat_spec in Hx.
  - apply Z.eqb_neq in R. cbn [List.length fold_right].
    assert (C : (n + b - 1) / b = n / b + 1).
    { symmetry. apply (Z.div_unique _ _ _ (n mod b - 1)); lia. }
    rewrite C.
    repeat split; try nia.
    + assert (G : forall l, fold_right Z.add (n mod b + 0) l
                            = fold_right Z.add 0 l + n mod b).
      { induction l as [|a l IHl]; cbn [fold_right]; lia. }
      rewrite G, S. nia.
    + exists (repeat b (Z.to_nat (n / b))). split; [reflexivity|].
      apply Forall_forall. intros x Hx. now apply repeat_spec in Hx.
Qed.

Lemma generate_loop_batches_ok (n : nat) : forall i b batch g,
  Forall record_ok batch ->
  Forall (fun batch => batch <> [] /\ Forall record_ok batch)
         (yielded (generate_loop n i b batch g)).
Proof.
  induction n as [|n IH]; intros i b batch g Hb; cbn [generate_loop].
  - destruct batch; cbn; constructor; [|constructor]. split; [discriminate|assumption].
  - destruct (random_record_ok g) as (r & g' & -> & Hr & _).
    assert (Forall record_ok (batch ++ [r])).
    { apply Forall_app. split; [assumption|]. now constructor. }
    destruct (b =? 0); [constructor|].
    destruct (i mod b =? 0).
    + cbn. constructor.
      * split; [|assumption]. destruct batch; discriminate.
      * apply IH. constructor.
    + now apply IH.
Qed.

(** ** [insert_batch_pool] *)

Lemma skipn_app_exact {A} (l t : list A) : skipn (List.length l) (l ++ t) = t.
Proof. induction l; cbn; auto. Qed.

Lemma new_events_app w w' t : log w' = (log w ++ t)%list -> new_events w w' = t.
Proof. intros E. unfold new_events. rewrite E. apply skipn_app_exact. Qed.

Lemma do_call_eq c en w :
  do_call c en w =
  let f := fault en (List.length (log w)) in
  (match f with Some e => Raise e | None => Ok tt end,
   set_log (log w ++ [{| made := c; failed := f |}])%list w).
Proof. reflexivity. Qed.

(** C3. Once [getconn] has handed out a connection, the calls of
    [insert_batch_pool] end with [putconn] on that connection, whether the
    insert went through or not; and when a step of the insert raised, the
    call just before [putconn] is [rollback] on that connection.  (When no
    step raised there is no rollback.) *)
Theorem insert_batch_pool_returns_connection table_name batch en w :
  fault en (List.length (log w)) = None ->
  let c := pool_conn en in
  exists steps p,
    new_events w (snd (insert_batch_pool table_name batch en w))
    = ({| made := Getconn; failed := None |} :: steps
       ++ [{| made := Putconn c; failed := p |}])%list
    /\ (insert_failed steps = true ->
        exists before q,
          steps = (before ++ [{| made := Rollback c; failed := q |}])%list)
    /\ (insert_failed steps = false ->
        Forall (fun ev => is_cleanup (made ev) = false) steps).
Proof.
  intros G c. unfold insert_batch_pool. unfold_M.
  rewrite do_call_eq. cbn zeta.
  cbn [log console gen conn_var futures fst snd set_log set_console set_conn_var].
  rewrite G.
  repeat step_call.
  all: match goal with
       | |- exists _ _, new_events ?w ?W = _ /\ _ =>
           let E := fresh "E" in
           eassert (E : new_events w W = _)
             by (apply new_events_app; cbn [log set_log];
                 rewrite <- ?app_assoc; cbn [app]; reflexivity);
           rewrite E; clear E
       end.
  all: pick_list ltac:(eexists; split; [reflexivity|]).
  all: cbn [insert_failed existsb is_insert_step made raised failed andb orb];
       split; intros Q; try discriminate Q.
  all: lazymatch goal with
       | |- Forall _ _ =>
           repeat first [apply Forall_nil | apply Forall_cons; [reflexivity|]]
       | |- _ =>
           pick_list ltac:(eexists; reflexivity)
       end.
Qed.

(** A worker whose [execute_values] raises. *)
Lemma insert_batch_pool_returns_connection_witness :
  fault statement_fails (List.length (log (start rng0))) = None
  /\ exists steps p,
       new_events (start rng0)
         (snd (insert_batch_pool "transactions_1" [] statement_fails (start rng0)))
       = ({| made := Getconn; failed := None |} :: steps
          ++ [{| made := Putconn (pool_conn statement_fails); failed := p |}])%list
       /\ (insert_failed steps = true ->
           exists before q,
             steps = (before ++ [{| made := Rollback (pool_conn statement_fails);
                                    failed := q |}])%list)
       /\ (insert_failed steps = false ->
           Forall (fun ev => is_cleanup (made ev) = false) steps).
Proof.
  split; [reflexivity|].
  exact (insert_batch_pool_returns_connection "transactions_1" []
           statement_fails (start rng0) eq_refl).
Defined.

(** C8, as amended. [insert_batch_pool] returns normally exactly when
    neither [rollback] nor [putconn] raises; otherwise the caller gets the
    exception of the last of these two calls that raised.  An exception of
    [getconn] or of a step of the insert (the cursor, [execute_values], the
    closing of the cursor, [commit]) is caught: the function prints the one
    line [Error inserting batch for <table>: <exception>] with that
    exception, and then either [getconn] was its only call, or its calls end
    with [rollback] and [putconn] on the connection, every call between the
    step that raised and the rollback having passed.  When none of them
    raises, nothing is printed and the calls are those of a clean insert:
    [getconn], cursor, [execute_values], close, [commit], [putconn]. *)
Theorem insert_batch_pool_contains_insert_errors table_name batch en w :
  let run := insert_batch_pool table_name batch en w in
  let trace := new_events w (snd run) in
  let c := pool_conn en in
  let passed x := {| made := x; failed := None |} in
  (cleanup_failed trace = false -> fst run = Ok tt)
  /\ (cleanup_failed trace = true ->
      exists before ev e after,
        trace = (before ++ ev :: after)%list
        /\ is_cleanup (made ev) = true /\ failed ev = Some e
        /\ Forall quiet after
        /\ fst run = Raise e)
  /\ (acquisition_failed trace || insert_failed trace = true ->
      exists ev e,
        failed ev = Some e
        /\ console (snd run)
           = (console w ++
              [Print (Cat ("Error inserting batch for " ++ table_name ++ ": ")
                          (str_exn e))])%list
        /\ ((trace = [ev] /\ made ev = Getconn)
            \/ (exists before between q p,
                  trace = (before ++ ev :: between
                           ++ [{| made := Rollback c; failed := q |};
                               {| made := Putconn c; failed := p |}])%list
                  /\ is_insert_step (made ev) = true
                  /\ Forall quiet between)))
  /\ (acquisition_failed trace || insert_failed trace = false ->
      console (snd run) = console w
      /\ exists p,
           trace = [passed Getconn; passed (Cursor c);
                    passed (ExecuteValues c (insert_sql_for table_name) batch);
                    passed (CursorClose c); passed (Commit c);
                    {| made := Putconn c; failed := p |}]).
Proof.
  cbn zeta. unfold insert_batch_pool. unfold_M.
  repeat step_call.
  all: match goal with
       | |- context [new_events ?w ?W] =>
           let E := fresh "E" in
           eassert (E : new_events w W = _)
             by (apply new_events_app; cbn [log set_log snd];
                 rewrite <- ?app_assoc; cbn [app]; reflexivity);
           rewrite E; clear E
       end.
  all: cbn [cleanup_failed insert_failed acquisition_failed existsb
            is_cleanup is_insert_step made raised failed andb orb fst snd is_ok
            console set_console set_log set_conn_var].
  all: split; [intros Q; first [reflexivity | discriminate Q]|].
  all: split;
    [intros Q;
     first [ discriminate Q
           | pick_longer ltac:(eexists _, _, _; split; [reflexivity|];
                               split; [reflexivity|]; split; [reflexivity|];
                               split; [solve [repeat first
                                                [apply Forall_nil
                                                |apply Forall_cons;
                                                 [exact eq_refl|]]]
                                      |reflexivity]) ]|].
  all: split;
    [intros Q;
     first
       [ discriminate Q
       | once (eexists _, _; (split; [|split; [reflexivity|]]);
               [ idtac
               | (left; split; reflexivity)
                 + (right;
                    (exists [] + eexists [_] + eexists [_; _]
                     + eexists [_; _; _] + eexists [_; _; _; _]);
                    (exists [] + eexists [_]); eexists _, _;
                    split; [reflexivity|]; split; [reflexivity|];
                    solve [repeat first [apply Forall_nil
                                        |apply Forall_cons; [exact eq_refl|]]]) ];
               reflexivity) ]|].
  all: intros Q; first [discriminate Q | split; [reflexivity|eexists; reflexivity]].
Qed.

(** C8, as stated, fails: [execute_values] raises, the handler calls
    [rollback], which raises in turn; that exception leaves the function. *)
Example rollback_error_escapes :
  fst (insert_batch_pool "transactions_1" [] link_lost (start rng0))
  = Raise connection_closed.
Proof. reflexivity. Qed.

(** A worker whose [execute_values] raises, one that loses its connection
    (so that [rollback] raises too), and one for which nothing fails. *)
Lemma insert_batch_pool_contains_insert_errors_witness :
  let fails := insert_batch_pool "transactions_1" [] statement_fails (start rng0) in
  let lost := insert_batch_pool "transactions_1" [] link_lost (start rng0) in
  let fine := insert_batch_pool "transactions_1" [] calm (start rng0) in
  (cleanup_failed (new_events (start rng0) (snd fails)) = false
   /\ fst fails = Ok tt)
  /\ (cleanup_failed (new_events (start rng0) (snd lost)) = true
      /\ exists e, fst lost = Raise e)
  /\ (acquisition_failed (new_events (start rng0) (snd fails))
      || insert_failed (new_events (start rng0) (snd fails)) = true
      /\ exists e,
           console (snd fails)
           = (console (start rng0) ++
              [Print (Cat ("Error inserting batch for " ++ "transactions_1" ++ ": ")
                          (str_exn e))])%list)
  /\ (acquisition_failed (new_events (start rng0) (snd fine))
      || insert_failed (new_events (start rng0) (snd fine)) = false
      /\ console (snd fine) = console (start rng0)).
Proof.
  cbn zeta.
  pose proof (insert_batch_pool_contains_insert_errors "transactions_1" []
                statement_fails (start rng0)) as (A & _ & C & _).
  pose proof (insert_batch_pool_contains_insert_errors "transactions_1" []
                link_lost (start rng0)) as (_ & B & _ & _).
  pose proof (insert_batch_pool_contains_insert_errors "transactions_1" []
                calm (start rng0)) as (_ & _ & _ & D).
  cbn zeta in *.
  split; [split; [reflexivity|exact (A eq_refl)]|].
  split.
  { split; [reflexivity|].
    destruct (B eq_refl) as (before & ev & e & after & _ & _ & _ & _ & R).
    now exists e. }
  split.
  { split; [reflexivity|].
    destruct (C eq_refl) as (ev & e & _ & P & _). now exists e. }
  split; [reflexivity|exact (proj1 (D eq_refl))].
Defined.

(** ** [insert_records] *)

Lemma rows_attempted_app l1 l2 :
  rows_attempted (l1 ++ l2) = (rows_attempted l1 + rows_attempted l2)%nat.
Proof. induction l1 as [|a l1 IH]; cbn; [reflexivity|]. rewrite IH. lia. Qed.

Lemma draw_record_run en w :
  exists r w', draw_record en w = (Ok r, w') /\ record_ok r
    /\ log w' = log w /\ pos (gen w') = (pos (gen w) + 22)%nat.
Proof.
  unfold draw_record.
  destruct (random_record_ok (gen w)) as (r & g' & -> & Hr & P).
  exists r, (set_gen g' w). auto.
Qed.

Lemma progress_update_run p n en w :
  exists w', progress_update p n en w = (Ok tt, w')
    /\ log w' = log w /\ gen w' = gen w.
Proof.
  unfold progress_update. destruct (progress_true p); cbn; eexists; repeat split.
Qed.

Lemma do_call_run c en w :
  exists f w', do_call c en w
               = (match f with Some e => Raise e | None => Ok tt end, w')
    /\ log w' = (log w ++ [{| made := c; failed := f |}])%list
    /\ gen w' = gen w.
Proof. rewrite do_call_eq. cbn zeta. eexists _, _. repeat split. Qed.

Lemma insert_loop_spec (n : nat) : forall i b c sql progress records en w,
  Forall record_ok records ->
  exists r w' trace,
    insert_loop n i b c sql progress records en w = (r, w')
    /\ log w' = (log w ++ trace)%list
    /\ (pos (gen w) <= pos (gen w'))%nat
    /\ loop_post b (List.length records) n r trace (outputs_drawn w w').
Proof.
  induction n as [|n IH]; intros i b c sql progress records en w Hrec.
  - exists (Ok records), w, []. cbn. rewrite app_nil_r. unfold loop_post, outputs_drawn.
    repeat split; auto; lia.
  - cbn [insert_loop]. unfold bind at 1.
    destruct (draw_record_run en w) as (r & w1 & -> & Hr & L1 & P1).
    assert (Hrec' : Forall record_ok (records ++ [r])).
    { apply Forall_app. split; [assumption|]. now constructor. }
    unfold bind at 1, py_mod.
    destruct (b =? 0) eqn:B0.
    { exists (Raise (Exn ZeroDivisionError (Native DivisionByZero))), w1, [].
      cbn. rewrite app_nil_r. repeat split; auto; [lia|]. left. split; [lia|auto]. }
    cbn [ret].
    destruct (i mod b =? 0).
    + unfold bind at 1.
      destruct (do_call_run (ExecuteValues c sql (records ++ [r])) en w1)
        as (f1 & w2 & -> & L2 & G2).
      destruct f1 as [e1|].
      { eexists _, w2, _. split; [reflexivity|]. split; [rewrite L2, L1; reflexivity|].
        split; [rewrite G2; lia|]. split.
        - constructor; [exact Hrec'|constructor].
        - right. split.
          + apply (Stopped e1 []); auto; repeat constructor.
          + exists 1%nat. unfold outputs_drawn. rewrite G2, P1. cbn.
            rewrite length_app. cbn. lia. }
      unfold bind at 1.
      destruct (do_call_run (Commit c) en w2) as (f2 & w3 & -> & L3 & G3).
      destruct f2 as [e2|].
      { eexists _, w3, _. split; [reflexivity|].
        split; [rewrite L3, L2, L1, <- app_assoc; reflexivity|].
        split; [rewrite G3, G2; lia|]. split.
        - constructor; [exact Hrec'|constructor; [constructor|constructor]].
        - right. split.
          + apply (Stopped e2 [_]); auto; repeat constructor.
          + exists 1%nat. unfold outputs_drawn. rewrite G3, G2, P1. cbn.
            rewrite length_app. cbn. lia. }
      unfold bind at 1.
      destruct (progress_update_run progress b en w3) as (w4 & -> & L4 & G4).
      destruct (IH (i + 1) b c sql progress [] en w4 ltac:(constructor))
        as (r' & w' & trace & E & L & P & Post).
      rewrite E. eexists r', w', (_ :: _ :: trace). split; [reflexivity|].
      split; [rewrite L, L4, L3, L2, L1, <- !app_assoc; reflexivity|].
      split; [rewrite G4, G3, G2 in P; lia|].
      destruct Post as [Rows Post]. split.
      { constructor; [exact Hrec'|constructor; [constructor|assumption]]. }
      unfold outputs_drawn in *. rewrite G4, G3, G2 in *.
      destruct r' as [rest|e].
      * destruct Post as (Q & D & R & Ok').
        split; [repeat constructor; assumption|].
        cbn in *. rewrite length_app. cbn. repeat split; auto; lia.
      * destruct Post as [(Hb & -> & He)|(St & k & D & R)]; [lia|].
        right. split.
        -- destruct St as [pre ev Hq Hf Hi].
           apply (Stopped e (_ :: _ :: pre)); auto;
           repeat constructor; assumption.
        -- exists (S k). cbn in *. rewrite length_app. cbn. lia.
    + destruct (IH (i + 1) b c sql progress (records ++ [r])%list en w1 Hrec')
        as (r' & w' & trace & E & L & P & Post).
      rewrite E. exists r', w', trace. split; [reflexivity|].
      split; [rewrite L, L1; reflexivity|]. split; [lia|].
      destruct Post as [Rows Post]. split; [assumption|].
      unfold outputs_drawn in *. rewrite length_app in Post. cbn in Post.
      destruct r' as [rest|e].
      * destruct Post as (Q & D & R & Ok'). repeat split; auto; lia.
      * destruct Post as [?|(St & k & D & R)]; [now left|].
        right. split; [assumption|]. exists (S k). lia.
Qed.

Lemma insert_body_spec c sql progress n b en w :
  exists r w' trace,
    insert_body c sql progress n b en w = (r, w')
    /\ log w' = (log w ++ trace)%list
    /\ Forall rows_ok trace
    /\ match r with
       | Ok _ => Forall quiet trace
       | Raise e =>
           Forall quiet trace
           \/ (stopped_at e trace
               /\ outputs_drawn w w' = (22 * rows_attempted trace)%nat)
       end.
Proof.
  unfold insert_body, bind at 1.
  destruct (insert_loop_spec (Z.to_nat n) 1 b c sql progress [] en w
              ltac:(constructor)) as (r & w1 & trace & -> & L & P & Rows & Post).
  destruct r as [rest|e].
  - destruct Post as (Q & D & R & Hrest).
    destruct rest as [|r0 rest].
    + exists (Ok tt), w1, trace. cbn. auto.
    + set (records := r0 :: rest) in *.
      unfold bind at 1.
      destruct (do_call_run (ExecuteValues c sql records) en w1)
        as (f1 & w2 & -> & L2 & G2).
      assert (Rows1 : Forall rows_ok
                (trace ++ [{| made := ExecuteValues c sql records; failed := f1 |}])).
      { apply Forall_app. split; [assumption|]. constructor; [|constructor].
        exact Hrest. }
      destruct f1 as [e1|].
      { eexists _, w2, _. split; [reflexivity|].
        split; [rewrite L2, L; rewrite <- app_assoc; reflexivity|].
        split; [assumption|]. right. split.
        - now apply Stopped.
        - unfold outputs_drawn in *. rewrite G2, rows_attempted_app. cbn in *. lia. }
      unfold bind at 1.
      destruct (do_call_run (Commit c) en w2) as (f2 & w3 & -> & L3 & G3).
      assert (Rows2 : Forall rows_ok
                ((trace ++ [{| made := ExecuteValues c sql records; failed := None |}])
                 ++ [{| made := Commit c; failed := f2 |}])).
      { apply Forall_app. split; [assumption|]. constructor; constructor. }
      destruct f2 as [e2|].
      { eexists _, w3, _. split; [reflexivity|].
        split; [rewrite L3, L2, L; rewrite <- !app_assoc; reflexivity|].
        split; [rewrite <- app_assoc in Rows2; exact Rows2|]. right. split.
        - change (trace ++ [?a] ++ [?b])%list with (trace ++ [a; b])%list.
          replace (trace ++ [_; _])%list with
            ((trace ++ [{| made := ExecuteValues c sql records; failed := None |}])
               ++ [{| made := Commit c; failed := Some e2 |}])%list
            by (rewrite <- app_assoc; reflexivity).
          apply Stopped; auto. apply Forall_app. split; [assumption|].
          now repeat constructor.
        - unfold outputs_drawn in *. rewrite G3, G2, !rows_attempted_app.
          cbn in *. lia. }
      destruct (progress_update_run progress (Z.of_nat (List.length records)) en w3)
        as (w4 & -> & L4 & G4).
      eexists _, w4, _. split; [reflexivity|].
      split; [rewrite L4, L3, L2, L; rewrite <- !app_assoc; reflexivity|].
      split; [rewrite <- app_assoc in Rows2; exact Rows2|].
      apply Forall_app. split; [assumption|]. now repeat constructor.
  - exists (Raise e), w1, trace. split; [reflexivity|].
    split; [assumption|]. split; [assumption|].
    destruct Post as [(_ & -> & _)|(St & k & D & R)]; [left; constructor|].
    right. split; [assumption|]. cbn in R. lia.
Qed.

Lemma make_progress_ret_run n en w :
  exists p w', make_progress (ret n) en w = (Ok p, w')
    /\ log w' = log w /\ gen w' = gen w.
Proof.
  unfold make_progress. destruct (has_tqdm en); cbn; eexists _, _; repeat split.
Qed.

Lemma progress_close_run p en w :
  exists w', progress_close p en w = (Ok tt, w')
    /\ log w' = log w /\ gen w' = gen w.
Proof.
  unfold progress_close. destruct (progress_true p); cbn; eexists; repeat split.
Qed.

(** What [insert_records] does with the driver, in all its runs. *)
Lemma insert_records_shape c table n b en w :
  exists r w' trace,
    insert_records c table n b en w = (r, w')
    /\ log w' = (log w ++ trace)%list
    /\ Forall rows_ok trace
    /\ ((exists f, trace = [{| made := Cursor c; failed := Some f |}])
        \/ exists body p,
             trace = ({| made := Cursor c; failed := None |} :: body
                      ++ [{| made := CursorClose c; failed := p |}])%list
             /\ (Forall quiet body
                 \/ exists e,
                      stopped_at e body
                      /\ r = Raise (match p with Some e' => e' | None => e end)
                      /\ outputs_drawn w w' = (22 * rows_attempted body)%nat)).
Proof.
  unfold insert_records. unfold bind at 1.
  destruct (make_progress_ret_run n en w) as (progress & w0 & -> & L0 & G0).
  unfold bind at 1, with_cursor, bind at 1.
  destruct (do_call_run (Cursor c) en w0) as (f & w1 & -> & L1 & G1).
  destruct f as [f|].
  { eexists _, _, [{| made := Cursor c; failed := Some f |}].
    split; [reflexivity|].
    split; [rewrite L1, L0; reflexivity|]. split.
    - constructor; constructor.
    - left. eauto. }
  unfold try_finally.
  destruct (insert_body_spec c (insert_sql_for table) progress n b en w1)
    as (r & w2 & body & -> & L2 & Rows & Post).
  destruct (do_call_run (CursorClose c) en w2) as (p & w3 & -> & L3 & G3).
  assert (LOG : log w3 = (log w ++ {| made := Cursor c; failed := None |} :: body
                            ++ [{| made := CursorClose c; failed := p |}])%list).
  { rewrite L3, L2, L1, L0, <- !app_assoc. reflexivity. }
  assert (ROWS : Forall rows_ok ({| made := Cursor c; failed := None |} :: body
                            ++ [{| made := CursorClose c; failed := p |}])).
  { constructor; [constructor|].
    apply Forall_app. split; [assumption|]. constructor; constructor. }
  assert (DR : outputs_drawn w w3 = outputs_drawn w1 w2).
  { unfold outputs_drawn. now rewrite G3, G1, G0. }
  destruct r as [[]|e].
  - (* the inserts went through *)
    destruct p as [e'|].
    + eexists _, _, _. split; [reflexivity|].
      split; [exact LOG|]. split; [exact ROWS|].
      right. exists body, (Some e'). split; [reflexivity|]. now left.
    + destruct (progress_close_run progress en w3) as (w4 & -> & L4 & G4).
      eexists _, _, _. split; [reflexivity|].
      split; [rewrite L4; exact LOG|]. split; [exact ROWS|].
      right. exists body, None. split; [reflexivity|]. now left.
  - destruct p as [e'|].
    + eexists _, _, _. split; [reflexivity|].
      split; [exact LOG|]. split; [exact ROWS|].
      right. exists body, (Some e'). split; [reflexivity|].
      destruct Post as [Q|(St & D)]; [now left|].
      right. exists e. rewrite DR. auto.
    + eexists _, _, _. split; [reflexivity|].
      split; [exact LOG|]. split; [exact ROWS|].
      right. exists body, None. split; [reflexivity|].
      destruct Post as [Q|(St & D)]; [now left|].
      right. exists e. rewrite DR. auto.
Qed.

(** The first call that raised is where a trace of quiet calls stops. *)
Lemma stop_unique (A B pre post : list event) (x ev : event) :
  (A ++ x :: B = pre ++ ev :: post)%list ->
  Forall quiet A -> raised ev = true -> is_insert_call (made ev) = true ->
  Forall (fun y => is_insert_call (made y) = false) B ->
  pre = A /\ ev = x /\ post = B.
Proof.
  revert pre. induction A as [|a A IH]; intros pre E QA Rev Iev NB.
  - destruct pre as [|y pre]; cbn in E; inversion E; subst; [auto|].
    exfalso. rewrite Forall_forall in NB.
    specialize (NB ev ltac:(apply in_or_app; right; now left)). congruence.
  - inversion QA as [|? ? Qa QA']; subst.
    destruct pre as [|y pre]; cbn in E; inversion E; subst.
    + unfold quiet in Qa. congruence.
    + destruct (IH pre H1 QA' Rev Iev NB) as (-> & -> & ->). auto.
Qed.

Lemma quiet_no_raise (l pre post : list event) ev :
  Forall quiet l -> l = (pre ++ ev :: post)%list -> raised ev = true -> False.
Proof.
  intros Q -> R. rewrite Forall_forall in Q.
  specialize (Q ev ltac:(apply in_or_app; right; now left)).
  unfold quiet in Q. congruence.
Qed.

(** C4. In [insert_records] an [execute_values] or [commit] that raises is
    the last insert call of the run: the calls before it all went through,
    the only call after it is the closing of the cursor, the caller gets an
    exception (the one raised, unless closing the cursor raises another), and
    the rows drawn from the random source are exactly those of the batches
    handed to the driver so far, so none of a later batch was generated. *)
Theorem insert_records_fail_fast c table n b en w pre ev post e :
  let run := insert_records c table n b en w in
  new_events w (snd run) = (pre ++ ev :: post)%list ->
  is_insert_call (made ev) = true ->
  failed ev = Some e ->
  (exists p, post = [{| made := CursorClose c; failed := p |}]
             /\ fst run = Raise (match p with Some e' => e' | None => e end))
  /\ Forall (fun x => raised x = false) pre
  /\ outputs_drawn w (snd run) = (22 * rows_attempted (pre ++ [ev]))%nat.
Proof.
  cbn zeta.
  destruct (insert_records_shape c table n b en w)
    as (r & w' & trace & -> & L & _ & Shape).
  cbn [fst snd]. rewrite (new_events_app _ _ _ L). intros E Iev Fev.
  assert (Rev : raised ev = true) by (unfold raised; now rewrite Fev).
  destruct Shape as [(f & ->)|(body & p & -> & [Q|(e0 & St & -> & D)])].
  - destruct pre as [|a [|? ?]]; cbn in E; inversion E; subst. cbn in Iev. discriminate Iev.
  - exfalso.
    assert (QQ : Forall quiet ({| made := Cursor c; failed := None |} :: body)).
    { constructor; [reflexivity|assumption]. }
    change (?a :: body ++ ?l)%list with ((a :: body) ++ l)%list in E.
    destruct (List.app_eq_app _ _ _ _ E) as (l & [[E1 E2]|[E1 E2]]).
    + destruct l as [|y l].
      * rewrite app_nil_r in E1. cbn in E2. inversion E2; subst.
        cbn in Iev. discriminate Iev.
      * cbn in E2. inversion E2; subst.
        eapply quiet_no_raise; [exact QQ|exact E1|assumption].
    + destruct l as [|y l].
      * cbn in E2. inversion E2; subst. cbn in Iev. discriminate Iev.
      * cbn in E2. inversion E2 as [[Ey El]]. destruct l; discriminate El.
  - destruct St as [A x QA Fx Ix].
    assert (E' : ((({| made := Cursor c; failed := None |} :: A) ++
                  x :: [{| made := CursorClose c; failed := p |}])
                 = pre ++ ev :: post)%list).
    { rewrite <- E. cbn. rewrite <- app_assoc. reflexivity. }
    assert (QA' : Forall quiet ({| made := Cursor c; failed := None |} :: A))
      by (constructor; [reflexivity|exact QA]).
    assert (NB : Forall (fun y => is_insert_call (made y) = false)
                   [{| made := CursorClose c; failed := p |}])
      by (constructor; [reflexivity|constructor]).
    destruct (stop_unique _ _ _ _ _ _ E' QA' Rev Iev NB) as (-> & -> & ->).
    rewrite Fev in Fx. inversion Fx; subst e0.
    split; [eauto|]. split; [exact QA'|].
    rewrite D. reflexivity.
Qed.

(** Five rows in twos, the first commit raising. *)
Lemma insert_records_fail_fast_witness :
  let run := insert_records 7%nat "transactions_1" 5 2 first_commit_fails (start rng0) in
  let trace := new_events (start rng0) (snd run) in
  let ev := {| made := Commit 7%nat; failed := Some statement_failed |} in
  trace = (firstn 2 trace ++ ev :: skipn 3 trace)%list
  /\ is_insert_call (made ev) = true
  /\ failed ev = Some statement_failed
  /\ (exists p, skipn 3 trace = [{| made := CursorClose 7%nat; failed := p |}]
                /\ fst run = Raise (match p with
                                    | Some e' => e'
                                    | None => statement_failed
                                    end))
  /\ Forall (fun x => raised x = false) (firstn 2 trace)
  /\ outputs_drawn (start rng0) (snd run)
     = (22 * rows_attempted (firstn 2 trace ++ [ev]))%nat.
Proof.
  cbn zeta.
  assert (H : new_events (start rng0)
                (snd (insert_records 7%nat "transactions_1" 5 2 first_commit_fails
                        (start rng0)))
              = (firstn 2 (new_events (start rng0)
                   (snd (insert_records 7%nat "transactions_1" 5 2
                           first_commit_fails (start rng0))))
                 ++ {| made := Commit 7%nat; failed := Some statement_failed |}
                 :: skipn 3 (new_events (start rng0)
                      (snd (insert_records 7%nat "transactions_1" 5 2
                              first_commit_fails (start rng0)))))%list)
    by (vm_compute; reflexivity).
  split; [exact H|]. split; [reflexivity|]. split; [reflexivity|].
  exact (insert_records_fail_fast 7%nat "transactions_1" 5 2 first_commit_fails
           (start rng0) _ _ _ statement_failed H eq_refl eq_refl).
Defined.

(** ** [insert_records_concurrent] *)

(** C1. A job of two batches (1000 rows, 500 a batch, two workers) in which
    [execute_values] raises for the first batch: [insert_batch_pool] prints
    and returns, so both futures hold [None], [future.result()] has nothing
    to raise and the driver returns normally, as in a run without failures. *)
Example failed_batch_goes_unreported :
  let run := insert_records_concurrent demo_params "transactions_1"
               1000 500 2 first_batch_fails (start rng0) in
  fst run = Ok tt
  /\ map (fun f => insert_failed (f_log f)) (futures (snd run)) = [true; false]
  /\ map f_result (futures (snd run)) = [Ok tt; Ok tt]
  /\ log (snd run)
     = [{| made := PoolCreate 1 2 demo_params; failed := None |};
        {| made := Closeall; failed := None |}].
Proof. vm_compute. repeat split. Qed.

(** ** [load_db_config] *)

Lemma dict_get_set_same k v d : dict_get k (dict_set k v d) = Some v.
Proof.
  induction d as [|[k' v'] d IH]; cbn.
  - now rewrite String.eqb_refl.
  - destruct (String.eqb k k') eqn:E; cbn; rewrite E; [reflexivity|exact IH].
Qed.

Lemma lookup_alias_ok alias config_data conn_info :
  lookup_alias alias config_data = Ok conn_info ->
  exists config, config_data = PDict config /\ dict_get alias config = Some conn_info.
Proof.
  unfold lookup_alias. destruct config_data as [| | | |s|l|d]; try discriminate.
  - destruct (index 0 alias s); discriminate.
  - destruct (existsb _ l); discriminate.
  - destruct (dict_get alias d) eqn:E; [|discriminate].
    intros H. inversion H; subst. eauto.
Qed.

Lemma load_db_config_with_sslmode parse fs config_file alias db_params :
  load_db_config_with parse fs config_file alias = Ok db_params ->
  exists config conn_info,
    fs config_file = Ok (PDict config)
    /\ dict_get alias config = Some (PDict conn_info)
    /\ dict_get "sslmode" db_params
       = Some (PStr (if truthy (dict_get_default conn_info "ssl" PNone)
                     then "require" else "disable")).
Proof.
  unfold load_db_config_with.
  destruct (fs config_file) as [config_data|]; [|discriminate]. cbn [rbind].
  destruct (lookup_alias alias config_data) as [conn_info|] eqn:LA; [|discriminate].
  apply lookup_alias_ok in LA as (config & -> & G). cbn [rbind].
  destruct (subscript conn_info "url") as [url|]; [|discriminate]. cbn [rbind].
  destruct (match url with PStr u => parse u | _ => _ end) as [params|];
    [|discriminate]. cbn [rbind].
  destruct conn_info as [| | | | | |ci]; try discriminate.
  intros H. inversion H; subst. exists config, ci.
  repeat split; [assumption|].
  rewrite dict_get_set_same. now destruct (truthy _).
Qed.

(** C7. When either [load_db_config] accepts a configuration, [sslmode] is
    ["require"] if the entry's [ssl] value is true (as a condition) and
    ["disable"] otherwise: ["require"] for JSON [true], ["disable"] for
    [false] and for a missing key; never anything else. *)
Theorem load_db_config_sslmode fs config_file alias db_params :
  SimulateData.load_db_config fs config_file alias = Ok db_params
  \/ TestConnection.load_db_config fs config_file alias = Ok db_params ->
  exists config conn_info,
    fs config_file = Ok (PDict config)
    /\ dict_get alias config = Some (PDict conn_info)
    /\ dict_get "sslmode" db_params
       = Some (PStr (if truthy (dict_get_default conn_info "ssl" PNone)
                     then "require" else "disable"))
    /\ (dict_get "ssl" conn_info = Some (PBool true) ->
        dict_get "sslmode" db_params = Some (PStr "require"))
    /\ (dict_get "ssl" conn_info = Some (PBool false)
        \/ dict_get "ssl" conn_info = None ->
        dict_get "sslmode" db_params = Some (PStr "disable"))
    /\ (dict_get "sslmode" db_params = Some (PStr "require")
        \/ dict_get "sslmode" db_params = Some (PStr "disable")).
Proof.
  intros H.
  assert (S : exists config conn_info,
    fs config_file = Ok (PDict config)
    /\ dict_get alias config = Some (PDict conn_info)
    /\ dict_get "sslmode" db_params
       = Some (PStr (if truthy (dict_get_default conn_info "ssl" PNone)
                     then "require" else "disable"))).
  { destruct H as [H|H]; eapply load_db_config_with_sslmode; exact H. }
  destruct S as (config & ci & F & A & S). exists config, ci.
  split; [assumption|]. split; [assumption|]. split; [assumption|].
  unfold dict_get_default in S. repeat split.
  - intros E. rewrite E in S. exact S.
  - intros [E|E]; rewrite E in S; exact S.
  - destruct (truthy _); auto.
Qed.

(** The configuration of the docstring, with [ssl] set. *)
Lemma load_db_config_sslmode_witness :
  (SimulateData.load_db_config demo_config "python-datasource.json" "PSQLDS1"
   = Ok [("host", PStr "localhost"); ("port", PInt 5432); ("dbname", PStr "bench");
         ("user", PStr "loader"); ("password", PStr "secret");
         ("sslmode", PStr "require")])
  /\ exists config conn_info,
       demo_config "python-datasource.json" = Ok (PDict config)
       /\ dict_get "PSQLDS1" config = Some (PDict conn_info)
       /\ dict_get "ssl" conn_info = Some (PBool true).
Proof.
  split; [reflexivity|].
  destruct (load_db_config_sslmode demo_config "python-datasource.json" "PSQLDS1"
              _ (or_introl eq_refl)) as (config & ci & F & A & _).
  exists config, ci. split; [exact F|]. split; [exact A|].
  inversion F; subst. cbn in A. inversion A; subst. reflexivity.
Defined.

(** ** Batches and rows *)

Lemma total_size_map batches :
  total_size batches = fold_right Z.add 0 (map size batches).
Proof.
  unfold total_size. induction batches as [|x l IH]; cbn; [reflexivity|].
  now rewrite IH.
Qed.

(** C2. For positive [total_records] and [batch_size], [generate_batches]
    ends without error after [ceil(total_records / batch_size)] batches of
    [total_records] rows in all; every batch but the last has [batch_size]
    rows, the last has [total_records mod batch_size] if that is not zero,
    else [batch_size]. *)
Theorem generate_batches_partition total_records batch_size g :
  0 < total_records -> 0 < batch_size ->
  let G := generate_batches total_records batch_size g in
  let count := Z.of_nat (List.length (yielded G)) in
  ending G = None
  /\ map size (yielded G) = expected_sizes total_records batch_size
  /\ count = (total_records + batch_size - 1) / batch_size
  /\ batch_size * (count - 1) < total_records <= batch_size * count
  /\ total_size (yielded G) = total_records
  /\ exists front last,
       yielded G = (front ++ [last])%list
       /\ Forall (fun batch => size batch = batch_size) front
       /\ size last = if total_records mod batch_size =? 0 then batch_size
                      else total_records mod batch_size.
Proof.
  intros Hn Hb. cbn zeta.
  destruct (generate_batches_sizes total_records batch_size g Hb) as (E & S).
  rewrite Z.max_r in S by lia.
  pose proof (expected_sizes_props total_records batch_size Hn Hb) as P.
  cbn zeta in P. rewrite <- S in P. rewrite length_map in P.
  destruct P as (C & B & T & front & F & A).
  split; [assumption|]. split; [assumption|]. split; [assumption|].
  split; [assumption|]. split.
  - rewrite total_size_map. exact T.
  - apply map_eq_app in F as (l1 & l2 & -> & M1 & M2).
    destruct l2 as [|last [|? ?]]; try discriminate M2.
    exists l1, last. split; [reflexivity|]. split.
    + subst front. rewrite Forall_map in A. exact A.
    + cbn in M2. now inversion M2.
Qed.

(** 25000 rows in batches of 10000: sizes 10000, 10000, 5000. *)
Lemma generate_batches_partition_witness :
  0 < 25000 /\ 0 < 10000
  /\ map size (yielded (generate_batches 25000 10000 rng0))
     = [10000; 10000; 5000].
Proof.
  split; [reflexivity|]. split; [reflexivity|].
  exact (proj1 (proj2 (generate_batches_partition 25000 10000 rng0
                         eq_refl eq_refl))).
Defined.

(** C10. For [num_records <= 0] the generator yields nothing and ends
    without error (whatever [batch_size] is, zero included); for a positive
    [batch_size] no batch it yields is empty. *)
Theorem generate_batches_never_empty num_records batch_size g :
  let G := generate_batches num_records batch_size g in
  (num_records <= 0 -> yielded G = [] /\ ending G = None)
  /\ (0 < batch_size -> Forall (fun batch => batch <> []) (yielded G)).
Proof.
  cbn zeta. split.
  - intros H. unfold generate_batches.
    replace (Z.to_nat num_records) with O by lia. split; reflexivity.
  - intros _. unfold generate_batches.
    eapply Forall_impl;
      [|apply (generate_loop_batches_ok _ 1 batch_size [] g); constructor].
    intros batch [H _]. exact H.
Qed.

(** No rows asked for (and a batch size of zero); five rows in twos. *)
Lemma generate_batches_never_empty_witness :
  (-3 <= 0 /\ yielded (generate_batches (-3) 0 rng0) = []
   /\ ending (generate_batches (-3) 0 rng0) = None)
  /\ (0 < 2 /\ Forall (fun batch => batch <> []) (yielded (generate_batches 5 2 rng0))).
Proof.
  split.
  - split; [discriminate|].
    apply (proj1 (generate_batches_never_empty (-3) 0 rng0)). discriminate.
  - split; [reflexivity|].
    apply (proj2 (generate_batches_never_empty 5 2 rng0)). reflexivity.
Defined.

(** C5. Every row of every batch of [generate_batches], and every row
    [insert_records] hands to [execute_values], has a description of ten
    characters of [A-Za-z0-9] and an amount of a whole number of hundredths
    between 1.00 and 1000.00. *)
Theorem generated_records_well_formed :
  (forall num_records batch_size g,
     Forall (Forall record_ok) (yielded (generate_batches num_records batch_size g)))
  /\ (forall c table_name num_records batch_size en w,
        Forall rows_ok
          (new_events w (snd (insert_records c table_name num_records batch_size en w)))).
Proof.
  split.
  - intros n b g. unfold generate_batches.
    eapply Forall_impl;
      [|apply (generate_loop_batches_ok _ 1 b [] g); constructor].
    intros batch [_ H]. exact H.
  - intros c table n b en w.
    destruct (insert_records_shape c table n b en w)
      as (r & w' & trace & -> & L & Rows & _).
    cbn [snd]. now rewrite (new_events_app _ _ _ L).
Qed.

(** * Further properties *)

(** ** More on the URL parsers *)

Lemma has_char_app c s t :
  has_char c (s ++ t) = has_char c s || has_char c t.
Proof.
  induction s as [|a s IH]; cbn; [reflexivity|]. now rewrite IH, orb_assoc.
Qed.

(** Splitting once at the first separator. *)
Lemma str_split_first sep a b :
  has_char sep a = false ->
  str_split sep 1 (a ++ String sep b) = [a; b].
Proof.
  induction a as [|c a IH]; cbn; intros H.
  - now rewrite Ascii.eqb_refl, str_split_zero.
  - apply orb_false_iff in H as [H1 H2]. rewrite H1, (IH H2). reflexivity.
Qed.

Lemma str_split_once_inv sep s a b :
  str_split sep 1 s = [a; b] ->
  s = a ++ String sep b /\ has_char sep a = false.
Proof.
  revert a. induction s as [|c s IH]; cbn; intros a H; [discriminate|].
  destruct (Ascii.eqb c sep) eqn:E.
  - rewrite str_split_zero in H. inversion H; subst.
    apply Ascii.eqb_eq in E. subst. now split.
  - destruct (str_split sep 1 s) as [|h [|h' [|? ?]]]; try discriminate.
    inversion H; subst. destruct (IH h eq_refl) as [-> N].
    cbn. now rewrite E.
Qed.

(** What [int] accepts is made of blanks, a sign, digits and underscores. *)
Lemma int_literal_chars s z c :
  int_literal s = Some z -> has_char c s = true ->
  is_int_space c = true \/ is_digit c = true
  \/ c = "_"%char \/ c = "+"%char \/ c = "-"%char.
Proof.
  intros H I.
  destruct (is_int_space c) eqn:S; [now left|]. right.
  apply in_list_ascii in I. apply (strip_keeps is_int_space) in I; [|exact S].
  unfold int_literal in H.
  destruct (strip is_int_space (list_ascii_of_string s)) as [|a r];
    [contradiction|].
  destruct (Ascii.eqb a "+") eqn:P.
  { apply Ascii.eqb_eq in P; subst. destruct I as [<-|I]; [auto|].
    destruct (digits_chars _ _ _ H I); auto. }
  destruct (Ascii.eqb a "-") eqn:Q.
  { apply Ascii.eqb_eq in Q; subst. destruct I as [<-|I]; [auto|].
    destruct (digits r) eqn:D; [|discriminate].
    destruct (digits_chars _ _ _ D I); auto. }
  destruct (digits_chars _ _ _ H I); auto.
Qed.

Lemma py_int_no_separator s z :
  py_int s = Ok z -> has_char ":" s = false /\ has_char "/" s = false.
Proof.
  unfold py_int. destruct (int_literal s) as [z'|] eqn:E; [|discriminate].
  intros _. split.
  - destruct (has_char ":" s) eqn:C; [|reflexivity].
    destruct (int_literal_chars s z' ":"%char E C) as [H|[H|[H|[H|H]]]];
      discriminate H.
  - destruct (has_char "/" s) eqn:C; [|reflexivity].
    destruct (int_literal_chars s z' "/"%char E C) as [H|[H|[H|[H|H]]]];
      discriminate H.
Qed.

Lemma startswith_app p s : startswith p (p ++ s) = true.
Proof.
  unfold startswith. induction p as [|c p IH]; cbn.
  - now destruct s.
  - destruct (ascii_dec c c) as [_|N]; [exact IH|now elim N].
Qed.

Lemma drop_chars_app p s : drop_chars (String.length p) (p ++ s) = s.
Proof. induction p as [|c p IH]; cbn; [reflexivity|exact IH]. Qed.

Lemma strip_scheme_postgresql rest :
  strip_scheme ("postgresql://" ++ rest) = Ok rest.
Proof.
  unfold strip_scheme.
  assert (startswith "jdbc:" ("postgresql://" ++ rest) = false) as ->
    by reflexivity.
  rewrite startswith_app. cbn [negb]. now rewrite drop_chars_app.
Qed.

Lemma strip_scheme_of (jdbc : bool) (rest : string) :
  strip_scheme ((if jdbc then "jdbc:" else "") ++ "postgresql://" ++ rest)
  = Ok rest.
Proof.
  destruct jdbc; [|apply strip_scheme_postgresql].
  unfold strip_scheme. rewrite startswith_app, drop_chars_app.
  apply strip_scheme_postgresql.
Qed.

Lemma str_app_assoc (a b c : string) : (a ++ b) ++ c = a ++ b ++ c.
Proof. induction a as [|x a IH]; cbn; [reflexivity|now rewrite IH]. Qed.

Lemma split_host_port host port dbname :
  has_char "/" host = false -> has_char "/" port = false ->
  str_split "/" 1 (host ++ ":" ++ port ++ "/" ++ dbname)
  = [host ++ ":" ++ port; dbname].
Proof.
  intros H P.
  replace (host ++ ":" ++ port ++ "/" ++ dbname)
    with ((host ++ ":" ++ port) ++ String "/" dbname).
  - apply str_split_first. rewrite has_char_app. cbn. now rewrite H, P.
  - rewrite !str_app_assoc. reflexivity.
Qed.

Lemma simulate_data_parses jdbc host port dbname p :
  has_char ":" host = false -> has_char "/" host = false ->
  py_int port = Ok p ->
  SimulateData.parse_jdbc_url (jdbc_url_of jdbc host port dbname)
  = Ok (url_params host p dbname).
Proof.
  intros Hc Hs Hp. destruct (py_int_no_separator _ _ Hp) as [Pc Ps].
  unfold SimulateData.parse_jdbc_url, jdbc_url_of.
  rewrite strip_scheme_of. cbn [rbind].
  rewrite (split_host_port host port dbname Hs Ps). cbn [unpack2 rbind].
  assert (S1 : str_split ":" 1 (host ++ ":" ++ port) = [host; port])
    by (apply (str_split_first ":" host port Hc)).
  unfold str_split_all.
  destruct (String.length (host ++ ":" ++ port)) as [|n] eqn:L.
  { destruct host; discriminate L. }
  pose proof (str_split_one ":" n (host ++ ":" ++ port) ltac:(lia)) as H.
  rewrite S1 in H. destruct H as [-> _].
  rewrite (str_split_no_sep _ _ _ Pc). cbn. rewrite Hp. reflexivity.
Qed.

Lemma test_connection_parses jdbc host port dbname p :
  has_char ":" host = false -> has_char "/" host = false ->
  py_int port = Ok p ->
  TestConnection.parse_jdbc_url (jdbc_url_of jdbc host port dbname)
  = Ok (url_params host p dbname).
Proof.
  intros Hc Hs Hp. destruct (py_int_no_separator _ _ Hp) as [Pc Ps].
  unfold TestConnection.parse_jdbc_url, jdbc_url_of.
  rewrite strip_scheme_of. cbn [rbind].
  rewrite (split_host_port host port dbname Hs Ps). cbn [unpack2 rbind].
  assert (S1 : str_split ":" 1 (host ++ ":" ++ port) = [host; port])
    by (apply (str_split_first ":" host port Hc)).
  rewrite S1. cbn. rewrite Hp. reflexivity.
Qed.

(** X1. A URL [[jdbc:]postgresql://host:port/dbname] whose host holds neither
    a colon nor a slash and whose port, of at most 4300 characters (so that
    [int] does not refuse it for its length), [int] reads as [p] is accepted
    by both [parse_jdbc_url]: each returns the host, [p] and the database
    name. *)
Theorem parse_jdbc_url_accepts jdbc host port dbname p :
  has_char ":" host = false -> has_char "/" host = false ->
  (String.length port <= 4300)%nat ->
  py_int port = Ok p ->
  SimulateData.parse_jdbc_url (jdbc_url_of jdbc host port dbname)
  = Ok (url_params host p dbname)
  /\ TestConnection.parse_jdbc_url (jdbc_url_of jdbc host port dbname)
     = Ok (url_params host p dbname).
Proof.
  intros Hc Hs _ Hp. split.
  - now apply simulate_data_parses.
  - now apply test_connection_parses.
Qed.

Lemma parse_jdbc_url_accepts_witness :
  has_char ":" "db.example.org" = false
  /\ has_char "/" "db.example.org" = false
  /\ (String.length " 5_432" <= 4300)%nat
  /\ py_int " 5_432" = Ok 5432
  /\ SimulateData.parse_jdbc_url
       (jdbc_url_of true "db.example.org" " 5_432" "sales/2024:q1")
     = Ok (url_params "db.example.org" 5432 "sales/2024:q1")
  /\ TestConnection.parse_jdbc_url
       (jdbc_url_of true "db.example.org" " 5_432" "sales/2024:q1")
     = Ok (url_params "db.example.org" 5432 "sales/2024:q1").
Proof.
  assert (L : (String.length " 5_432" <= 4300)%nat)
    by (apply Nat.leb_le; reflexivity).
  split; [reflexivity|]. split; [reflexivity|]. split; [exact L|].
  split; [reflexivity|].
  exact (parse_jdbc_url_accepts true "db.example.org" " 5_432" "sales/2024:q1"
           5432 eq_refl eq_refl L eq_refl).
Defined.

Lemma startswith_inv p s :
  startswith p s = true -> s = p ++ drop_chars (String.length p) s.
Proof.
  unfold startswith. revert s. induction p as [|c p IH]; intros s H; cbn.
  - reflexivity.
  - destruct s as [|d s]; cbn in H; [discriminate|].
    destruct (ascii_dec c d) as [->|]; [|discriminate].
    now rewrite <- (IH s H).
Qed.

Lemma strip_scheme_inv s u :
  strip_scheme s = Ok u ->
  exists jdbc : bool, s = (if jdbc then "jdbc:" else "") ++ "postgresql://" ++ u.
Proof.
  unfold strip_scheme. destruct (startswith "jdbc:" s) eqn:J.
  - destruct (startswith "postgresql://" _) eqn:P; [|discriminate].
    cbn [negb]. intros H. inversion H; subst. exists true.
    transitivity ("jdbc:" ++ drop_chars (String.length "jdbc:") s);
      [exact (startswith_inv _ _ J)|].
    apply (f_equal (String.append "jdbc:")). exact (startswith_inv _ _ P).
  - destruct (startswith "postgresql://" s) eqn:P; [|discriminate].
    cbn [negb]. intros H. inversion H; subst. exists false.
    now apply startswith_inv.
Qed.

Lemma strip_scheme_raises s e :
  strip_scheme s = Raise e -> e = Exn ValueError bad_scheme.
Proof.
  unfold strip_scheme. destruct (negb _); intros H; now inversion H.
Qed.

Lemma unpack2_ok {A} (l : list A) a b : unpack2 l = Ok (a, b) -> l = [a; b].
Proof.
  destruct l as [|x [|y [|z l]]]; cbn; intros H; try discriminate.
  now inversion H.
Qed.

Lemma reraise_parsing_cases {A} (r : result A) :
  (exists a, r = Ok a /\ reraise_parsing r = Ok a)
  \/ exists m, reraise_parsing r = Raise (Exn ValueError (bad_rest m)).
Proof. destruct r as [a|e]; cbn; eauto. Qed.

Lemma rbind_ok {A B} (r : result A) (k : A -> result B) b :
  rbind r k = Ok b -> exists a, r = Ok a /\ k a = Ok b.
Proof. destruct r; cbn; [eauto|discriminate]. Qed.

Lemma parsers_same_outcome (jdbc_url : string) :
  same_outcome (SimulateData.parse_jdbc_url jdbc_url)
               (TestConnection.parse_jdbc_url jdbc_url).
Proof.
  unfold SimulateData.parse_jdbc_url, TestConnection.parse_jdbc_url.
  destruct (strip_scheme jdbc_url) as [u|e] eqn:S; simpl.
  2:{ unfold strip_scheme in S.
      destruct (negb _) in S; inversion S; subst; now split. }
  destruct (unpack2 (str_split "/" 1 u)) as [[host_port dbname]|e]; simpl;
    [|now split].
  unfold str_split_all.
  destruct (String.length host_port) as [|n] eqn:L.
  { destruct host_port; [|discriminate]. simpl. now split. }
  pose proof (str_split_one ":" n host_port ltac:(lia)) as H.
  destruct (str_split ":" 1 host_port) as [|a [|b [|x t]]]; try contradiction.
  - destruct H as [-> _]. simpl. now split.
  - destruct H as [-> Lb].
    destruct (has_char ":" b) eqn:C.
    + destruct (str_split_sep_two ":" n b C Lb) as (p & q & t & ->).
      destruct (py_int_colon b C) as (e & E & Ee). cbn. rewrite E. cbn. now split.
    + rewrite (str_split_no_sep _ _ _ C). simpl.
      destruct (py_int b); simpl; [reflexivity|now split].
Qed.

Lemma test_connection_parse_inv jdbc_url d :
  TestConnection.parse_jdbc_url jdbc_url = Ok d ->
  exists jdbc host port dbname p,
    jdbc_url = jdbc_url_of jdbc host port dbname
    /\ has_char ":" host = false /\ has_char "/" host = false
    /\ py_int port = Ok p
    /\ d = url_params host p dbname.
Proof.
  intros T. unfold TestConnection.parse_jdbc_url in T.
  destruct (strip_scheme jdbc_url) as [u|e] eqn:S; [|discriminate T].
  destruct (strip_scheme_inv _ _ S) as [jdbc Hs]. cbn [rbind] in T.
  destruct (reraise_parsing_cases
              (rbind (unpack2 (str_split "/" 1 u)) (fun '(host_port, dbname) =>
               rbind (unpack2 (str_split ":" 1 host_port)) (fun '(host, port) =>
               rbind (py_int port) (fun port =>
               Ok [("host", PStr host); ("port", PInt port);
                   ("dbname", PStr dbname)])))))
    as [(d' & Inner & R)|(m2 & R)]; rewrite R in T; [|discriminate T].
  inversion T; subst d'.
  apply rbind_ok in Inner as ([host_port dbname] & U1 & Inner).
  apply rbind_ok in Inner as ([host port] & U2 & Inner).
  apply rbind_ok in Inner as (p & P & D).
  apply unpack2_ok in U1. apply str_split_once_inv in U1 as [Hu Nslash].
  apply unpack2_ok in U2. apply str_split_once_inv in U2 as [Hhp Ncolon].
  exists jdbc, host, port, dbname, p.
  split.
  { unfold jdbc_url_of. rewrite Hs, Hu, Hhp. rewrite !str_app_assoc. reflexivity. }
  split; [exact Ncolon|]. split.
  { rewrite Hhp, has_char_app in Nslash. now apply orb_false_iff in Nslash. }
  split; [exact P|]. now inversion D.
Qed.

Lemma parse_jdbc_url_inv jdbc_url d :
  SimulateData.parse_jdbc_url jdbc_url = Ok d
  \/ TestConnection.parse_jdbc_url jdbc_url = Ok d ->
  exists jdbc host port dbname p,
    jdbc_url = jdbc_url_of jdbc host port dbname
    /\ has_char ":" host = false /\ has_char "/" host = false
    /\ py_int port = Ok p
    /\ d = url_params host p dbname.
Proof.
  intros [H|H]; [|now apply test_connection_parse_inv].
  apply test_connection_parse_inv.
  pose proof (parsers_same_outcome jdbc_url) as EQ. rewrite H in EQ.
  destruct (TestConnection.parse_jdbc_url jdbc_url); cbn in EQ;
    [now subst|contradiction].
Qed.

Lemma parse_jdbc_url_raises jdbc_url e :
  SimulateData.parse_jdbc_url jdbc_url = Raise e
  \/ TestConnection.parse_jdbc_url jdbc_url = Raise e ->
  (strip_scheme jdbc_url = Raise e /\ e = Exn ValueError bad_scheme)
  \/ (exists u m, strip_scheme jdbc_url = Ok u /\ e = Exn ValueError (bad_rest m)).
Proof.
  unfold SimulateData.parse_jdbc_url, TestConnection.parse_jdbc_url.
  destruct (strip_scheme jdbc_url) as [u|e0] eqn:S; cbn [rbind].
  - intros H. right. exists u.
    destruct H as [H|H];
      match type of H with
      | reraise_parsing ?r = _ =>
          destruct (reraise_parsing_cases r) as [(d & _ & R)|(m & R)];
          rewrite R in H; [discriminate H|inversion H; eauto]
      end.
  - intros H. left. pose proof (strip_scheme_raises _ _ S) as E.
    destruct H as [H|H]; inversion H; subst; auto.
Qed.

(** X2. Every string falls in one of three cases, the same for both
    [parse_jdbc_url]: it has the accepted form and both return its parts;
    or it does not start with [postgresql://] (after an optional [jdbc:])
    and both raise [ValueError("Invalid JDBC URL format.")]; or both raise a
    [ValueError] whose message starts with ["Error parsing JDBC URL: "]. *)
Theorem parse_jdbc_url_outcome (jdbc_url : string) :
  (exists jdbc host port dbname p,
     jdbc_url = jdbc_url_of jdbc host port dbname
     /\ has_char ":" host = false /\ has_char "/" host = false
     /\ py_int port = Ok p
     /\ SimulateData.parse_jdbc_url jdbc_url = Ok (url_params host p dbname)
     /\ TestConnection.parse_jdbc_url jdbc_url = Ok (url_params host p dbname))
  \/ (SimulateData.parse_jdbc_url jdbc_url = Raise (Exn ValueError bad_scheme)
      /\ TestConnection.parse_jdbc_url jdbc_url = Raise (Exn ValueError bad_scheme))
  \/ (exists m1 m2,
        SimulateData.parse_jdbc_url jdbc_url = Raise (Exn ValueError (bad_rest m1))
        /\ TestConnection.parse_jdbc_url jdbc_url
           = Raise (Exn ValueError (bad_rest m2))).
Proof.
  pose proof (parsers_same_outcome jdbc_url) as EQ.
  destruct (TestConnection.parse_jdbc_url jdbc_url) as [d|e2] eqn:T.
  - left.
    destruct (test_connection_parse_inv _ _ T)
      as (jdbc & host & port & dbname & p & E & Nc & Ns & P & D).
    exists jdbc, host, port, dbname, p.
    split; [exact E|]. split; [exact Nc|]. split; [exact Ns|].
    split; [exact P|]. subst jdbc_url d.
    split; [now apply simulate_data_parses|reflexivity].
  - right.
    destruct (SimulateData.parse_jdbc_url jdbc_url) as [d|e1] eqn:S;
      [contradiction|].
    destruct (parse_jdbc_url_raises jdbc_url e1 (or_introl S))
      as [[S1 ->]|(u1 & m1 & S1 & ->)];
      destruct (parse_jdbc_url_raises jdbc_url e2 (or_intror T))
        as [[S2 ->]|(u2 & m2 & S2 & ->)];
      try (rewrite S1 in S2; discriminate S2).
    + left. now split.
    + right. now exists m1, m2.
Qed.

(** ** More on [load_db_config] *)

(** X3. What [load_db_config] (of either file) raises: the error of opening
    or reading the file, unchanged; [ValueError] with the message
    [Alias '<alias>' not found in config file.] when the file is a dictionary
    without the alias; [KeyError('url')] when the entry of the alias is a
    dictionary without [url]. *)
Theorem load_db_config_missing_entries fs config_file alias :
  (forall e, fs config_file = Raise e ->
     SimulateData.load_db_config fs config_file alias = Raise e
     /\ TestConnection.load_db_config fs config_file alias = Raise e)
  /\ (forall config,
        fs config_file = Ok (PDict config) -> dict_get alias config = None ->
        let e := Exn ValueError
                   (Lit ("Alias '" ++ alias ++ "' not found in config file.")) in
        SimulateData.load_db_config fs config_file alias = Raise e
        /\ TestConnection.load_db_config fs config_file alias = Raise e)
  /\ (forall config conn_info,
        fs config_file = Ok (PDict config) ->
        dict_get alias config = Some (PDict conn_info) ->
        dict_get "url" conn_info = None ->
        let e := Exn KeyError (Native (MissingKey "url")) in
        SimulateData.load_db_config fs config_file alias = Raise e
        /\ TestConnection.load_db_config fs config_file alias = Raise e).
Proof.
  unfold SimulateData.load_db_config, TestConnection.load_db_config,
    load_db_config_with.
  split; [|split].
  - intros e ->. now split.
  - intros config -> G. cbn. rewrite G. now split.
  - intros config ci -> G U. cbn. rewrite G. cbn. rewrite U. now split.
Qed.

Lemma load_db_config_missing_entries_witness :
  (only_one_file "missing.json" = Raise (Exn OSError (Lit "No such file or directory"))
   /\ SimulateData.load_db_config only_one_file "missing.json" "PSQLDS1"
      = Raise (Exn OSError (Lit "No such file or directory")))
  /\ (only_one_file "python-datasource.json" = Ok (PDict config_without_url)
      /\ dict_get "PSQLDS2" config_without_url = None
      /\ TestConnection.load_db_config only_one_file "python-datasource.json" "PSQLDS2"
         = Raise (Exn ValueError (Lit "Alias 'PSQLDS2' not found in config file.")))
  /\ (dict_get "PSQLDS1" config_without_url = Some (PDict entry_without_url)
      /\ dict_get "url" entry_without_url = None
      /\ SimulateData.load_db_config only_one_file "python-datasource.json" "PSQLDS1"
         = Raise (Exn KeyError (Native (MissingKey "url")))).
Proof.
  split; [|split].
  - split; [reflexivity|].
    exact (proj1 (proj1 (load_db_config_missing_entries only_one_file
                           "missing.json" "PSQLDS1") _ eq_refl)).
  - split; [reflexivity|]. split; [reflexivity|].
    exact (proj2 (proj1 (proj2 (load_db_config_missing_entries only_one_file
                    "python-datasource.json" "PSQLDS2"))
                    config_without_url eq_refl eq_refl)).
  - split; [reflexivity|]. split; [reflexivity|].
    exact (proj1 (proj2 (proj2 (load_db_config_missing_entries only_one_file
                    "python-datasource.json" "PSQLDS1"))
                    config_without_url entry_without_url eq_refl eq_refl eq_refl)).
Defined.

Lemma url_params_completed ci host p dbname :
  dict_set "sslmode"
    (if truthy (dict_get_default ci "ssl" PNone)
     then PStr "require" else PStr "disable")
    (dict_set "password" (dict_get_default ci "password" (PStr ""))
       (dict_set "user" (dict_get_default ci "username" (PStr ""))
          (url_params host p dbname)))
  = connection_params ci host p dbname.
Proof. reflexivity. Qed.

Lemma load_db_config_with_ok parse fs config_file alias db_params :
  load_db_config_with parse fs config_file alias = Ok db_params ->
  exists config conn_info url parsed,
    fs config_file = Ok (PDict config)
    /\ dict_get alias config = Some (PDict conn_info)
    /\ dict_get "url" conn_info = Some (PStr url)
    /\ parse url = Ok parsed
    /\ db_params
       = dict_set "sslmode"
           (if truthy (dict_get_default conn_info "ssl" PNone)
            then PStr "require" else PStr "disable")
           (dict_set "password" (dict_get_default conn_info "password" (PStr ""))
              (dict_set "user" (dict_get_default conn_info "username" (PStr ""))
                 parsed)).
Proof.
  unfold load_db_config_with.
  destruct (fs config_file) as [config_data|]; [|discriminate]. cbn [rbind].
  destruct (lookup_alias alias config_data) as [conn_info|] eqn:LA; [|discriminate].
  apply lookup_alias_ok in LA as (config & -> & G). cbn [rbind].
  destruct conn_info as [| | | | | |ci]; try discriminate.
  unfold subscript. destruct (dict_get "url" ci) as [url|] eqn:U; [|discriminate].
  cbn [rbind].
  destruct url as [| | | |u| |]; try discriminate.
  destruct (parse u) as [parsed|] eqn:P; [|discriminate]. cbn [rbind].
  intros H. inversion H; subst. exists config, ci, u, parsed. auto 6.
Qed.

(** X4. When either [load_db_config] returns, the file is a dictionary, the
    alias names a dictionary in it whose [url] is a string of the accepted
    form, and the result has exactly the keys [host], [port], [dbname],
    [user], [password], [sslmode], in this order, built from that entry. *)
Theorem load_db_config_result fs config_file alias db_params :
  SimulateData.load_db_config fs config_file alias = Ok db_params
  \/ TestConnection.load_db_config fs config_file alias = Ok db_params ->
  exists config conn_info jdbc host port dbname p,
    fs config_file = Ok (PDict config)
    /\ dict_get alias config = Some (PDict conn_info)
    /\ dict_get "url" conn_info = Some (PStr (jdbc_url_of jdbc host port dbname))
    /\ has_char ":" host = false /\ has_char "/" host = false
    /\ py_int port = Ok p
    /\ db_params = connection_params conn_info host p dbname.
Proof.
  intros H.
  assert (S : exists config conn_info url parsed,
    fs config_file = Ok (PDict config)
    /\ dict_get alias config = Some (PDict conn_info)
    /\ dict_get "url" conn_info = Some (PStr url)
    /\ (SimulateData.parse_jdbc_url url = Ok parsed
        \/ TestConnection.parse_jdbc_url url = Ok parsed)
    /\ db_params
       = dict_set "sslmode"
           (if truthy (dict_get_default conn_info "ssl" PNone)
            then PStr "require" else PStr "disable")
           (dict_set "password" (dict_get_default conn_info "password" (PStr ""))
              (dict_set "user" (dict_get_default conn_info "username" (PStr ""))
                 parsed))).
  { destruct H as [H|H]; apply load_db_config_with_ok in H
      as (config & ci & url & parsed & F & G & U & P & E);
      exists config, ci, url, parsed; auto 6. }
  destruct S as (config & ci & url & parsed & F & G & U & P & E).
  destruct (parse_jdbc_url_inv url parsed P)
    as (jdbc & host & port & dbname & p & -> & Nc & Ns & Pi & ->).
  exists config, ci, jdbc, host, port, dbname, p.
  repeat (split; [assumption|]).
  rewrite E, <- url_params_completed. reflexivity.
Qed.

Lemma load_db_config_result_witness :
  TestConnection.load_db_config demo_config "python-datasource.json" "PSQLDS1"
  = Ok [("host", PStr "localhost"); ("port", PInt 5432); ("dbname", PStr "bench");
        ("user", PStr "loader"); ("password", PStr "secret");
        ("sslmode", PStr "require")]
  /\ exists config conn_info jdbc host port dbname p,
       demo_config "python-datasource.json" = Ok (PDict config)
       /\ dict_get "PSQLDS1" config = Some (PDict conn_info)
       /\ dict_get "url" conn_info = Some (PStr (jdbc_url_of jdbc host port dbname))
       /\ has_char ":" host = false /\ has_char "/" host = false
       /\ py_int port = Ok p
       /\ [("host", PStr "localhost"); ("port", PInt 5432); ("dbname", PStr "bench");
           ("user", PStr "loader"); ("password", PStr "secret");
           ("sslmode", PStr "require")]
          = connection_params conn_info host p dbname.
Proof.
  split; [reflexivity|].
  exact (load_db_config_result demo_config "python-datasource.json" "PSQLDS1" _
           (or_intror eq_refl)).
Defined.

(** X5. The two [load_db_config] agree on every file system, file name and
    alias: they return the same parameters, or raise exceptions of the same
    class. *)
Theorem load_db_config_agree fs config_file alias :
  alike (SimulateData.load_db_config fs config_file alias)
        (TestConnection.load_db_config fs config_file alias).
Proof.
  unfold SimulateData.load_db_config, TestConnection.load_db_config,
    load_db_config_with.
  destruct (fs config_file) as [config_data|e]; cbn [rbind]; [|reflexivity].
  destruct (lookup_alias alias config_data) as [conn_info|e]; cbn [rbind];
    [|reflexivity].
  destruct (subscript conn_info "url") as [url|e]; cbn [rbind]; [|reflexivity].
  destruct url as [| | | |u| |]; cbn [rbind]; try reflexivity.
  pose proof (parsers_same_outcome u) as EQ.
  destruct (SimulateData.parse_jdbc_url u) as [d1|e1],
           (TestConnection.parse_jdbc_url u) as [d2|e2];
    cbn in EQ; try contradiction; cbn [rbind].
  - subst d2. destruct conn_info; reflexivity.
  - destruct EQ as [E1 E2]. cbn. congruence.
Qed.

(** ** More on [generate_batches] *)

Lemma draw_rows_succ n g :
  exists r g', random_record g = (Ok r, g')
    /\ draw_rows (S n) g = (r :: fst (draw_rows n g'), snd (draw_rows n g')).
Proof.
  destruct (random_record_ok g) as (r & g' & E & _).
  exists r, g'. split; [exact E|]. cbn [draw_rows]. rewrite E.
  now destruct (draw_rows n g').
Qed.

Lemma generate_loop_rows (n : nat) : forall i b batch g,
  b <> 0 ->
  let G := generate_loop n i b batch g in
  ending G = None
  /\ List.concat (yielded G) = (batch ++ fst (draw_rows n g))%list
  /\ rng_after G = snd (draw_rows n g).
Proof.
  induction n as [|n IH]; intros i b batch g Hb; cbn zeta.
  - cbn. destruct batch; cbn; rewrite ?app_nil_r; auto.
  - destruct (draw_rows_succ n g) as (r & g' & E & ->). cbn [fst snd].
    cbn [generate_loop]. rewrite E.
    assert ((b =? 0) = false) as -> by lia.
    destruct (i mod b =? 0).
    + destruct (IH (i + 1) b [] g' Hb) as (A & B & C).
      cbn [yield_first ending yielded rng_after List.concat].
      rewrite B. cbn [app]. rewrite <- app_assoc. auto.
    + destruct (IH (i + 1) b (batch ++ [r])%list g' Hb) as (A & B & C).
      rewrite B, <- app_assoc. auto.
Qed.

Lemma generate_batches_ending n b g :
  b <> 0 -> ending (generate_batches n b g) = None.
Proof.
  intros Hb. unfold generate_batches.
  now destruct (generate_loop_rows (Z.to_nat n) 1 b [] g Hb) as (E & _).
Qed.

(** X6. The rows [generate_batches] yields, batch after batch, do not depend
    on the batch size as long as it is not zero: they are the first
    [num_records] rows of the random source, and the source is left in the
    same state. *)
Theorem generate_batches_rows_independent_of_batch_size n b1 b2 g :
  b1 <> 0 -> b2 <> 0 ->
  List.concat (yielded (generate_batches n b1 g))
  = List.concat (yielded (generate_batches n b2 g))
  /\ List.concat (yielded (generate_batches n b1 g)) = fst (draw_rows (Z.to_nat n) g)
  /\ rng_after (generate_batches n b1 g) = rng_after (generate_batches n b2 g).
Proof.
  intros H1 H2. unfold generate_batches.
  destruct (generate_loop_rows (Z.to_nat n) 1 b1 [] g H1) as (_ & C1 & R1).
  destruct (generate_loop_rows (Z.to_nat n) 1 b2 [] g H2) as (_ & C2 & R2).
  rewrite C1, C2, R1, R2. auto.
Qed.

Lemma generate_batches_rows_independent_of_batch_size_witness :
  3 <> 0 /\ 10000 <> 0
  /\ List.concat (yielded (generate_batches 7 3 rng0))
     = List.concat (yielded (generate_batches 7 10000 rng0)).
Proof.
  split; [discriminate|]. split; [discriminate|].
  exact (proj1 (generate_batches_rows_independent_of_batch_size 7 3 10000 rng0
                  ltac:(discriminate) ltac:(discriminate))).
Defined.

Lemma generate_loop_by_zero k i batch g :
  let G := generate_loop (S k) i 0 batch g in
  yielded G = []
  /\ ending G = Some (Exn ZeroDivisionError (Native DivisionByZero))
  /\ pos (rng_after G) = (pos g + 22)%nat.
Proof.
  cbn zeta. cbn [generate_loop].
  destruct (random_record_ok g) as (r & g' & -> & _ & P).
  cbn. auto.
Qed.

(** X7. With [batch_size = 0] and a positive [num_records],
    [generate_batches] yields nothing: it draws one row and then raises
    [ZeroDivisionError] in [i % batch_size]. *)
Theorem generate_batches_zero_batch_size n g :
  0 < n ->
  let G := generate_batches n 0 g in
  yielded G = []
  /\ ending G = Some (Exn ZeroDivisionError (Native DivisionByZero))
  /\ pos (rng_after G) = (pos g + 22)%nat.
Proof.
  intros Hn. cbn zeta. unfold generate_batches.
  destruct (Z.to_nat n) as [|k] eqn:E; [lia|].
  apply generate_loop_by_zero.
Qed.

Lemma generate_batches_zero_batch_size_witness :
  0 < 1000
  /\ yielded (generate_batches 1000 0 rng0) = []
  /\ ending (generate_batches 1000 0 rng0)
     = Some (Exn ZeroDivisionError (Native DivisionByZero))
  /\ pos (rng_after (generate_batches 1000 0 rng0)) = (pos rng0 + 22)%nat.
Proof.
  split; [reflexivity|].
  exact (generate_batches_zero_batch_size 1000 rng0 eq_refl).
Defined.

Lemma mod_opp_zero i b : (i mod (- b) =? 0) = (i mod b =? 0).
Proof.
  destruct (Z.eq_dec b 0) as [->|Hb]; [reflexivity|].
  apply eq_true_iff_eq. rewrite !Z.eqb_eq.
  rewrite !Z.mod_divide by lia. apply Z.divide_opp_l.
Qed.

Lemma generate_loop_opp (n : nat) : forall i b batch g,
  generate_loop n i (- b) batch g = generate_loop n i b batch g.
Proof.
  induction n as [|n IH]; intros i b batch g; cbn [generate_loop];
    [reflexivity|].
  destruct (random_record g) as [[r|e] g']; [|reflexivity].
  assert ((- b =? 0) = (b =? 0)) as -> by (destruct b; reflexivity).
  rewrite mod_opp_zero, !IH. reflexivity.
Qed.

(** X8. [generate_batches] does the same for [-batch_size] as for
    [batch_size]: [i % b == 0] does not depend on the sign of [b]. *)
Theorem generate_batches_sign_of_batch_size n b g :
  generate_batches n (- b) g = generate_batches n b g.
Proof. apply generate_loop_opp. Qed.

(** ** More on [insert_records] *)

Lemma do_call_went c en w :
  fault_free en ->
  do_call c en w = (Ok tt, set_log (log w ++ [went c])%list w).
Proof. intros F. rewrite do_call_eq. cbn zeta. now rewrite F. Qed.

Lemma progress_update_keeps p n en w :
  exists w', progress_update p n en w = (Ok tt, w')
    /\ log w' = log w /\ gen w' = gen w.
Proof. apply progress_update_run. Qed.

(** Without faults the loop inserts the batches the generator yields in full,
    and returns the rows of the last, partial one. *)
Lemma insert_loop_follows_generator (n : nat) :
  forall i b c sql progress records en w,
  fault_free en -> b <> 0 ->
  let G := generate_loop n i b records (gen w) in
  exists rest w' full,
    insert_loop n i b c sql progress records en w = (Ok rest, w')
    /\ log w' = (log w ++ insert_events c sql full)%list
    /\ gen w' = rng_after G
    /\ yielded G = (full ++ match rest with [] => [] | _ => [rest] end)%list.
Proof.
  induction n as [|n IH]; intros i b c sql progress records en w F Hb; cbn zeta.
  - exists records, w, []. cbn. rewrite app_nil_r. auto.
  - cbn [insert_loop generate_loop]. unfold bind at 1, draw_record.
    destruct (random_record_ok (gen w)) as (r & g' & E & _). rewrite E.
    unfold bind at 1, py_mod.
    assert ((b =? 0) = false) as -> by lia. cbn [ret].
    destruct (i mod b =? 0).
    + unfold bind at 1. rewrite (do_call_went _ _ _ F).
      unfold bind at 1. rewrite (do_call_went _ _ _ F).
      unfold bind at 1.
      match goal with
      | |- context [progress_update ?p ?k ?e ?w0] =>
          destruct (progress_update_keeps p k e w0) as (w3 & -> & L3 & G3)
      end.
      destruct (IH (i + 1) b c sql progress [] en w3 F Hb)
        as (rest & w' & full & -> & L & G & Y).
      exists rest, w', ((records ++ [r])%list :: full).
      split; [reflexivity|]. rewrite G3 in *. cbn [gen set_log set_gen] in *.
      split; [|split].
      * rewrite L, L3. cbn [log set_log set_gen insert_events flat_map].
        rewrite <- !app_assoc. reflexivity.
      * exact G.
      * cbn [yield_first yielded]. rewrite Y. reflexivity.
    + destruct (IH (i + 1) b c sql progress (records ++ [r])%list en
                  (set_gen g' w) F Hb)
        as (rest & w' & full & -> & L & G & Y).
      exists rest, w', full. auto.
Qed.

Lemma insert_records_fault_free c table n b en w :
  fault_free en -> b <> 0 ->
  let G := generate_batches n b (gen w) in
  exists w',
    insert_records c table n b en w = (Ok tt, w')
    /\ log w'
       = (log w ++ went (Cursor c)
          :: insert_events c (insert_sql_for table) (yielded G)
          ++ [went (CursorClose c)])%list
    /\ gen w' = rng_after G.
Proof.
  intros F Hb. cbn zeta. unfold insert_records. unfold bind at 1.
  destruct (make_progress_ret_run n en w) as (progress & w0 & -> & L0 & G0).
  unfold bind at 1, with_cursor, bind at 1.
  rewrite (do_call_went _ _ _ F). unfold try_finally, insert_body, bind at 1.
  match goal with
  | |- context [insert_loop ?k 1 b c ?sql progress [] en ?w1] =>
      destruct (insert_loop_follows_generator k 1 b c sql progress [] en w1 F Hb)
        as (rest & w2 & full & -> & L2 & G2 & Y)
  end.
  cbn [gen log set_log] in *. rewrite G0 in *. unfold generate_batches.
  destruct rest as [|r0 rest].
  - cbn [ret]. rewrite (do_call_went _ _ _ F).
    destruct (progress_close_run progress en
                (set_log (log w2 ++ [went (CursorClose c)])%list w2))
      as (w4 & -> & L4 & G4).
    exists w4. split; [reflexivity|]. split.
    + rewrite L4. cbn [log set_log].
      rewrite L2, L0, Y, app_nil_r, <- !app_assoc. reflexivity.
    + rewrite G4. cbn [gen set_log]. exact G2.
  - unfold bind at 1. rewrite (do_call_went _ _ _ F).
    unfold bind at 1. rewrite (do_call_went _ _ _ F).
    match goal with
    | |- context [progress_update ?p ?k ?e ?w0] =>
        destruct (progress_update_keeps p k e w0) as (w3 & -> & L3 & G3)
    end.
    rewrite (do_call_went _ _ _ F).
    match goal with
    | |- context [progress_close ?p ?e ?w0] =>
        destruct (progress_close_run p e w0) as (w4 & -> & L4 & G4)
    end.
    exists w4. split; [reflexivity|]. split.
    + rewrite L4. cbn [log set_log]. rewrite L3.
      cbn [log set_log]. rewrite L2, L0, Y. unfold insert_events.
      rewrite flat_map_app. cbn [flat_map]. rewrite <- !app_assoc. reflexivity.
    + rewrite G4. cbn [gen set_log]. rewrite G3. cbn [gen set_log]. exact G2.
Qed.

(** X9. When no call fails and [batch_size] is not zero, [insert_records]
    returns normally and its calls are: the cursor, then for each batch that
    [generate_batches] yields for the same arguments and random source one
    [execute_values] with that batch and one [commit], then the closing of
    the cursor; the random source is left as [generate_batches] leaves it. *)
Theorem insert_records_inserts_the_generated_batches c table n b en w :
  fault_free en -> b <> 0 ->
  let G := generate_batches n b (gen w) in
  let run := insert_records c table n b en w in
  fst run = Ok tt
  /\ new_events w (snd run)
     = (went (Cursor c) :: insert_events c (insert_sql_for table) (yielded G)
        ++ [went (CursorClose c)])%list
  /\ gen (snd run) = rng_after G.
Proof.
  intros F Hb. cbn zeta.
  destruct (insert_records_fault_free c table n b en w F Hb) as (w' & -> & L & G).
  cbn [fst snd]. split; [reflexivity|]. split; [|exact G].
  now apply new_events_app.
Qed.

Lemma calm_fault_free : fault_free calm.
Proof. intros k. reflexivity. Defined.

Lemma insert_records_inserts_the_generated_batches_witness :
  fault_free calm /\ 2 <> 0
  /\ fst (insert_records 7%nat "transactions_1" 5 2 calm (start rng0)) = Ok tt
  /\ new_events (start rng0)
       (snd (insert_records 7%nat "transactions_1" 5 2 calm (start rng0)))
     = (went (Cursor 7%nat)
        :: insert_events 7%nat (insert_sql_for "transactions_1")
             (yielded (generate_batches 5 2 (gen (start rng0))))
        ++ [went (CursorClose 7%nat)])%list
  /\ gen (snd (insert_records 7%nat "transactions_1" 5 2 calm (start rng0)))
     = rng_after (generate_batches 5 2 (gen (start rng0))).
Proof.
  split; [exact calm_fault_free|]. split; [discriminate|].
  exact (insert_records_inserts_the_generated_batches 7%nat "transactions_1" 5 2
           calm (start rng0) calm_fault_free ltac:(discriminate)).
Defined.

(** X10. With [batch_size = 0] and a positive [num_records], [insert_records]
    raises [ZeroDivisionError] after drawing one row: it opened and closed
    the cursor and inserted nothing. *)
Theorem insert_records_zero_batch_size c table n en w :
  fault_free en -> 0 < n ->
  let run := insert_records c table n 0 en w in
  fst run = Raise (Exn ZeroDivisionError (Native DivisionByZero))
  /\ new_events w (snd run) = [went (Cursor c); went (CursorClose c)]
  /\ outputs_drawn w (snd run) = 22%nat.
Proof.
  intros F Hn.
  assert (E : exists w',
             insert_records c table n 0 en w
             = (Raise (Exn ZeroDivisionError (Native DivisionByZero)), w')
             /\ log w' = (log w ++ [went (Cursor c); went (CursorClose c)])%list
             /\ pos (gen w') = (pos (gen w) + 22)%nat).
  { unfold insert_records. unfold bind at 1.
    destruct (make_progress_ret_run n en w) as (progress & w0 & -> & L0 & G0).
    unfold bind at 1, with_cursor, bind at 1.
    rewrite (do_call_went _ _ _ F). unfold try_finally, insert_body, bind at 1.
    destruct (Z.to_nat n) as [|k] eqn:K; [lia|].
    cbn [insert_loop]. unfold bind at 1.
    match goal with
    | |- context [draw_record en ?w1] =>
        destruct (draw_record_run en w1) as (r & w2 & -> & _ & L2 & P2)
    end.
    unfold bind at 1, py_mod. cbn [Z.eqb raise].
    rewrite (do_call_went _ _ _ F).
    eexists. split; [reflexivity|]. cbn [log gen set_log] in *.
    split; [rewrite L2, L0, <- app_assoc; reflexivity|].
    rewrite P2, G0. reflexivity. }
  destruct E as (w' & E & L & P). cbn zeta. rewrite E. cbn [fst snd].
  split; [reflexivity|]. split; [now apply new_events_app|].
  unfold outputs_drawn. lia.
Qed.

Lemma insert_records_zero_batch_size_witness :
  fault_free calm /\ 0 < 1000
  /\ fst (insert_records 7%nat "transactions_1" 1000 0 calm (start rng0))
     = Raise (Exn ZeroDivisionError (Native DivisionByZero))
  /\ new_events (start rng0)
       (snd (insert_records 7%nat "transactions_1" 1000 0 calm (start rng0)))
     = [went (Cursor 7%nat); went (CursorClose 7%nat)]
  /\ outputs_drawn (start rng0)
       (snd (insert_records 7%nat "transactions_1" 1000 0 calm (start rng0)))
     = 22%nat.
Proof.
  split; [exact calm_fault_free|]. split; [reflexivity|].
  exact (insert_records_zero_batch_size 7%nat "transactions_1" 1000 calm
           (start rng0) calm_fault_free eq_refl).
Defined.

(** ** More on [insert_batch_pool] *)

(** X11. When [getconn] raises, [insert_batch_pool] prints the error and
    returns normally; [getconn] is its only call: no rollback, no
    [putconn]. *)
Theorem insert_batch_pool_without_connection table_name batch en w e :
  fault en (List.length (log w)) = Some e ->
  let run := insert_batch_pool table_name batch en w in
  fst run = Ok tt
  /\ new_events w (snd run) = [{| made := Getconn; failed := Some e |}]
  /\ console (snd run)
     = (console w ++
        [Print (Cat ("Error inserting batch for " ++ table_name ++ ": ")
                    (str_exn e))])%list.
Proof.
  intros G. cbn zeta. unfold insert_batch_pool. unfold_M.
  rewrite !do_call_eq. cbn zeta.
  cbn [log console gen conn_var futures fst snd set_log set_console set_conn_var].
  rewrite G.
  cbn [log console gen conn_var futures fst snd set_log set_console set_conn_var].
  split; [reflexivity|]. split; [|reflexivity].
  now apply new_events_app.
Qed.

Lemma insert_batch_pool_without_connection_witness :
  fault pool_exhausted (List.length (log (start rng0))) = Some no_connection
  /\ fst (insert_batch_pool "transactions_1" [] pool_exhausted (start rng0)) = Ok tt
  /\ new_events (start rng0)
       (snd (insert_batch_pool "transactions_1" [] pool_exhausted (start rng0)))
     = [{| made := Getconn; failed := Some no_connection |}]
  /\ console (snd (insert_batch_pool "transactions_1" [] pool_exhausted (start rng0)))
     = (console (start rng0) ++
        [Print (Cat ("Error inserting batch for " ++ "transactions_1" ++ ": ")
                    (str_exn no_connection))])%list.
Proof.
  split; [reflexivity|].
  exact (insert_batch_pool_without_connection "transactions_1" [] pool_exhausted
           (start rng0) no_connection eq_refl).
Defined.

(** X12. In [insert_batch_pool] a commit goes through only after [getconn],
    the cursor, [execute_values] with the batch and the closing of the cursor
    went through, and then [putconn] is the only call after it and decides
    the result; without such a commit, either [getconn] failed or the
    connection was rolled back; a run never has both a commit that went
    through and a rollback. *)
Theorem insert_batch_pool_commits_or_rolls_back table_name batch en w :
  let run := insert_batch_pool table_name batch en w in
  let trace := new_events w (snd run) in
  let c := pool_conn en in
  (committed trace = true ->
   exists p,
     trace = [went Getconn; went (Cursor c);
              went (ExecuteValues c (insert_sql_for table_name) batch);
              went (CursorClose c); went (Commit c);
              {| made := Putconn c; failed := p |}]
     /\ fst run = match p with Some e => Raise e | None => Ok tt end)
  /\ (committed trace = false ->
      acquisition_failed trace = true \/ rolled_back trace = true)
  /\ (rolled_back trace = true -> committed trace = false).
Proof.
  cbn zeta. unfold insert_batch_pool. unfold_M.
  repeat step_call.
  all: match goal with
       | |- context [new_events ?w ?W] =>
           let E := fresh "E" in
           eassert (E : new_events w W = _)
             by (apply new_events_app; cbn [log set_log snd];
                 rewrite <- ?app_assoc; cbn [app]; reflexivity);
           rewrite E; clear E
       end.
  all: cbn [committed rolled_back acquisition_failed existsb made raised failed
            negb orb andb fst snd].
  all: split; [intros Q; try discriminate Q; eexists; split; reflexivity|].
  all: split; [intros Q; try discriminate Q; auto|].
  all: intros Q; try discriminate Q; reflexivity.
Qed.

Lemma insert_batch_pool_commits_or_rolls_back_witness :
  committed (new_events (start rng0)
               (snd (insert_batch_pool "transactions_1" [] calm (start rng0))))
  = true
  /\ exists p,
       new_events (start rng0)
         (snd (insert_batch_pool "transactions_1" [] calm (start rng0)))
       = [went Getconn; went (Cursor (pool_conn calm));
          went (ExecuteValues (pool_conn calm)
                  (insert_sql_for "transactions_1") []);
          went (CursorClose (pool_conn calm)); went (Commit (pool_conn calm));
          {| made := Putconn (pool_conn calm); failed := p |}]
       /\ fst (insert_batch_pool "transactions_1" [] calm (start rng0))
          = match p with Some e => Raise e | None => Ok tt end.
Proof.
  split; [reflexivity|].
  exact (proj1 (insert_batch_pool_commits_or_rolls_back "transactions_1" []
                  calm (start rng0)) eq_refl).
Defined.

(** ** More on [insert_records_concurrent] *)

Lemma submit_eq table batch en w :
  submit table batch en w
  = (Ok tt,
     set_futures
       (futures w ++ [task_run table en (gen w) (List.length (futures w)) batch])%list
       w).
Proof.
  unfold submit, task_run. change (worker_start w) with (start (gen w)).
  now destruct (insert_batch_pool _ _ _ _).
Qed.

Lemma progress_update_frame p n en w :
  exists w', progress_update p n en w = (Ok tt, w')
    /\ log w' = log w /\ gen w' = gen w /\ futures w' = futures w.
Proof.
  unfold progress_update. destruct (progress_true p); cbn; eexists; repeat split.
Qed.

Lemma progress_close_frame p en w :
  exists w', progress_close p en w = (Ok tt, w')
    /\ log w' = log w /\ gen w' = gen w /\ futures w' = futures w.
Proof.
  unfold progress_close. destruct (progress_true p); cbn; eexists; repeat split.
Qed.

Lemma submit_each_run table progress batches : forall en w,
  exists w',
    submit_each table progress batches en w = (Ok tt, w')
    /\ futures w'
       = (futures w
          ++ tasks_from table en (gen w) (List.length (futures w)) batches)%list
    /\ log w' = log w /\ gen w' = gen w.
Proof.
  induction batches as [|batch rest IH]; intros en w.
  - exists w. cbn. rewrite app_nil_r. auto.
  - cbn [submit_each]. unfold bind at 1. rewrite submit_eq.
    unfold bind at 1.
    match goal with
    | |- context [progress_update ?p ?k ?e ?w0] =>
        destruct (progress_update_frame p k e w0) as (w1 & -> & L1 & G1 & F1)
    end.
    destruct (IH en w1) as (w' & -> & F & L & G).
    exists w'. split; [reflexivity|]. cbn [log gen futures set_futures] in *.
    split; [|split; congruence].
    rewrite F, F1, G1. rewrite length_app. cbn [List.length].
    rewrite <- app_assoc. cbn [app tasks_from].
    now rewrite Nat.add_1_r.
Qed.

(** The driver up to the end of the [for] loop, when the pool and the
    executor could be made. *)
Lemma driver_runs_every_batch db_params table n b workers en w :
  b <> 0 -> fault en (List.length (log w)) = None -> 0 < workers ->
  let G := generate_batches n b (gen w) in
  exists progress w2,
    insert_records_concurrent db_params table n b workers en w
    = (wait_results ;;; progress_close progress ;;; do_call Closeall) en w2
    /\ log w2 = (log w ++ [went (PoolCreate 1 workers db_params)])%list
    /\ gen w2 = rng_after G
    /\ futures w2
       = (futures w ++ tasks_from table en (rng_after G) (List.length (futures w))
                         (yielded G))%list.
Proof.
  intros Hb Hp Hw. cbn zeta. unfold insert_records_concurrent.
  unfold bind at 1.
  assert (P : exists progress w0,
             make_progress (py_floordiv (n + b - 1) b) en w = (Ok progress, w0)
             /\ log w0 = log w /\ gen w0 = gen w /\ futures w0 = futures w).
  { unfold make_progress, py_floordiv.
    assert ((b =? 0) = false) as -> by lia.
    destruct (has_tqdm en); cbn; eexists _, _; repeat split. }
  destruct P as (progress & w0 & -> & L0 & G0 & F0).
  unfold bind at 1. rewrite do_call_eq. cbn zeta. rewrite L0, Hp.
  unfold bind at 1, new_executor.
  assert ((workers <=? 0) = false) as -> by lia. cbn [ret].
  unfold bind at 1, for_generate_batches, bind at 1.
  cbn [gen set_log set_gen].
  match goal with
  | |- context [submit_each table progress ?bs en ?w1] =>
      destruct (submit_each_run table progress bs en w1) as (w2 & -> & F & L & G)
  end.
  cbn [gen log futures set_gen set_log] in *. rewrite G0 in *.
  rewrite (generate_batches_ending n b (gen w) Hb). cbn [ret].
  exists progress, w2. split; [reflexivity|].
  split; [exact L|]. split; [exact G|].
  rewrite F, F0. reflexivity.
Qed.

Lemma driver_tail progress en w2 :
  exists r w3,
    (wait_results ;;; progress_close progress ;;; do_call Closeall) en w2 = (r, w3)
    /\ futures w3 = futures w2 /\ gen w3 = gen w2
    /\ ((exists e,
           results_in_order
             (as_completed (finish_time en) (List.length (futures w2)))
             (futures w2) = Raise e
           /\ r = Raise e /\ log w3 = log w2)
        \/ (results_in_order
              (as_completed (finish_time en) (List.length (futures w2)))
              (futures w2) = Ok tt
            /\ exists f,
                 log w3 = (log w2 ++ [{| made := Closeall; failed := f |}])%list
                 /\ r = match f with Some e => Raise e | None => Ok tt end
                 /\ f = fault en (List.length (log w2)))).
Proof.
  unfold bind at 1, wait_results.
  destruct (results_in_order _ _) as [[]|e] eqn:R.
  - unfold bind at 1.
    destruct (progress_close_frame progress en w2) as (w3 & -> & L3 & G3 & F3).
    rewrite do_call_eq. cbn zeta.
    eexists _, _. split; [reflexivity|]. cbn [futures gen log set_log].
    split; [exact F3|]. split; [exact G3|]. right. split; [reflexivity|].
    eexists. rewrite L3. repeat split.
  - exists (Raise e), w2. repeat split. left. exists e. auto.
Qed.

Lemma tasks_from_length table en g batches : forall k,
  List.length (tasks_from table en g k batches) = List.length batches.
Proof.
  induction batches as [|x l IH]; intros k; cbn [tasks_from List.length];
    [reflexivity|]. now rewrite IH.
Qed.

(** X13. When the pool is created, [batch_size] is not zero and
    [num_workers] is positive, [insert_records_concurrent] submits one task
    for each batch [generate_batches] yields, in the order of the batches,
    whatever the tasks do; it leaves the random source as the generator
    does. *)
Theorem every_batch_is_submitted db_params table n b workers en w :
  futures w = [] -> b <> 0 -> fault en (List.length (log w)) = None ->
  0 < workers ->
  let G := generate_batches n b (gen w) in
  let run := insert_records_concurrent db_params table n b workers en w in
  futures (snd run) = tasks_from table en (rng_after G) 0 (yielded G)
  /\ List.length (futures (snd run)) = List.length (yielded G)
  /\ gen (snd run) = rng_after G.
Proof.
  intros Hf Hb Hp Hw. cbn zeta.
  destruct (driver_runs_every_batch db_params table n b workers en w Hb Hp Hw)
    as (progress & w2 & -> & L2 & G2 & F2).
  destruct (driver_tail progress en w2) as (r & w3 & -> & F3 & G3 & _).
  cbn [snd]. rewrite F3, F2, G3, Hf. cbn [app List.length].
  split; [reflexivity|]. split; [|exact G2]. apply tasks_from_length.
Qed.

Lemma every_batch_is_submitted_witness :
  futures (start rng0) = [] /\ 500 <> 0
  /\ fault first_batch_fails (List.length (log (start rng0))) = None
  /\ 0 < 2
  /\ futures (snd (insert_records_concurrent demo_params "transactions_1"
                     1000 500 2 first_batch_fails (start rng0)))
     = tasks_from "transactions_1" first_batch_fails
         (rng_after (generate_batches 1000 500 (gen (start rng0)))) 0
         (yielded (generate_batches 1000 500 (gen (start rng0))))
  /\ List.length
       (futures (snd (insert_records_concurrent demo_params "transactions_1"
                        1000 500 2 first_batch_fails (start rng0))))
     = List.length (yielded (generate_batches 1000 500 (gen (start rng0))))
  /\ gen (snd (insert_records_concurrent demo_params "transactions_1"
                 1000 500 2 first_batch_fails (start rng0)))
     = rng_after (generate_batches 1000 500 (gen (start rng0))).
Proof.
  split; [reflexivity|]. split; [discriminate|]. split; [reflexivity|].
  split; [reflexivity|].
  exact (every_batch_is_submitted demo_params "transactions_1" 1000 500 2
           first_batch_fails (start rng0) eq_refl ltac:(discriminate) eq_refl
           eq_refl).
Defined.

(** *** The order of completion *)

Lemma insert_by_time_in t k l x :
  In x (insert_by_time t k l) <-> x = k \/ In x l.
Proof.
  induction l as [|h l IH]; cbn.
  - intuition.
  - destruct (t h <=? t k)%nat; cbn; rewrite ?IH; intuition.
Qed.

Lemma as_completed_in t n x : In x (as_completed t n) <-> (x < n)%nat.
Proof.
  unfold as_completed.
  assert (G : forall l acc,
             In x (fold_left (fun l k => insert_by_time t k l) l acc)
             <-> In x l \/ In x acc).
  { induction l as [|k l IH]; intros acc; cbn [fold_left].
    - cbn. intuition.
    - rewrite IH, insert_by_time_in. cbn. intuition. }
  rewrite G, in_seq. cbn. lia.
Qed.

Lemma results_in_order_ok order fs :
  Forall (fun f => f_result f = Ok tt) fs -> results_in_order order fs = Ok tt.
Proof.
  intros H. induction order as [|k rest IH]; cbn; [reflexivity|].
  destruct (nth_error fs k) as [f|] eqn:E; [|exact IH].
  apply nth_error_In in E. rewrite Forall_forall in H.
  specialize (H f E). destruct f as [r l c]. cbn in H. now subst r.
Qed.

Lemma results_in_order_raise order fs e :
  results_in_order order fs = Raise e ->
  exists f, In f fs /\ f_result f = Raise e.
Proof.
  induction order as [|k rest IH]; cbn; [discriminate|].
  destruct (nth_error fs k) as [f|] eqn:E; [|exact IH].
  destruct f as [[[]|e'] l c]; [exact IH|].
  intros H. inversion H; subst. apply nth_error_In in E. eauto.
Qed.

Lemma results_in_order_some_raise order fs k f :
  In k order -> nth_error fs k = Some f -> is_ok (f_result f) = false ->
  exists e, results_in_order order fs = Raise e.
Proof.
  intros I E R. induction order as [|h rest IH]; [contradiction|]. cbn.
  destruct I as [->|I].
  - rewrite E. destruct f as [[[]|e'] l c]; [discriminate R|eauto].
  - destruct (nth_error fs h) as [[[[]|e'] l c]|]; eauto.
Qed.

(** X14. Under the same conditions: if no task raised, the driver's own calls
    are the creation of the pool and [closeall], and its result is that of
    [closeall]; if a task raised, the driver raises the exception of one of
    its futures and [closeall] is not called. *)
Theorem driver_result_follows_the_futures db_params table n b workers en w :
  futures w = [] -> b <> 0 -> fault en (List.length (log w)) = None ->
  0 < workers ->
  let run := insert_records_concurrent db_params table n b workers en w in
  let fs := futures (snd run) in
  let created := went (PoolCreate 1 workers db_params) in
  (Forall (fun f => f_result f = Ok tt) fs ->
   exists f,
     new_events w (snd run) = [created; {| made := Closeall; failed := f |}]
     /\ fst run = match f with Some e => Raise e | None => Ok tt end)
  /\ (Exists (fun f => is_ok (f_result f) = false) fs ->
      new_events w (snd run) = [created]
      /\ exists f e, In f fs /\ f_result f = Raise e /\ fst run = Raise e).
Proof.
  intros Hf Hb Hp Hw. cbn zeta.
  destruct (driver_runs_every_batch db_params table n b workers en w Hb Hp Hw)
    as (progress & w2 & -> & L2 & G2 & F2).
  destruct (driver_tail progress en w2) as (r & w3 & -> & F3 & G3 & T).
  cbn [fst snd]. rewrite F3. split.
  - intros A.
    destruct T as [(e & R & _)|(_ & f & L3 & -> & _)].
    + rewrite (results_in_order_ok _ _ A) in R. discriminate R.
    + exists f. split; [|reflexivity].
      apply new_events_app. rewrite L3, L2, <- app_assoc. reflexivity.
  - intros X. apply Exists_exists in X as (f & I & R).
    apply In_nth_error in I as (k & E).
    assert (K : (k < List.length (futures w2))%nat).
    { apply nth_error_Some. congruence. }
    apply (as_completed_in (finish_time en)) in K.
    destruct (results_in_order_some_raise _ _ _ _ K E R) as (e & Re).
    destruct T as [(e' & R' & -> & L3)|(R' & _)].
    + split; [apply new_events_app; now rewrite L3, L2|].
      rewrite R' in Re. inversion Re; subst e'.
      destruct (results_in_order_raise _ _ _ R') as (f' & I' & Rf').
      eauto.
    + rewrite R' in Re. discriminate Re.
Qed.

Lemma driver_result_follows_the_futures_witness :
  (futures (start rng0) = [] /\ 2 <> 0
   /\ fault first_batch_fails (List.length (log (start rng0))) = None /\ 0 < 2
   /\ Forall (fun f => f_result f = Ok tt)
        (futures (snd (insert_records_concurrent demo_params "transactions_1"
                         5 2 2 first_batch_fails (start rng0))))
   /\ exists f,
        new_events (start rng0)
          (snd (insert_records_concurrent demo_params "transactions_1"
                  5 2 2 first_batch_fails (start rng0)))
        = [went (PoolCreate 1 2 demo_params); {| made := Closeall; failed := f |}]
        /\ fst (insert_records_concurrent demo_params "transactions_1"
                  5 2 2 first_batch_fails (start rng0))
           = match f with Some e => Raise e | None => Ok tt end)
  /\ (Exists (fun f => is_ok (f_result f) = false)
        (futures (snd (insert_records_concurrent demo_params "transactions_1"
                         5 2 2 first_worker_loses_link (start rng0))))
      /\ new_events (start rng0)
           (snd (insert_records_concurrent demo_params "transactions_1"
                   5 2 2 first_worker_loses_link (start rng0)))
         = [went (PoolCreate 1 2 demo_params)]
      /\ exists f e,
           In f (futures (snd (insert_records_concurrent demo_params
                                 "transactions_1" 5 2 2 first_worker_loses_link
                                 (start rng0))))
           /\ f_result f = Raise e
           /\ fst (insert_records_concurrent demo_params "transactions_1"
                     5 2 2 first_worker_loses_link (start rng0)) = Raise e).
Proof.
  assert (A : Forall (fun f => f_result f = Ok tt)
        (futures (snd (insert_records_concurrent demo_params "transactions_1"
                         5 2 2 first_batch_fails (start rng0)))))
    by (vm_compute; repeat constructor).
  assert (X : Exists (fun f => is_ok (f_result f) = false)
        (futures (snd (insert_records_concurrent demo_params "transactions_1"
                         5 2 2 first_worker_loses_link (start rng0)))))
    by (vm_compute; apply Exists_cons_hd; reflexivity).
  split.
  - split; [reflexivity|]. split; [discriminate|]. split; [reflexivity|].
    split; [reflexivity|]. split; [exact A|].
    exact (proj1 (driver_result_follows_the_futures demo_params "transactions_1"
                    5 2 2 first_batch_fails (start rng0) eq_refl
                    ltac:(discriminate) eq_refl eq_refl) A).
  - split; [exact X|].
    exact (proj2 (driver_result_follows_the_futures demo_params "transactions_1"
                    5 2 2 first_worker_loses_link (start rng0) eq_refl
                    ltac:(discriminate) eq_refl eq_refl) X).
Defined.

(** X15. With [num_workers <= 0] the driver creates the pool and then raises
    the [ValueError] of [ThreadPoolExecutor]: no row is drawn, no task
    submitted, and the pool is not closed. *)
Theorem driver_without_workers db_params table n b workers en w :
  b <> 0 \/ has_tqdm en = false ->
  fault en (List.length (log w)) = None -> workers <= 0 ->
  let run := insert_records_concurrent db_params table n b workers en w in
  fst run = Raise no_workers
  /\ new_events w (snd run) = [went (PoolCreate 1 workers db_params)]
  /\ futures (snd run) = futures w
  /\ gen (snd run) = gen w.
Proof.
  intros Hb Hp Hw.
  assert (E : exists w2,
             insert_records_concurrent db_params table n b workers en w
             = (Raise no_workers, w2)
             /\ log w2 = (log w ++ [went (PoolCreate 1 workers db_params)])%list
             /\ futures w2 = futures w /\ gen w2 = gen w).
  { unfold insert_records_concurrent. unfold bind at 1.
    assert (P : exists progress w0,
               make_progress (py_floordiv (n + b - 1) b) en w = (Ok progress, w0)
               /\ log w0 = log w /\ gen w0 = gen w /\ futures w0 = futures w).
    { unfold make_progress, py_floordiv. destruct Hb as [Hb| ->].
      - assert ((b =? 0) = false) as -> by lia.
        destruct (has_tqdm en); cbn; eexists _, _; repeat split.
      - eexists _, _; repeat split. }
    destruct P as (progress & w0 & -> & L0 & G0 & F0).
    unfold bind at 1. rewrite do_call_eq. cbn zeta. rewrite L0, Hp.
    unfold bind at 1, new_executor.
    assert ((workers <=? 0) = true) as -> by lia. cbn [raise].
    eexists. split; [reflexivity|]. cbn [log futures gen set_log]. auto. }
  destruct E as (w2 & E & L & F & G). cbn zeta. rewrite E. cbn [fst snd].
  split; [reflexivity|]. split; [now apply new_events_app|]. auto.
Qed.

Lemma driver_without_workers_witness :
  (500 <> 0 \/ has_tqdm calm = false)
  /\ fault calm (List.length (log (start rng0))) = None /\ 0 <= 0
  /\ fst (insert_records_concurrent demo_params "transactions_1" 1000 500 0 calm
            (start rng0)) = Raise no_workers
  /\ new_events (start rng0)
       (snd (insert_records_concurrent demo_params "transactions_1" 1000 500 0
               calm (start rng0)))
     = [went (PoolCreate 1 0 demo_params)]
  /\ futures (snd (insert_records_concurrent demo_params "transactions_1" 1000
                     500 0 calm (start rng0))) = futures (start rng0)
  /\ gen (snd (insert_records_concurrent demo_params "transactions_1" 1000
                 500 0 calm (start rng0))) = gen (start rng0).
Proof.
  assert (H1 : 500 <> 0 \/ has_tqdm calm = false) by (left; discriminate).
  assert (H2 : 0 <= 0) by discriminate.
  split; [exact H1|]. split; [reflexivity|]. split; [exact H2|].
  exact (driver_without_workers demo_params "transactions_1" 1000 500 0 calm
           (start rng0) H1 eq_refl H2).
Defined.

(** X16. With [batch_size = 0] the driver raises [ZeroDivisionError]: with
    [tqdm] installed, in the computation of the number of batches, before
    any call; without it, in the generator, after the pool was created and
    one row drawn, and the pool is not closed. *)
Theorem driver_zero_batch_size db_params table n workers en w :
  let run := insert_records_concurrent db_params table n 0 workers en w in
  (has_tqdm en = true ->
   fst run = Raise division_by_zero /\ new_events w (snd run) = []
   /\ gen (snd run) = gen w)
  /\ (has_tqdm en = false -> fault en (List.length (log w)) = None ->
      0 < workers -> 0 < n ->
      fst run = Raise division_by_zero
      /\ new_events w (snd run) = [went (PoolCreate 1 workers db_params)]
      /\ futures (snd run) = futures w
      /\ outputs_drawn w (snd run) = 22%nat).
Proof.
  cbn zeta. split.
  - intros T.
    assert (E : insert_records_concurrent db_params table n 0 workers en w
                = (Raise division_by_zero, w)).
    { unfold insert_records_concurrent, bind at 1, make_progress. rewrite T.
      reflexivity. }
    rewrite E. cbn [fst snd]. split; [reflexivity|]. split; [|reflexivity].
    apply new_events_app. now rewrite app_nil_r.
  - intros T Hp Hw Hn.
    assert (E : exists w2,
               insert_records_concurrent db_params table n 0 workers en w
               = (Raise division_by_zero, w2)
               /\ log w2 = (log w ++ [went (PoolCreate 1 workers db_params)])%list
               /\ futures w2 = futures w
               /\ pos (gen w2) = (pos (gen w) + 22)%nat).
    { unfold insert_records_concurrent, bind at 1, make_progress. rewrite T.
      unfold bind at 1. rewrite do_call_eq. cbn zeta. rewrite Hp.
      unfold bind at 1, new_executor.
      assert ((workers <=? 0) = false) as -> by lia. cbn [ret].
      unfold bind at 1, for_generate_batches, bind at 1.
      cbn [gen set_log].
      assert (Z0 : yielded (generate_batches n 0 (gen w)) = []
                   /\ ending (generate_batches n 0 (gen w))
                      = Some (Exn ZeroDivisionError (Native DivisionByZero))
                   /\ pos (rng_after (generate_batches n 0 (gen w)))
                      = (pos (gen w) + 22)%nat).
      { unfold generate_batches.
        destruct (Z.to_nat n) as [|k] eqn:K; [lia|]. apply generate_loop_by_zero. }
      destruct Z0 as (Y & En & P).
      rewrite Y, En. cbn [submit_each ret raise].
      eexists. split; [reflexivity|]. cbn [log futures gen set_gen set_log].
      auto. }
    destruct E as (w2 & E & L & F & P). rewrite E. cbn [fst snd].
    split; [reflexivity|]. split; [now apply new_events_app|].
    split; [exact F|]. unfold outputs_drawn. lia.
Qed.

Lemma driver_zero_batch_size_witness :
  (has_tqdm calm = true
   /\ fst (insert_records_concurrent demo_params "transactions_1" 1000 0 2 calm
             (start rng0)) = Raise division_by_zero
   /\ new_events (start rng0)
        (snd (insert_records_concurrent demo_params "transactions_1" 1000 0 2
                calm (start rng0))) = []
   /\ gen (snd (insert_records_concurrent demo_params "transactions_1" 1000 0 2
                  calm (start rng0))) = gen (start rng0))
  /\ (has_tqdm calm_without_tqdm = false
      /\ fault calm_without_tqdm (List.length (log (start rng0))) = None
      /\ 0 < 2 /\ 0 < 1000
      /\ fst (insert_records_concurrent demo_params "transactions_1" 1000 0 2
                calm_without_tqdm (start rng0)) = Raise division_by_zero
      /\ new_events (start rng0)
           (snd (insert_records_concurrent demo_params "transactions_1" 1000 0 2
                   calm_without_tqdm (start rng0)))
         = [went (PoolCreate 1 2 demo_params)]
      /\ futures (snd (insert_records_concurrent demo_params "transactions_1"
                         1000 0 2 calm_without_tqdm (start rng0)))
         = futures (start rng0)
      /\ outputs_drawn (start rng0)
           (snd (insert_records_concurrent demo_params "transactions_1" 1000 0 2
                   calm_without_tqdm (start rng0))) = 22%nat).
Proof.
  split.
  - split; [reflexivity|].
    exact (proj1 (driver_zero_batch_size demo_params "transactions_1" 1000 2 calm
                    (start rng0)) eq_refl).
  - split; [reflexivity|]. split; [reflexivity|]. split; [reflexivity|].
    split; [reflexivity|].
    exact (proj2 (driver_zero_batch_size demo_params "transactions_1" 1000 2
                    calm_without_tqdm (start rng0)) eq_refl eq_refl eq_refl eq_refl).
Defined.

(** *** The pool and the end of the job *)

(** When no future holds an exception, the end of the driver is [closeall],
    called in a state that has every future of the wait. *)
Lemma driver_tail_closes progress en w2 :
  results_in_order (as_completed (finish_time en) (List.length (futures w2)))
    (futures w2) = Ok tt ->
  exists w1,
    (wait_results ;;; progress_close progress ;;; do_call Closeall) en w2
    = do_call Closeall en w1
    /\ log w1 = log w2 /\ futures w1 = futures w2.
Proof.
  intros R. unfold bind at 1, wait_results. rewrite R. unfold bind at 1.
  destruct (progress_close_frame progress en w2) as (w3 & -> & L3 & G3 & F3).
  exists w3. split; [reflexivity|]. now split.
Qed.

(** The ways [insert_records_concurrent] can run: the number of batches
    cannot be computed; the pool cannot be created; the pool is created and
    something raises before [closeall]; or [closeall] is reached, and then
    the generator ended without error, every batch was submitted, no
    future holds an exception, and [closeall] is called in a state that has
    all these futures. *)
Lemma driver_run db_params table n b workers en w :
  let G := generate_batches n b (gen w) in
  let created f := {| made := PoolCreate 1 workers db_params; failed := f |} in
  exists r w',
    insert_records_concurrent db_params table n b workers en w = (r, w')
    /\ ((exists e, r = Raise e /\ log w' = log w)
        \/ (exists e, r = Raise e /\ log w' = (log w ++ [created (Some e)])%list)
        \/ (exists e, r = Raise e /\ log w' = (log w ++ [created None])%list)
        \/ (exists f,
              log w' = (log w ++ [created None;
                                  {| made := Closeall; failed := f |}])%list
              /\ r = match f with Some e => Raise e | None => Ok tt end
              /\ ending G = None
              /\ futures w'
                 = (futures w
                    ++ tasks_from table en (rng_after G) (List.length (futures w))
                         (yielded G))%list
              /\ results_in_order
                   (as_completed (finish_time en) (List.length (futures w')))
                   (futures w') = Ok tt
              /\ exists w1,
                   (r, w') = do_call Closeall en w1
                   /\ log w1 = (log w ++ [created None])%list
                   /\ futures w1 = futures w')).
Proof.
  cbn zeta. unfold insert_records_concurrent. unfold bind at 1.
  assert (P : (exists e w0,
                 make_progress (py_floordiv (n + b - 1) b) en w = (Raise e, w0)
                 /\ log w0 = log w)
              \/ exists progress w0,
                   make_progress (py_floordiv (n + b - 1) b) en w
                   = (Ok progress, w0)
                   /\ log w0 = log w /\ gen w0 = gen w /\ futures w0 = futures w).
  { unfold make_progress, py_floordiv.
    destruct (has_tqdm en); [|right; eexists _, _; repeat split].
    destruct (b =? 0); cbn; [left|right]; eexists _, _; repeat split. }
  destruct P as [(e & w0 & -> & L0)|(progress & w0 & -> & L0 & G0 & F0)].
  { exists (Raise e), w0. split; [reflexivity|]. left. now exists e. }
  unfold bind at 1. rewrite do_call_eq. cbn zeta. rewrite L0.
  destruct (fault en (List.length (log w))) as [e|].
  { eexists _, _. split; [reflexivity|]. right. left. exists e.
    cbn [log set_log]. rewrite ?L0. split; reflexivity. }
  unfold bind at 1, new_executor.
  destruct (workers <=? 0).
  { eexists _, _. split; [reflexivity|]. right. right. left.
    eexists. cbn [raise log set_log]. rewrite ?L0. split; reflexivity. }
  cbn [ret]. unfold bind at 1, for_generate_batches, bind at 1.
  cbn [gen set_log set_gen].
  match goal with
  | |- context [submit_each table progress ?bs en ?w1] =>
      destruct (submit_each_run table progress bs en w1) as (w2 & -> & F & L & G)
  end.
  cbn [gen log futures set_gen set_log] in *. rewrite G0 in *.
  destruct (ending (generate_batches n b (gen w))) as [e|] eqn:E.
  { eexists _, _. split; [reflexivity|]. right. right. left.
    exists e. cbn [raise]. now split. }
  cbn [ret].
  pose proof (driver_tail_closes progress en w2) as C.
  destruct (driver_tail progress en w2)
    as (r & w3 & T & F3 & G3 & [(e & R & -> & L3)|(R & f & L3 & -> & _)]);
    rewrite T in *.
  - exists (Raise e), w3. split; [reflexivity|]. right. right. left.
    exists e. rewrite L3. now split.
  - eexists _, w3. split; [reflexivity|]. right. right. right.
    exists f. split; [rewrite L3, L, <- app_assoc; reflexivity|].
    split; [reflexivity|]. split; [reflexivity|].
    split; [now rewrite F3, F, F0|]. split; [now rewrite F3|].
    destruct (C R) as (w1 & Q & L1 & F1). exists w1.
    split; [exact Q|]. split; [now rewrite L1, L|]. now rewrite F1, F3.
Qed.

(** [as_completed] hands over every future, so a wait that ends without an
    exception has found none. *)
Lemma results_all_ok t fs :
  results_in_order (as_completed t (List.length fs)) fs = Ok tt ->
  Forall (fun f => f_result f = Ok tt) fs.
Proof.
  intros R. apply Forall_forall. intros f I.
  destruct (In_nth_error _ _ I) as [k E].
  assert (K : (k < List.length fs)%nat)
    by (apply nth_error_Some; rewrite E; discriminate).
  destruct (f_result f) as [[]|e] eqn:Q; [reflexivity|].
  destruct (results_in_order_some_raise (as_completed t (List.length fs)) fs k f)
    as [e' R']; [now apply as_completed_in|exact E|now rewrite Q|].
  rewrite R' in R. discriminate R.
Qed.

(** C6, as amended. The only calls of the driver's own thread are the
    creation of the pool, with [minconn = 1], [maxconn = num_workers] and the
    connection parameters, and after it [closeall].  [closeall] is reached
    only at the end of a job in which the generator ended without error,
    every batch was submitted and no future holds an exception; it is the
    last thing the driver does, in a state that holds every one of these
    futures, finished, and the driver's result is that of [closeall].  A job
    that returns normally made both calls and both passed; a job that raises
    has not closed the pool: [closeall] was not called, or it is what
    raised. *)
Theorem pool_sized_by_workers_and_closed db_params table n b workers en w :
  let run := insert_records_concurrent db_params table n b workers en w in
  let trace := new_events w (snd run) in
  let created f := {| made := PoolCreate 1 workers db_params; failed := f |} in
  let closed f := {| made := Closeall; failed := f |} in
  let G := generate_batches n b (gen w) in
  (trace = [] \/ (exists f, trace = [created f])
   \/ exists f, trace = [created None; closed f])
  /\ (forall f, In (closed f) trace ->
      trace = [created None; closed f]
      /\ ending G = None
      /\ futures (snd run)
         = (futures w
            ++ tasks_from table en (rng_after G) (List.length (futures w))
                 (yielded G))%list
      /\ Forall (fun t => f_result t = Ok tt) (futures (snd run))
      /\ fst run = match f with Some e => Raise e | None => Ok tt end
      /\ exists w1,
           run = do_call Closeall en w1
           /\ log w1 = (log w ++ [created None])%list
           /\ futures w1 = futures (snd run))
  /\ (fst run = Ok tt -> trace = [created None; closed None])
  /\ (forall e, fst run = Raise e -> ~ In (closed None) trace).
Proof.
  cbn zeta.
  destruct (driver_run db_params table n b workers en w)
    as (r & w' & -> & [(e & -> & L)|[(e & -> & L)|[(e & -> & L)
                      |(f & L & -> & E & F & R & C)]]]);
    cbn [fst snd].
  - assert (T : new_events w w' = []) by (apply new_events_app; now rewrite app_nil_r).
    rewrite T. split; [now left|]. split; [intros f []|].
    split; [intros Q; discriminate Q|]. intros e' _ [].
  - rewrite (new_events_app _ _ _ L).
    split; [right; left; eauto|].
    split; [intros f [Q|[]]; discriminate Q|].
    split; [intros Q; discriminate Q|]. intros e' _ [Q|[]]. discriminate Q.
  - rewrite (new_events_app _ _ _ L).
    split; [right; left; eauto|].
    split; [intros f [Q|[]]; discriminate Q|].
    split; [intros Q; discriminate Q|]. intros e' _ [Q|[]]. discriminate Q.
  - rewrite (new_events_app _ _ _ L).
    split; [right; right; eauto|]. split; [|split].
    + intros f' [Q|[Q|[]]]; [discriminate Q|]. inversion Q; subst f'.
      split; [reflexivity|]. split; [exact E|]. split; [exact F|].
      split; [now apply (results_all_ok (finish_time en))|].
      split; [reflexivity|exact C].
    + destruct f; [intros Q; discriminate Q|reflexivity].
    + destruct f as [e|]; [|intros e' Q; discriminate Q].
      intros e' _ [Q|[Q|[]]]; discriminate Q.
Qed.

(** C6, as stated, fails: five rows in batches of two, two workers, the
    first worker's connection lost ([execute_values] and then [rollback]
    raise).  The three batches are all submitted, the job ends with the
    exception of the first future, and the pool was created but never
    closed. *)
Example pool_left_open_after_a_failed_job :
  let run := insert_records_concurrent demo_params "transactions_1" 5 2 2
               first_worker_loses_link (start rng0) in
  fst run = Raise connection_closed
  /\ List.length (futures (snd run)) = 3%nat
  /\ new_events (start rng0) (snd run)
     = [{| made := PoolCreate 1 2 demo_params; failed := None |}].
Proof. vm_compute. repeat split. Qed.

(** A job in which nothing fails, and the job above. *)
Lemma pool_sized_by_workers_and_closed_witness :
  let fine := insert_records_concurrent demo_params "transactions_1" 5 2 2 calm
                (start rng0) in
  let lost := insert_records_concurrent demo_params "transactions_1" 5 2 2
                first_worker_loses_link (start rng0) in
  let closed := {| made := Closeall; failed := None |} in
  (In closed (new_events (start rng0) (snd fine))
   /\ new_events (start rng0) (snd fine)
      = [{| made := PoolCreate 1 2 demo_params; failed := None |}; closed]
   /\ Forall (fun t => f_result t = Ok tt) (futures (snd fine)))
  /\ (fst fine = Ok tt
      /\ new_events (start rng0) (snd fine)
         = [{| made := PoolCreate 1 2 demo_params; failed := None |}; closed])
  /\ (fst lost = Raise connection_closed
      /\ ~ In closed (new_events (start rng0) (snd lost))).
Proof.
  cbn zeta.
  pose proof (pool_sized_by_workers_and_closed demo_params "transactions_1" 5 2 2
                calm (start rng0)) as (_ & A & B & _).
  pose proof (pool_sized_by_workers_and_closed demo_params "transactions_1" 5 2 2
                first_worker_loses_link (start rng0)) as (_ & _ & _ & C).
  cbn zeta in *.
  assert (I : In {| made := Closeall; failed := None |}
                (new_events (start rng0)
                   (snd (insert_records_concurrent demo_params "transactions_1"
                           5 2 2 calm (start rng0))))).
  { vm_compute. right. left. reflexivity. }
  assert (R : fst (insert_records_concurrent demo_params "transactions_1" 5 2 2
                     calm (start rng0)) = Ok tt) by (vm_compute; reflexivity).
  assert (Q : fst (insert_records_concurrent demo_params "transactions_1" 5 2 2
                     first_worker_loses_link (start rng0))
              = Raise connection_closed) by (vm_compute; reflexivity).
  split.
  { destruct (A None I) as (T & _ & _ & F & _ & _).
    split; [exact I|]. split; [exact T|exact F]. }
  split; [split; [exact R|exact (B R)]|].
  split; [exact Q|exact (C _ Q)].
Defined.

(** ** The two drivers side by side *)

Lemma insert_batch_pool_fault_free table batch en w :
  fault_free en ->
  let c := pool_conn en in
  exists w',
    insert_batch_pool table batch en w = (Ok tt, w')
    /\ log w'
       = (log w ++ [went Getconn; went (Cursor c);
                    went (ExecuteValues c (insert_sql_for table) batch);
                    went (CursorClose c); went (Commit c); went (Putconn c)])%list.
Proof.
  intros F. cbn zeta. unfold insert_batch_pool. unfold_M.
  repeat (rewrite (do_call_went _ _ _ F);
          cbn [log console gen conn_var futures fst snd set_log set_console
               set_conn_var]).
  eexists. split; [reflexivity|]. cbn [log set_log].
  rewrite <- !app_assoc. reflexivity.
Qed.

Lemma task_run_fault_free table en g k batch :
  workers_fault_free en ->
  f_result (task_run table en g k batch) = Ok tt
  /\ rows_sent (f_log (task_run table en g k batch)) = batch.
Proof.
  intros F. unfold task_run.
  destruct (insert_batch_pool_fault_free table batch (worker_env en k) (start g))
    as (w' & -> & L).
  { intros j. apply F. }
  cbn [f_result f_log]. split; [reflexivity|]. rewrite L.
  cbn. now rewrite app_nil_r.
Qed.

Lemma tasks_from_fault_free table en g batches : forall k,
  workers_fault_free en ->
  Forall (fun f => f_result f = Ok tt) (tasks_from table en g k batches)
  /\ List.concat (map (fun f => rows_sent (f_log f))
                      (tasks_from table en g k batches))
     = List.concat batches.
Proof.
  induction batches as [|batch rest IH]; intros k F; cbn [tasks_from].
  - split; [constructor|reflexivity].
  - destruct (IH (S k) F) as [A B].
    destruct (task_run_fault_free table en g k batch F) as [R S].
    split; [now constructor|]. cbn [map List.concat]. now rewrite S, B.
Qed.

Lemma rows_sent_insert_events c sql batches :
  rows_sent (insert_events c sql batches) = List.concat batches.
Proof.
  unfold rows_sent, insert_events.
  induction batches as [|batch rest IH]; [reflexivity|].
  cbn. now rewrite IH.
Qed.

(** X17. When nothing fails, the sequential and the concurrent driver, started
    on the same random source, both return normally, hand the same rows to
    [execute_values] (the first [num_records] rows of the source, in order
    of submission for the concurrent one) and leave the source in the same
    state. *)
Theorem drivers_send_the_same_rows c db_params table n b workers en w :
  fault_free en -> workers_fault_free en -> futures w = [] -> b <> 0 ->
  0 < workers ->
  let sequential := insert_records c table n b en w in
  let concurrent := insert_records_concurrent db_params table n b workers en w in
  fst sequential = Ok tt /\ fst concurrent = Ok tt
  /\ rows_sent (new_events w (snd sequential)) = fst (draw_rows (Z.to_nat n) (gen w))
  /\ List.concat (map (fun f => rows_sent (f_log f)) (futures (snd concurrent)))
     = fst (draw_rows (Z.to_nat n) (gen w))
  /\ gen (snd sequential) = gen (snd concurrent).
Proof.
  intros F WF Hf Hb Hw. cbn zeta.
  assert (S1 : fst (insert_records c table n b en w) = Ok tt
               /\ new_events w (snd (insert_records c table n b en w))
                  = (went (Cursor c)
                     :: insert_events c (insert_sql_for table)
                          (yielded (generate_batches n b (gen w)))
                     ++ [went (CursorClose c)])%list
               /\ gen (snd (insert_records c table n b en w))
                  = rng_after (generate_batches n b (gen w))).
  { destruct (insert_records_fault_free c table n b en w F Hb)
      as (w' & -> & L & G).
    cbn [fst snd]. split; [reflexivity|]. split; [|exact G].
    now apply new_events_app. }
  destruct S1 as (R1 & T1 & G1).
  assert (S2 : futures (snd (insert_records_concurrent db_params table n b workers
                               en w))
               = tasks_from table en (rng_after (generate_batches n b (gen w))) 0
                   (yielded (generate_batches n b (gen w)))
               /\ gen (snd (insert_records_concurrent db_params table n b workers
                              en w))
                  = rng_after (generate_batches n b (gen w))).
  { destruct (driver_runs_every_batch db_params table n b workers en w Hb (F _) Hw)
      as (progress & w2 & -> & L2 & G2 & F2).
    destruct (driver_tail progress en w2) as (r & w3 & -> & F3 & G3 & _).
    cbn [snd]. rewrite F3, F2, G3, Hf. split; [reflexivity|exact G2]. }
  destruct S2 as (F2 & G2).
  destruct (tasks_from_fault_free table en
              (rng_after (generate_batches n b (gen w)))
              (yielded (generate_batches n b (gen w))) 0%nat WF) as [A B].
  assert (C : List.concat (yielded (generate_batches n b (gen w)))
              = fst (draw_rows (Z.to_nat n) (gen w))).
  { unfold generate_batches.
    now destruct (generate_loop_rows (Z.to_nat n) 1 b [] (gen w) Hb) as (_ & C & _). }
  split; [exact R1|]. split; [|split; [|split]].
  - revert F2.
    destruct (driver_runs_every_batch db_params table n b workers en w Hb (F _) Hw)
      as (progress & w2 & -> & L2 & G2' & F2').
    destruct (driver_tail progress en w2) as (r & w3 & -> & F3 & G3 & T).
    cbn [fst snd]. intros F2. rewrite F3 in F2. rewrite <- F2 in A.
    destruct T as [(e & R & _)|(_ & f & _ & -> & ->)].
    + rewrite (results_in_order_ok _ _ A) in R. discriminate R.
    + now rewrite F.
  - rewrite T1. unfold rows_sent. cbn [flat_map rows_of made went app].
    rewrite flat_map_app.
    fold (rows_sent (insert_events c (insert_sql_for table)
                       (yielded (generate_batches n b (gen w))))).
    rewrite rows_sent_insert_events, C. cbn. now rewrite app_nil_r.
  - rewrite F2, B. exact C.
  - now rewrite G1, G2.
Qed.

Lemma calm_workers_fault_free : workers_fault_free calm.
Proof. intros k j. reflexivity. Defined.

Lemma drivers_send_the_same_rows_witness :
  fault_free calm /\ workers_fault_free calm /\ futures (start rng0) = []
  /\ 2 <> 0 /\ 0 < 2
  /\ fst (insert_records 7%nat "transactions_1" 5 2 calm (start rng0)) = Ok tt
  /\ fst (insert_records_concurrent demo_params "transactions_1" 5 2 2 calm
            (start rng0)) = Ok tt
  /\ rows_sent (new_events (start rng0)
                  (snd (insert_records 7%nat "transactions_1" 5 2 calm (start rng0))))
     = fst (draw_rows (Z.to_nat 5) (gen (start rng0)))
  /\ List.concat
       (map (fun f => rows_sent (f_log f))
            (futures (snd (insert_records_concurrent demo_params "transactions_1"
                             5 2 2 calm (start rng0)))))
     = fst (draw_rows (Z.to_nat 5) (gen (start rng0)))
  /\ gen (snd (insert_records 7%nat "transactions_1" 5 2 calm (start rng0)))
     = gen (snd (insert_records_concurrent demo_params "transactions_1" 5 2 2 calm
                   (start rng0))).
Proof.
  assert (H : 2 <> 0) by discriminate.
  split; [exact calm_fault_free|]. split; [exact calm_workers_fault_free|].
  split; [reflexivity|]. split; [exact H|]. split; [reflexivity|].
  exact (drivers_send_the_same_rows 7%nat demo_params "transactions_1" 5 2 2 calm
           (start rng0) calm_fault_free calm_workers_fault_free eq_refl H eq_refl).
Defined.

(** ** [create_table_if_not_exists] *)

(** X18. [create_table_if_not_exists] returns normally exactly when its four
    steps pass: the cursor, the [CREATE TABLE IF NOT EXISTS] statement, the
    closing of the cursor, the commit.  It commits only after the first
    three passed; an exception it raises is that of one of its steps; it
    prints nothing. *)
Theorem create_table_commits_after_the_statement c table en s :
  let run := create_table_if_not_exists c table en s in
  let trace := new_steps s (snd run) in
  (fst run = Ok tt <-> trace = create_steps c table)
  /\ (Exists (fun ev => Session.made ev = Session.Commit c) trace ->
      firstn 3 trace
      = map passed [Session.Cursor c; Session.Execute c (create_table_sql table);
                    Session.CursorClose c])
  /\ (forall e, fst run = Raise e ->
      Exists (fun ev => Session.failed ev = Some e) trace)
  /\ Session.console (snd run) = Session.console s.
Proof.
  cbn zeta. unfold create_table_if_not_exists. unfold_S.
  repeat session_step.
  all: name_steps.
  all: split; [split; intros Q; first [reflexivity | discriminate Q]|].
  all: split; [intros Q; first [reflexivity | no_such_step]|].
  all: split; [|reflexivity].
  all: intros e' Q; try discriminate Q; inversion Q; subst; some_step_raised.
Qed.

Lemma create_table_commits_after_the_statement_witness :
  (Exists (fun ev => Session.made ev = Session.Commit 7%nat)
     (new_steps session_start
        (snd (create_table_if_not_exists 7%nat "transactions_1" quiet_session
                session_start)))
   /\ firstn 3 (new_steps session_start
        (snd (create_table_if_not_exists 7%nat "transactions_1" quiet_session
                session_start)))
      = map passed [Session.Cursor 7%nat;
                    Session.Execute 7%nat (create_table_sql "transactions_1");
                    Session.CursorClose 7%nat])
  /\ (fst (create_table_if_not_exists 7%nat "transactions_1" second_step_fails
             session_start) = Raise permission_denied
      /\ Exists (fun ev => Session.failed ev = Some permission_denied)
           (new_steps session_start
              (snd (create_table_if_not_exists 7%nat "transactions_1"
                      second_step_fails session_start)))).
Proof.
  pose proof (create_table_commits_after_the_statement 7%nat "transactions_1"
                quiet_session session_start) as (_ & B & _).
  pose proof (create_table_commits_after_the_statement 7%nat "transactions_1"
                second_step_fails session_start) as (_ & _ & C & _).
  cbn zeta in *.
  assert (X : Exists (fun ev => Session.made ev = Session.Commit 7%nat)
     (new_steps session_start
        (snd (create_table_if_not_exists 7%nat "transactions_1" quiet_session
                session_start)))).
  { do 3 apply Exists_cons_tl. apply Exists_cons_hd. reflexivity. }
  split; [split; [exact X|exact (B X)]|].
  split; [reflexivity|exact (C _ eq_refl)].
Defined.

(** ** [reset_table] and [test_connection] *)

Lemma new_steps_app s s' t :
  Session.log s' = (Session.log s ++ t)%list -> new_steps s s' = t.
Proof. intros E. unfold new_steps. rewrite E. apply skipn_app_exact. Qed.

(** X19. When [reset_table] returns normally its steps are those of the drop
    (cursor, [DROP TABLE IF EXISTS], closing of the cursor, commit) followed
    by those of [create_table_if_not_exists]; the [CREATE] statement is run
    only after the four steps of the drop passed; an exception it raises is
    that of one of its steps. *)
Theorem reset_table_drops_then_creates c table en s :
  let run := reset_table c table en s in
  let trace := new_steps s (snd run) in
  (fst run = Ok tt -> trace = (drop_steps c table ++ create_steps c table)%list)
  /\ (Exists (fun ev => Session.made ev
                        = Session.Execute c (create_table_sql table)) trace ->
      firstn 4 trace = drop_steps c table)
  /\ (forall e, fst run = Raise e ->
      Exists (fun ev => Session.failed ev = Some e) trace).
Proof.
  cbn zeta. unfold reset_table, create_table_if_not_exists. unfold_S.
  repeat session_step.
  all: name_steps.
  all: split; [intros Q; try discriminate Q; reflexivity|].
  all: split; [intros Q; first [reflexivity | no_such_step]|].
  all: intros e' Q; try discriminate Q; inversion Q; subst; some_step_raised.
Qed.

Lemma reset_table_drops_then_creates_witness :
  (fst (reset_table 7%nat "transactions_1" quiet_session session_start) = Ok tt
   /\ new_steps session_start
        (snd (reset_table 7%nat "transactions_1" quiet_session session_start))
      = (drop_steps 7%nat "transactions_1" ++ create_steps 7%nat "transactions_1")%list)
  /\ (Exists (fun ev => Session.made ev
                = Session.Execute 7%nat (create_table_sql "transactions_1"))
        (new_steps session_start
           (snd (reset_table 7%nat "transactions_1" quiet_session session_start)))
      /\ firstn 4 (new_steps session_start
           (snd (reset_table 7%nat "transactions_1" quiet_session session_start)))
         = drop_steps 7%nat "transactions_1")
  /\ (fst (reset_table 7%nat "transactions_1" second_step_fails session_start)
      = Raise permission_denied
      /\ Exists (fun ev => Session.failed ev = Some permission_denied)
           (new_steps session_start
              (snd (reset_table 7%nat "transactions_1" second_step_fails
                      session_start)))).
Proof.
  pose proof (reset_table_drops_then_creates 7%nat "transactions_1" quiet_session
                session_start) as (A & B & _).
  pose proof (reset_table_drops_then_creates 7%nat "transactions_1"
                second_step_fails session_start) as (_ & _ & C).
  cbn zeta in *.
  assert (X : Exists (fun ev => Session.made ev
                = Session.Execute 7%nat (create_table_sql "transactions_1"))
        (new_steps session_start
           (snd (reset_table 7%nat "transactions_1" quiet_session session_start)))).
  { do 5 apply Exists_cons_tl. apply Exists_cons_hd. reflexivity. }
  split; [split; [reflexivity|exact (A eq_refl)]|].
  split; [split; [exact X|exact (B X)]|].
  split; [reflexivity|exact (C _ eq_refl)].
Defined.

Lemma test_connection_returns db_params en s :
  fst (test_connection db_params en s) = Ok tt.
Proof.
  unfold test_connection. unfold_S. repeat session_step. all: reflexivity.
Qed.

Lemma test_connection_main_loaded config alias en s db_params :
  TestConnection.load_db_config (Session.files en) config alias = Ok db_params ->
  test_connection_main config alias en s = test_connection db_params en s.
Proof.
  intros L. unfold test_connection_main, Session.try_except, Session.bind.
  rewrite L. pose proof (test_connection_returns db_params en s) as R.
  destruct (test_connection db_params en s) as [r s']. cbn [fst] in R. now subst r.
Qed.

Lemma test_connection_main_not_loaded config alias en s e :
  TestConnection.load_db_config (Session.files en) config alias = Raise e ->
  test_connection_main config alias en s
  = (Ok tt, {| Session.log := Session.log s;
               Session.console :=
                 (Session.console s
                  ++ [Session.Line (Cat "Error: " (str_exn e))])%list |}).
Proof.
  intros L. unfold test_connection_main, Session.try_except, Session.bind.
  rewrite L. reflexivity.
Qed.

(** X20. [test_connection] never raises.  It closes the connection only after
    connecting, the cursor, [SELECT version()], [fetchone] and the closing of
    the cursor passed; if a step raised, the last line it prints is
    ["Failed to connect to the database. Error: "] with the exception of one
    of its steps; if every step passed it prints the success line and the
    version that [fetchone] returned, and nothing else. *)
Theorem test_connection_never_raises db_params en s :
  let run := test_connection db_params en s in
  let trace := new_steps s (snd run) in
  let c := Session.connection en in
  fst run = Ok tt
  /\ (Exists (fun ev => Session.made ev = Session.Close c) trace ->
      firstn 5 trace
      = map passed [Session.Connect db_params; Session.Cursor c;
                    Session.Execute c "SELECT version();"; Session.Fetchone c;
                    Session.CursorClose c])
  /\ (Exists (fun ev => step_raised ev = true) trace ->
      exists e before,
        Exists (fun ev => Session.failed ev = Some e) trace
        /\ Session.console (snd run) = (before ++ [failed_line e])%list)
  /\ (Forall (fun ev => step_raised ev = false) trace ->
      Session.console (snd run)
      = (Session.console s
         ++ [connected_line;
             Session.LineValue "Database version:" (Session.fetched en)])%list).
Proof.
  cbn zeta. unfold test_connection. unfold_S.
  repeat session_step.
  all: name_steps.
  all: split; [reflexivity|].
  all: split;
    [intros Q; first [reflexivity
                     | repeat match goal with
                       | H : Exists _ [] |- _ => now apply Exists_nil in H
                       | H : Exists _ (_ :: _) |- _ =>
                           apply Exists_cons in H; destruct H as [H|H];
                           [exfalso; cbn [Session.made] in H; discriminate H|]
                       end]|].
  all: split; intros Q.
  all: lazymatch goal with
       | |- exists _, _ =>
           first [ solve [eexists _, _; split; [|reflexivity]; some_step_raised]
                 | exfalso;
                   repeat match goal with
                          | H : Exists _ [] |- _ => now apply Exists_nil in H
                          | H : Exists _ (_ :: _) |- _ =>
                              apply Exists_cons in H; destruct H as [H|H];
                              [discriminate H|]
                          end ]
       | |- _ =>
           first [ solve [rewrite <- ?app_assoc; reflexivity]
                 | exfalso;
                   repeat match goal with
                          | H : Forall _ (_ :: _) |- _ =>
                              let A := fresh in
                              let B := fresh in
                              apply Forall_cons_iff in H; destruct H as [A B];
                              try discriminate A
                          end ]
       end.
Qed.

Lemma test_connection_never_raises_witness :
  (Exists (fun ev => Session.made ev = Session.Close (Session.connection quiet_session))
     (new_steps session_start (snd (test_connection demo_params quiet_session
                                      session_start)))
   /\ firstn 5 (new_steps session_start
                  (snd (test_connection demo_params quiet_session session_start)))
      = map passed [Session.Connect demo_params; Session.Cursor 7%nat;
                    Session.Execute 7%nat "SELECT version();";
                    Session.Fetchone 7%nat; Session.CursorClose 7%nat])
  /\ (Exists (fun ev => step_raised ev = true)
        (new_steps session_start
           (snd (test_connection demo_params second_step_fails session_start)))
      /\ exists e before,
           Exists (fun ev => Session.failed ev = Some e)
             (new_steps session_start
                (snd (test_connection demo_params second_step_fails session_start)))
           /\ Session.console
                (snd (test_connection demo_params second_step_fails session_start))
              = (before ++ [failed_line e])%list)
  /\ (Forall (fun ev => step_raised ev = false)
        (new_steps session_start
           (snd (test_connection demo_params quiet_session session_start)))
      /\ Session.console (snd (test_connection demo_params quiet_session
                                 session_start))
         = (Session.console session_start
            ++ [connected_line;
                Session.LineValue "Database version:"
                  (Session.fetched quiet_session)])%list).
Proof.
  pose proof (test_connection_never_raises demo_params quiet_session session_start)
    as (_ & B & _ & D).
  pose proof (test_connection_never_raises demo_params second_step_fails
                session_start) as (_ & _ & C & _).
  cbn zeta in *.
  assert (X : Exists (fun ev => Session.made ev
                                = Session.Close (Session.connection quiet_session))
     (new_steps session_start (snd (test_connection demo_params quiet_session
                                      session_start)))).
  { do 5 apply Exists_cons_tl. apply Exists_cons_hd. reflexivity. }
  assert (Y : Exists (fun ev => step_raised ev = true)
        (new_steps session_start
           (snd (test_connection demo_params second_step_fails session_start)))).
  { apply Exists_cons_tl. apply Exists_cons_hd. reflexivity. }
  assert (Z : Forall (fun ev => step_raised ev = false)
        (new_steps session_start
           (snd (test_connection demo_params quiet_session session_start)))).
  { repeat constructor. }
  split; [split; [exact X|exact (B X)]|].
  split; [split; [exact Y|exact (C Y)]|].
  split; [exact Z|exact (D Z)].
Defined.

(** X21. [main] of test_connection.py never raises: when [load_db_config]
    raises it prints ["Error: "] with the exception and makes no step;
    otherwise it does what [test_connection] does on the loaded
    parameters. *)
Theorem test_connection_main_never_raises config alias en s :
  let run := test_connection_main config alias en s in
  fst run = Ok tt
  /\ (forall e,
        TestConnection.load_db_config (Session.files en) config alias = Raise e ->
        new_steps s (snd run) = []
        /\ Session.console (snd run)
           = (Session.console s ++ [Session.Line (Cat "Error: " (str_exn e))])%list)
  /\ (forall db_params,
        TestConnection.load_db_config (Session.files en) config alias
        = Ok db_params ->
        run = test_connection db_params en s).
Proof.
  cbn zeta.
  destruct (TestConnection.load_db_config (Session.files en) config alias)
    as [p|e] eqn:L.
  - rewrite (test_connection_main_loaded _ _ _ _ _ L).
    split; [apply test_connection_returns|].
    split; [intros e Q; discriminate Q|].
    intros p' Q. now inversion Q.
  - rewrite (test_connection_main_not_loaded _ _ _ _ _ L). cbn [fst snd].
    split; [reflexivity|]. split.
    + intros e' Q. inversion Q; subst. split; [|reflexivity].
      apply new_steps_app. cbn [Session.log]. now rewrite app_nil_r.
    + intros p Q. discriminate Q.
Qed.

Lemma test_connection_main_never_raises_witness :
  (TestConnection.load_db_config (Session.files second_step_fails)
     "python-datasource.json" "PSQLDS1"
   = Raise (Exn KeyError (Native (MissingKey "url")))
   /\ new_steps session_start
        (snd (test_connection_main "python-datasource.json" "PSQLDS1"
                second_step_fails session_start)) = []
   /\ Session.console
        (snd (test_connection_main "python-datasource.json" "PSQLDS1"
                second_step_fails session_start))
      = (Session.console session_start
         ++ [Session.Line (Cat "Error: "
               (str_exn (Exn KeyError (Native (MissingKey "url")))))])%list)
  /\ (TestConnection.load_db_config (Session.files quiet_session)
        "python-datasource.json" "PSQLDS1"
      = Ok (connection_params
              [("url", PStr "jdbc:postgresql://localhost:5432/bench");
               ("username", PStr "loader"); ("password", PStr "secret");
               ("ssl", PBool true)] "localhost" 5432 "bench")
      /\ test_connection_main "python-datasource.json" "PSQLDS1" quiet_session
           session_start
         = test_connection
             (connection_params
                [("url", PStr "jdbc:postgresql://localhost:5432/bench");
                 ("username", PStr "loader"); ("password", PStr "secret");
                 ("ssl", PBool true)] "localhost" 5432 "bench")
             quiet_session session_start).
Proof.
  split.
  - split; [reflexivity|].
    exact (proj1 (proj2 (test_connection_main_never_raises "python-datasource.json"
                           "PSQLDS1" second_step_fails session_start)) _ eq_refl).
  - split; [reflexivity|].
    exact (proj2 (proj2 (test_connection_main_never_raises "python-datasource.json"
                           "PSQLDS1" quiet_session session_start)) _ eq_refl).
Defined.

(** ** Decimal numbers: [str], [int] and [--reset_tables] *)

Lemma uint_digits d :
  Forall (fun c => is_digit c = true)
    (list_ascii_of_string (DecimalString.NilEmpty.string_of_uint d)).
Proof.
  induction d;
    cbn [DecimalString.NilEmpty.string_of_uint list_ascii_of_string];
    now constructor.
Qed.

Lemma digits_rest_digit acc c r :
  is_digit c = true ->
  digits_rest acc (c :: r) = digits_rest (10 * acc + digit_val c) r.
Proof. cbn [digits_rest]. now intros ->. Qed.

Lemma digits_rest_uint d acc :
  digits_rest acc (list_ascii_of_string (DecimalString.NilEmpty.string_of_uint d))
  = Some (uint_val d acc).
Proof.
  revert acc. induction d; intros acc;
    cbn [DecimalString.NilEmpty.string_of_uint list_ascii_of_string uint_val];
    [reflexivity|..].
  all: rewrite digits_rest_digit by reflexivity; rewrite IHd; f_equal; f_equal;
    unfold digit_val; cbn; lia.
Qed.

Lemma uint_val_acc d acc : uint_val d (Z.pos acc) = Z.pos (Pos.of_uint_acc d acc).
Proof.
  revert acc. induction d; intros acc; cbn [uint_val Pos.of_uint_acc];
    [reflexivity|..].
  all: rewrite <- IHd; f_equal; lia.
Qed.

Lemma uint_val_of_uint d : uint_val d 0 = Z.of_N (Pos.of_uint d).
Proof.
  induction d; cbn [uint_val Pos.of_uint]; [reflexivity|exact IHd|..].
  all: cbn [Z.mul Z.add]; apply uint_val_acc.
Qed.

Lemma digits_uint d :
  d <> Decimal.Nil ->
  digits (list_ascii_of_string (DecimalString.NilEmpty.string_of_uint d))
  = Some (uint_val d 0).
Proof.
  destruct d; intros N; [now elim N|..];
    cbn [DecimalString.NilEmpty.string_of_uint list_ascii_of_string uint_val];
    unfold digits.
  all: match goal with
       | |- context [is_digit ?c] => change (is_digit c) with true
       end; cbn iota; rewrite digits_rest_uint; reflexivity.
Qed.

Lemma lstrip_plain blank l :
  Forall (fun c => blank c = false) l -> lstrip blank l = l.
Proof. intros H. destruct H as [|c l H _]; cbn; [reflexivity|now rewrite H]. Qed.

Lemma strip_plain blank l :
  Forall (fun c => blank c = false) l -> strip blank l = l.
Proof.
  intros H. unfold strip.
  rewrite (lstrip_plain blank l H), lstrip_plain, rev_involutive; [reflexivity|].
  apply Forall_rev. exact H.
Qed.

(** [int] skips no more than [str.strip()] removes. *)
Lemma int_space_is_space c : is_space c = false -> is_int_space c = false.
Proof.
  unfold is_space, is_int_space. cbn zeta. intros H.
  repeat match type of H with
         | context [(?a <=? ?b)%nat] =>
             destruct (Nat.leb_spec a b); cbn [andb orb] in H |- *
         | context [(?a =? ?b)%nat] =>
             destruct (Nat.eqb_spec a b); cbn [andb orb] in H |- *
         end; try discriminate H; try reflexivity;
  repeat match goal with
         | |- context [(?a <=? ?b)%nat] =>
             destruct (Nat.leb_spec a b); cbn [andb orb]
         | |- context [(?a =? ?b)%nat] =>
             destruct (Nat.eqb_spec a b); cbn [andb orb]
         end; try reflexivity; lia.
Qed.

Lemma digit_is_int_char c : is_digit c = true -> is_int_char c = true.
Proof. intros H. unfold is_int_char. rewrite H. reflexivity. Qed.

Lemma int_char_plain c :
  is_int_char c = true -> is_space c = false /\ Ascii.eqb c "," = false.
Proof.
  unfold is_int_char. intros H.
  destruct (Ascii.eqb c "-") eqn:E.
  { apply Ascii.eqb_eq in E. subst c. now split. }
  rewrite orb_false_r in H. unfold is_digit in H. unfold is_space.
  apply andb_true_iff in H. destruct H as [A B].
  apply Nat.leb_le in A, B. split.
  - cbn zeta.
    repeat match goal with
           | |- context [(?a <=? ?b)%nat] =>
               destruct (Nat.leb_spec a b); cbn [andb orb]
           | |- context [(?a =? ?b)%nat] =>
               destruct (Nat.eqb_spec a b); cbn [andb orb]
           end; try reflexivity; lia.
  - apply Ascii.eqb_neq. intros ->. cbn in A. lia.
Qed.

Lemma str_int_chars i :
  Forall (fun c => is_int_char c = true) (list_ascii_of_string (str_int i)).
Proof.
  assert (U : forall d, Forall (fun c => is_int_char c = true)
                          (list_ascii_of_string
                             (DecimalString.NilZero.string_of_uint d))).
  { intros d. eapply Forall_impl; [exact digit_is_int_char|].
    destruct d; try apply uint_digits. now repeat constructor. }
  unfold str_int.
  destruct i as [|p|p]; cbn [Z.to_int DecimalString.NilZero.string_of_int].
  - now repeat constructor.
  - apply U.
  - cbn [list_ascii_of_string]. constructor; [reflexivity|]. apply U.
Qed.

Lemma str_int_not_empty i : str_int i <> "".
Proof.
  unfold str_int.
  destruct i as [|p|p]; cbn [Z.to_int DecimalString.NilZero.string_of_int];
    try discriminate.
  destruct (Pos.to_uint p); discriminate.
Qed.

Lemma str_strip_str_int i : str_strip (str_int i) = str_int i.
Proof.
  unfold str_strip. rewrite strip_plain; [apply string_of_list_ascii_of_string|].
  eapply Forall_impl; [|apply str_int_chars]. intros c H.
  now apply int_char_plain.
Qed.

Lemma has_char_chars c s :
  Forall (fun a => Ascii.eqb a c = false) (list_ascii_of_string s) ->
  has_char c s = false.
Proof.
  induction s as [|a s IH]; cbn; intros H; [reflexivity|].
  inversion H as [|? ? A B]; subst. now rewrite A, IH.
Qed.

Lemma str_int_no_comma i : has_char "," (str_int i) = false.
Proof.
  apply has_char_chars. eapply Forall_impl; [|apply str_int_chars].
  intros c H. now apply int_char_plain.
Qed.

Lemma py_int_str_int i : py_int (str_int i) = Ok i.
Proof.
  unfold py_int, int_literal.
  rewrite strip_plain
    by (eapply Forall_impl; [|apply str_int_chars]; intros c H;
        now apply int_space_is_space, int_char_plain).
  unfold str_int.
  destruct i as [|p|p]; cbn [Z.to_int DecimalString.NilZero.string_of_int].
  - reflexivity.
  - pose proof (DecimalPos.Unsigned.to_uint_nonnil p) as N.
    pose proof (uint_digits (Pos.to_uint p)) as D.
    pose proof (digits_uint _ N) as V.
    rewrite uint_val_of_uint, DecimalPos.Unsigned.of_to in V.
    unfold DecimalString.NilZero.string_of_uint.
    destruct (Pos.to_uint p) eqn:E; [now elim N|..].
    all: rewrite <- E in *; clear E.
    all: destruct (list_ascii_of_string
                     (DecimalString.NilEmpty.string_of_uint (Pos.to_uint p)))
      as [|c r]; [discriminate V|].
    all: inversion D as [|? ? Dc _]; subst.
    all: assert (Ascii.eqb c "+" = false) as ->
      by (apply Ascii.eqb_neq; intros ->; discriminate Dc).
    all: assert (Ascii.eqb c "-" = false) as ->
      by (apply Ascii.eqb_neq; intros ->; discriminate Dc).
    all: now rewrite V.
  - pose proof (DecimalPos.Unsigned.to_uint_nonnil p) as N.
    pose proof (digits_uint _ N) as V.
    rewrite uint_val_of_uint, DecimalPos.Unsigned.of_to in V.
    unfold DecimalString.NilZero.string_of_uint. cbn [list_ascii_of_string].
    change (Ascii.eqb "-" "+") with false. change (Ascii.eqb "-" "-") with true.
    cbn iota.
    destruct (Pos.to_uint p) eqn:E; [now elim N|..].
    all: rewrite <- E in *; clear E; now rewrite V.
Qed.

Lemma str_split_none sep n a : has_char sep a = false -> str_split sep n a = [a].
Proof.
  induction a as [|c a IH]; cbn [has_char str_split]; intros H; [reflexivity|].
  apply orb_false_iff in H. destruct H as [H1 H2]. rewrite H1, (IH H2).
  reflexivity.
Qed.

Lemma str_split_next sep n a b :
  has_char sep a = false ->
  str_split sep (S n) (a ++ String sep b) = a :: str_split sep n b.
Proof.
  induction a as [|c a IH]; cbn [has_char str_split append]; intros H.
  - now rewrite Ascii.eqb_refl.
  - apply orb_false_iff in H. destruct H as [H1 H2]. rewrite H1, (IH H2).
    reflexivity.
Qed.

Lemma str_length_app a b :
  String.length (a ++ b) = (String.length a + String.length b)%nat.
Proof. induction a as [|c a IH]; cbn; [reflexivity|now rewrite IH]. Qed.

Lemma str_split_comma_separated l n :
  l <> [] -> (String.length (comma_separated l) <= n)%nat ->
  str_split "," n (comma_separated l) = map str_int l.
Proof.
  unfold comma_separated. revert n.
  induction l as [|i l IH]; intros n N L; [now elim N|].
  destruct l as [|j l].
  - cbn [map String.concat]. apply str_split_none, str_int_no_comma.
  - cbn [map String.concat] in *.
    cbn [append] in *.
    rewrite str_length_app in L. cbn [String.length] in L.
    destruct n as [|n]; [lia|].
    rewrite str_split_next by apply str_int_no_comma.
    f_equal. apply IH; [discriminate|lia].
Qed.

Lemma int_each_str_int l : int_each (map str_int l) = Ok l.
Proof.
  induction l as [|i l IH]; cbn [map int_each]; [reflexivity|].
  rewrite str_strip_str_int.
  destruct (String.eqb_spec (str_int i) "") as [E|_];
    [now elim (str_int_not_empty i)|].
  now rewrite py_int_str_int, IH.
Qed.

(** X22. Reading [--reset_tables] inverts writing the numbers down: the
    numbers of a list, written in decimal and joined by commas, are read back
    as exactly those numbers (the set is kept as the list of what was read;
    the empty string gives none). *)
Theorem reset_tables_round_trip l :
  parse_reset_tables (comma_separated l) = Ok l.
Proof.
  unfold parse_reset_tables. destruct l as [|i l]; [reflexivity|].
  destruct (String.eqb_spec (comma_separated (i :: l)) "") as [E|_].
  - exfalso. unfold comma_separated in E. cbn [map String.concat] in E.
    destruct l; [now elim (str_int_not_empty i)|].
    pose proof (str_int_not_empty i) as N. destruct (str_int i); [now elim N|].
    discriminate E.
  - unfold str_split_all.
    rewrite str_split_comma_separated; [apply int_each_str_int|discriminate|lia].
Qed.

Lemma str_int_inj i j : str_int i = str_int j -> i = j.
Proof.
  intros E. pose proof (py_int_str_int i) as A. rewrite E, py_int_str_int in A.
  now inversion A.
Qed.

Lemma table_name_of_inj i j : table_name_of i = table_name_of j -> i = j.
Proof. unfold table_name_of. intros E. apply str_int_inj. now inversion E. Qed.

Lemma in_py_range lo hi i : In i (py_range lo hi) <-> lo <= i < hi.
Proof.
  unfold py_range. rewrite in_map_iff. split.
  - intros (k & <- & H). apply in_seq in H. lia.
  - intros H. exists (Z.to_nat (i - lo)). split; [lia|]. apply in_seq. lia.
Qed.

Lemma NoDup_map_inj {A B} (f : A -> B) (l : list A) :
  (forall x y, f x = f y -> x = y) -> NoDup l -> NoDup (map f l).
Proof.
  intros I H. induction H as [|x l N H IH]; cbn [map]; constructor; [|exact IH].
  intros Q. apply in_map_iff in Q. destruct Q as (y & E & Q).
  apply I in E. now subst y.
Qed.

Lemma NoDup_py_range lo hi : NoDup (py_range lo hi).
Proof.
  unfold py_range. apply NoDup_map_inj; [|apply seq_NoDup].
  intros x y H. lia.
Qed.

(** X23. The tables [main] processes are those numbered from [start_table] to
    [num_tables], and their names [transactions_<i>] are pairwise
    different. *)
Theorem tables_are_numbered_and_named_apart a :
  (forall i, In i (processed_tables a)
             <-> Args.start_table a <= i <= Args.num_tables a)
  /\ NoDup (map table_name_of (processed_tables a)).
Proof.
  unfold processed_tables. split.
  - intros i. rewrite in_py_range. lia.
  - apply NoDup_map_inj; [|apply NoDup_py_range].
    intros x y. apply table_name_of_inj.
Qed.

(** ** [main] *)

Lemma piece_bind m k t1 l1 t2 l2 :
  piece m t1 l1 -> piece k t2 l2 -> piece (m ;;~ k) (t1 ++ t2) (l1 ++ l2).
Proof.
  intros Hm Hk en s. destruct (Hm en s) as (r & t & l & E & C & O & P & X).
  unfold Session.bind. rewrite E. destruct r as [[]|e].
  - destruct (Hk en {| Session.log := (Session.log s ++ t)%list;
                       Session.console := (Session.console s ++ l)%list |})
      as (r' & t' & l' & E' & C' & O' & P' & X').
    cbn [Session.log Session.console] in E'. rewrite E'.
    exists r', (t ++ t')%list, (l ++ l')%list. rewrite !app_assoc.
    split; [reflexivity|]. split; [now apply Forall_app|]. split; [|split].
    + rewrite Forall_app, O'. pose proof (proj1 O eq_refl). tauto.
    + intros Q. destruct (P eq_refl) as [-> ->], (P' Q) as [-> ->]. now split.
    + intros e Q. apply Exists_app. right. now apply X'.
  - exists (Raise e), t, l. split; [reflexivity|]. split; [assumption|].
    split; [exact O|]. split; [intros Q; discriminate Q|assumption].
Qed.

Lemma piece_print l : piece (Session.print l) [] [l].
Proof.
  intros en s. exists (Ok tt), [], [l]. cbn. rewrite app_nil_r.
  split; [reflexivity|]. split; [constructor|]. split; [now split|].
  split; [now split|]. intros e Q; discriminate Q.
Qed.

Lemma piece_ret : piece (Session.ret tt) [] [].
Proof.
  intros en s. exists (Ok tt), [], []. cbn. rewrite !app_nil_r. destruct s.
  split; [reflexivity|]. split; [constructor|]. split; [now split|].
  split; [now split|]. intros e Q; discriminate Q.
Qed.

Lemma piece_step c :
  is_connect c = false -> is_close c = false ->
  piece (Session.do_step c) [passed c] [].
Proof.
  intros A B en s. unfold Session.do_step.
  destruct (Session.fault en (List.length (Session.log s))) as [e|].
  - exists (Raise e), [{| Session.made := c; Session.failed := Some e |}], [].
    rewrite app_nil_r. split; [reflexivity|].
    split; [constructor; [now split|constructor]|]. split; [|split].
    + split; [intros Q; discriminate Q|].
      intros Q. inversion Q as [|? ? Q1 Q2]. discriminate Q1.
    + intros Q; discriminate Q.
    + intros e' Q. inversion Q; subst. now constructor.
  - exists (Ok tt), [{| Session.made := c; Session.failed := None |}], [].
    rewrite app_nil_r. split; [reflexivity|].
    split; [constructor; [now split|constructor]|]. split; [|split].
    + split; [now repeat constructor|reflexivity].
    + now split.
    + intros e' Q; discriminate Q.
Qed.

Lemma piece_callee c :
  is_connect c = false -> is_close c = false ->
  piece (Session.do_callee c) [passed c] [Session.Output c].
Proof.
  intros A B en s. unfold Session.do_callee.
  destruct (Session.fault en (List.length (Session.log s))) as [e|].
  - exists (Raise e), [{| Session.made := c; Session.failed := Some e |}],
      [Session.Output c].
    split; [reflexivity|].
    split; [constructor; [now split|constructor]|]. split; [|split].
    + split; [intros Q; discriminate Q|].
      intros Q. inversion Q as [|? ? Q1 Q2]. discriminate Q1.
    + intros Q; discriminate Q.
    + intros e' Q. inversion Q; subst. now constructor.
  - exists (Ok tt), [{| Session.made := c; Session.failed := None |}],
      [Session.Output c].
    split; [reflexivity|].
    split; [constructor; [now split|constructor]|]. split; [|split].
    + split; [now repeat constructor|reflexivity].
    + now split.
    + intros e' Q; discriminate Q.
Qed.

Lemma piece_with_cursor c m t l :
  piece m t l ->
  piece (Session.with_cursor c m)
    (passed (Session.Cursor c) :: t ++ [passed (Session.CursorClose c)]) l.
Proof.
  intros Hm en s. unfold Session.with_cursor, Session.bind, Session.try_finally.
  destruct (piece_step (Session.Cursor c) eq_refl eq_refl en s)
    as (r0 & t0 & l0 & E & C & O & P & X).
  rewrite E. destruct r0 as [[]|e].
  - destruct (Hm en {| Session.log := (Session.log s ++ t0)%list;
                       Session.console := (Session.console s ++ l0)%list |})
      as (r1 & t1 & l1 & E1 & C1 & O1 & P1 & X1).
    cbn [Session.log Session.console] in E1. rewrite E1.
    destruct (piece_step (Session.CursorClose c) eq_refl eq_refl en
                {| Session.log := ((Session.log s ++ t0) ++ t1)%list;
                   Session.console := ((Session.console s ++ l0) ++ l1)%list |})
      as (r2 & t2 & l2 & E2 & C2 & O2 & P2 & X2).
    cbn [Session.log Session.console] in E2. rewrite E2.
    pose proof (proj1 O eq_refl) as Ot. destruct (P eq_refl) as [Pt Pl].
    destruct r2 as [[]|e2].
    + exists r1, (t0 ++ t1 ++ t2)%list, (l0 ++ l1 ++ l2)%list. rewrite !app_assoc.
      split; [reflexivity|]. split; [rewrite <- app_assoc; now rewrite !Forall_app|].
      pose proof (proj1 O2 eq_refl) as O2t. destruct (P2 eq_refl) as [P2t P2l].
      split; [|split].
      * rewrite <- app_assoc, !Forall_app. tauto.
      * intros Q. destruct (P1 Q) as [-> ->]. rewrite Pt, P2t, Pl, P2l.
        rewrite app_nil_r. now split.
      * intros e Q. rewrite <- app_assoc. apply Exists_app. right.
        apply Exists_app. left. now apply X1.
    + exists (Raise e2), (t0 ++ t1 ++ t2)%list, (l0 ++ l1 ++ l2)%list.
      rewrite !app_assoc.
      split; [reflexivity|]. split; [rewrite <- app_assoc; now rewrite !Forall_app|].
      split; [|split].
      * split; [intros Q; discriminate Q|]. rewrite <- app_assoc, !Forall_app.
        intros (_ & _ & Q). apply O2 in Q. discriminate Q.
      * intros Q; discriminate Q.
      * intros e Q. inversion Q; subst. rewrite <- app_assoc. apply Exists_app.
        right. apply Exists_app. right. now apply X2.
  - exists (Raise e), t0, l0. split; [reflexivity|]. split; [assumption|].
    split; [exact O|]. split; [intros Q; discriminate Q|assumption].
Qed.

Lemma piece_seq m k t1 l1 t2 l2 t l :
  piece m t1 l1 -> piece k t2 l2 -> t = (t1 ++ t2)%list -> l = (l1 ++ l2)%list ->
  piece (m ;;~ k) t l.
Proof. intros Hm Hk -> ->. now apply piece_bind. Qed.

Lemma piece_create c table :
  piece (create_table_if_not_exists c table) (create_steps c table) [].
Proof.
  unfold create_table_if_not_exists.
  eapply piece_seq;
    [apply piece_with_cursor; now apply piece_step|now apply piece_step
    |reflexivity|reflexivity].
Qed.

Lemma piece_reset c table :
  piece (reset_table c table) (drop_steps c table ++ create_steps c table) [].
Proof.
  unfold reset_table.
  eapply piece_seq;
    [apply piece_with_cursor; now apply piece_step
    |eapply piece_seq;
       [now apply piece_step|apply piece_create|reflexivity|reflexivity]
    |reflexivity|reflexivity].
Qed.

Lemma piece_process a p c rs i :
  piece (process_table a p c rs i) (table_steps a p c rs i)
    (table_lines a p c rs i).
Proof.
  unfold process_table, table_steps, table_lines, insert_step.
  destruct (1 <? Args.num_workers a);
    destruct (Args.reset_all a || existsb (Z.eqb i) rs).
  all: eapply piece_seq;
    [eapply piece_seq;
       [apply piece_print
       |first [apply piece_reset|apply piece_create]|reflexivity|reflexivity]
    |eapply piece_seq;
       [apply piece_print|now apply piece_callee|reflexivity|reflexivity]
    |rewrite ?app_assoc; reflexivity|reflexivity].
Qed.

Lemma piece_for_each {A} (l : list A) body steps lines :
  (forall x, piece (body x) (steps x) (lines x)) ->
  piece (for_each l body) (flat_map steps l) (flat_map lines l).
Proof.
  intros H. induction l as [|x l IH]; cbn [for_each flat_map].
  - apply piece_ret.
  - apply piece_bind; auto.
Qed.

Lemma bind_assoc {A B C} (m : Session.S A) (k : A -> Session.S B)
    (k' : B -> Session.S C) en s :
  Session.bind m (fun x => Session.bind (k x) k') en s
  = Session.bind (Session.bind m k) k' en s.
Proof. unfold Session.bind. now destruct (m en s) as [[a|e] s']. Qed.

Lemma removelast_plan {A} (x y z : A) (a b : list A) :
  (removelast (x :: a ++ b ++ [z]) ++ [y])%list = (x :: (a ++ b) ++ [y])%list.
Proof.
  replace (x :: a ++ b ++ [z])%list with ((x :: a ++ b) ++ [z])%list
    by (cbn [app]; now rewrite <- app_assoc).
  now rewrite removelast_last.
Qed.

(** [run_tables]: either a step before the closing raised, and the
    connection is not closed; or they all passed and closing is the last
    step. *)
Lemma run_tables_shape a p rs c en s :
  exists r t ls,
    run_tables a p rs c en s
    = (r, {| Session.log := (Session.log s ++ t)%list;
             Session.console := (Session.console s ++ ls)%list |})
    /\ ((exists e, r = Raise e
                   /\ Exists (fun ev => Session.failed ev = Some e) t
                   /\ Forall (fun ev => is_connect (Session.made ev) = false
                                        /\ is_close (Session.made ev) = false) t)
        \/ (exists f,
              (passed (Session.Connect p) :: t)%list
              = (removelast (main_steps a p c rs)
                 ++ [{| Session.made := Session.Close c; Session.failed := f |}])%list
              /\ ls = main_lines a p c rs
              /\ r = match f with Some e => Raise e | None => Ok tt end)).
Proof.
  unfold run_tables. rewrite bind_assoc.
  assert (H : piece
    (for_each (processed_tables a) (process_table a p c rs) ;;~
     (if Args.simulate a
      then
        Session.do_callee
          (Session.SimulateProduction c (map table_name_of (processed_tables a))
             (Args.batch_size a) (Args.delay a))
      else Session.ret tt))
    (flat_map (table_steps a p c rs) (processed_tables a)
     ++ (if Args.simulate a
         then [passed (Session.SimulateProduction c
                         (map table_name_of (processed_tables a))
                         (Args.batch_size a) (Args.delay a))]
         else []))
    (main_lines a p c rs)).
  { unfold main_lines. apply piece_bind.
    - apply piece_for_each. intros i. apply piece_process.
    - destruct (Args.simulate a); [now apply piece_callee|apply piece_ret]. }
  destruct (H en s) as (r & t & ls & E & C & O & P & X).
  unfold Session.bind at 1. rewrite E. destruct r as [[]|e].
  - destruct (P eq_refl) as [Pt Pl]. unfold Session.do_step.
    cbn [Session.log Session.console].
    exists (match Session.fault en (List.length (Session.log s ++ t)) with
            | Some e => Raise e | None => Ok tt end),
      (t ++ [{| Session.made := Session.Close c;
                Session.failed :=
                  Session.fault en (List.length (Session.log s ++ t)) |}])%list,
      ls.
    rewrite app_assoc. split; [reflexivity|]. right.
    exists (Session.fault en (List.length (Session.log s ++ t))).
    split; [|split; [exact Pl|reflexivity]].
    unfold main_steps. rewrite Pt. symmetry. apply removelast_plan.
  - exists (Raise e), t, ls. split; [reflexivity|]. left. exists e. auto.
Qed.

Lemma main_cases a en s :
  (~ valid_arguments a
   /\ exists m, main a en s = (Raise (Exn ValueError (Lit m)), s))
  \/ (valid_arguments a /\ (forall rs p, ~ ready a en rs p)
      /\ exists l,
           main a en s
           = (Ok tt, {| Session.log := Session.log s;
                        Session.console := (Session.console s ++ [l])%list |}))
  \/ (exists rs p,
        ready a en rs p
        /\ main a en s
           = or_return (Session.connect p)
               (fun e =>
                  Session.print
                    (Session.Line (Cat "Error connecting to the database: "
                                       (str_exn e))))
               (run_tables a p rs) en s).
Proof.
  unfold main, ready, valid_arguments.
  destruct (1 <=? Args.num_tables a) eqn:A1; cbn [andb negb];
    [|left; split; [lia|eexists; reflexivity]].
  destruct (Args.num_tables a <=? 1000) eqn:A2; cbn [andb negb];
    [|left; split; [lia|eexists; reflexivity]].
  destruct (1000 <=? Args.records_per_table a) eqn:A3; cbn [andb negb];
    [|left; split; [lia|eexists; reflexivity]].
  destruct (Args.records_per_table a <=? 10000000) eqn:A4; cbn [andb negb];
    [|left; split; [lia|eexists; reflexivity]].
  destruct (Args.start_table a <? 1) eqn:A5;
    [left; split; [lia|eexists; reflexivity]|].
  assert (V : (1 <= Args.num_tables a <= 1000)
              /\ (1000 <= Args.records_per_table a <= 10000000)
              /\ 1 <= Args.start_table a) by lia.
  right.
  destruct (Args.num_tables a <? Args.start_table a) eqn:A6.
  { left. split; [exact V|]. split; [intros rs p Q; lia|]. eexists. reflexivity. }
  unfold or_return, Session.lift.
  destruct (parse_reset_tables (Args.reset_tables a)) as [rs|e] eqn:R.
  2:{ left. split; [exact V|]. split; [|eexists; reflexivity].
      intros rs p (_ & _ & Q & _). discriminate Q. }
  destruct (SimulateData.load_db_config (Session.files en) (Args.config a)
              (Args.alias a)) as [p|e] eqn:L.
  2:{ left. split; [exact V|]. split; [|eexists; reflexivity].
      intros rs' p (_ & _ & _ & Q). discriminate Q. }
  right. exists rs, p. split; [|reflexivity].
  split; [exact V|]. split; [lia|]. now split.
Qed.

(** After the configuration is read: [connect] raises and [main] prints and
    returns, or the run goes on as [run_tables] says. *)
Lemma main_connected a p rs en s :
  exists r t ls,
    or_return (Session.connect p)
      (fun e =>
         Session.print
           (Session.Line (Cat "Error connecting to the database: " (str_exn e))))
      (run_tables a p rs) en s
    = (r, {| Session.log := (Session.log s ++ t)%list;
             Session.console := (Session.console s ++ ls)%list |})
    /\ ((exists e, r = Ok tt
                   /\ t = [{| Session.made := Session.Connect p;
                              Session.failed := Some e |}]
                   /\ ls = [Session.Line (Cat "Error connecting to the database: "
                                              (str_exn e))])
        \/ (exists e t', r = Raise e
                   /\ t = (passed (Session.Connect p) :: t')%list
                   /\ Exists (fun ev => Session.failed ev = Some e) t'
                   /\ Forall (fun ev => is_connect (Session.made ev) = false
                                        /\ is_close (Session.made ev) = false) t')
        \/ (exists f,
              t = (removelast (main_steps a p (Session.connection en) rs)
                   ++ [{| Session.made := Session.Close (Session.connection en);
                          Session.failed := f |}])%list
              /\ ls = main_lines a p (Session.connection en) rs
              /\ r = match f with Some e => Raise e | None => Ok tt end)).
Proof.
  unfold or_return, Session.connect, Session.bind, Session.do_step.
  destruct (Session.fault en (List.length (Session.log s))) as [e|].
  - eexists _, _, _. split; [reflexivity|]. left. exists e. auto.
  - destruct (run_tables_shape a p rs (Session.connection en) en
                {| Session.log :=
                     (Session.log s
                      ++ [{| Session.made := Session.Connect p;
                             Session.failed := None |}])%list;
                   Session.console := Session.console s |})
      as (r & t & ls & E & H).
    cbn [Session.log Session.console] in E. rewrite E.
    exists r, (passed (Session.Connect p) :: t)%list, ls.
    split; [now rewrite <- app_assoc|]. right.
    destruct H as [(e & Hr & Hx & Hc)|(f & Ht & Hl & Hr)].
    + left. exists e, t. auto.
    + right. exists f. auto.
Qed.

Lemma in_removelast {A} (x : A) (l : list A) : In x (removelast l) -> In x l.
Proof.
  induction l as [|y l IH]; cbn; [auto|].
  destruct l as [|z l]; [intros []|]. intros [->|H]; auto.
Qed.

Lemma main_steps_last a p c rs y :
  (removelast (main_steps a p c rs) ++ [y])%list
  = (passed (Session.Connect p)
     :: (flat_map (table_steps a p c rs) (processed_tables a)
         ++ (if Args.simulate a
             then [passed (Session.SimulateProduction c
                             (map table_name_of (processed_tables a))
                             (Args.batch_size a) (Args.delay a))]
             else []))
     ++ [y])%list.
Proof. unfold main_steps. apply removelast_plan. Qed.

Lemma main_steps_passed a p c rs :
  Forall (fun ev => step_raised ev = false) (main_steps a p c rs).
Proof.
  unfold main_steps. constructor; [reflexivity|].
  rewrite !Forall_app. split; [|split].
  - apply Forall_flat_map, Forall_forall. intros i _. unfold table_steps.
    destruct (Args.reset_all a || existsb (Z.eqb i) rs); repeat constructor.
  - destruct (Args.simulate a); repeat constructor.
  - repeat constructor.
Qed.

(** The shapes a run of [main] can have. *)
Lemma main_shape a en s :
  exists r t ls,
    main a en s = (r, {| Session.log := (Session.log s ++ t)%list;
                         Session.console := (Session.console s ++ ls)%list |})
    /\ ((~ valid_arguments a
         /\ (exists m, r = Raise (Exn ValueError (Lit m))) /\ t = [] /\ ls = [])
        \/ (valid_arguments a /\ (forall rs p, ~ ready a en rs p)
            /\ r = Ok tt /\ t = [] /\ exists l, ls = [l])
        \/ (exists rs p,
              ready a en rs p
              /\ ((exists e, r = Ok tt
                     /\ t = [{| Session.made := Session.Connect p;
                                Session.failed := Some e |}]
                     /\ ls = [Session.Line
                                (Cat "Error connecting to the database: "
                                     (str_exn e))])
                  \/ (exists e t', r = Raise e
                        /\ t = (passed (Session.Connect p) :: t')%list
                        /\ Exists (fun ev => Session.failed ev = Some e) t'
                        /\ Forall (fun ev => is_connect (Session.made ev) = false
                                             /\ is_close (Session.made ev) = false)
                             t')
                  \/ (exists f,
                        t = (removelast (main_steps a p (Session.connection en) rs)
                             ++ [{| Session.made :=
                                      Session.Close (Session.connection en);
                                    Session.failed := f |}])%list
                        /\ ls = main_lines a p (Session.connection en) rs
                        /\ r = match f with Some e => Raise e | None => Ok tt end)))).
Proof.
  destruct (main_cases a en s) as [(V & m & E)|[(V & N & l & E)|(rs & p & R & E)]].
  - exists (Raise (Exn ValueError (Lit m))), [], []. rewrite !app_nil_r.
    split; [now destruct s|]. left. split; [exact V|]. split; [now exists m|auto].
  - exists (Ok tt), [], [l]. rewrite app_nil_r. split; [exact E|]. right. left.
    split; [exact V|]. split; [exact N|]. split; [reflexivity|].
    split; [reflexivity|now exists l].
  - destruct (main_connected a p rs en s) as (r & t & ls & E' & H).
    exists r, t, ls. split; [now rewrite E|]. right. right. now exists rs, p.
Qed.

(** X24. When [num_tables] is not within 1..1000, or [records_per_table] not
    within 1000..10000000, or [start_table] below 1, [main] raises
    [ValueError] without having made a step or printed a line. *)
Theorem main_rejects_bad_arguments a en s :
  ~ valid_arguments a ->
  exists m, main a en s = (Raise (Exn ValueError (Lit m)), s).
Proof.
  intros V. destruct (main_cases a en s) as [(_ & H)|[(V' & _)|(rs & p & R & _)]].
  - exact H.
  - contradiction.
  - destruct R as (V' & _). contradiction.
Qed.

(** X25. If [main] makes any step at all, the first one is the connection,
    with the parameters [load_db_config] gave; and then the arguments were
    valid, [start_table] was at most [num_tables] and [--reset_tables] was
    read without error. *)
Theorem main_connects_first a en s :
  let trace := new_steps s (snd (main a en s)) in
  trace <> [] ->
  exists reset_tables_set db_params f rest,
    ready a en reset_tables_set db_params
    /\ trace = ({| Session.made := Session.Connect db_params; Session.failed := f |}
                :: rest)%list.
Proof.
  by_shape main_shape a en s. intros N.
  destruct H as [(_ & _ & -> & _)|[(_ & _ & _ & -> & _)|(rs & p & R & H)]];
    try contradiction.
  exists rs, p.
  destruct H as [(e & _ & -> & _)|[(e & t' & _ & -> & _)|(f & -> & _)]].
  - now exists (Some e), [].
  - now exists None, t'.
  - rewrite main_steps_last. eexists None, _. split; [exact R|reflexivity].
Qed.

(** X26. If [main] made steps and all of them passed, it returns normally and
    the steps are: the connection; for each table from [start_table] to
    [num_tables], in order, the steps of [reset_table] (if [--reset_all] is
    set or the number is listed in [--reset_tables]) or else of
    [create_table_if_not_exists], followed by one call of the driver
    ([insert_records_concurrent] if [num_workers > 1], else
    [insert_records]); [simulate_production] on all the tables if
    [--simulate] is set; the closing of the connection.  The console holds,
    for each table in order, the two lines of [main] followed by what the
    driver wrote, and at the end what [simulate_production] wrote if it was
    called; what the callees wrote is left uninterpreted. *)
Theorem main_follows_the_plan a en s :
  let run := main a en s in
  let trace := new_steps s (snd run) in
  trace <> [] ->
  Forall (fun ev => step_raised ev = false) trace ->
  fst run = Ok tt
  /\ exists reset_tables_set db_params,
       ready a en reset_tables_set db_params
       /\ trace = main_steps a db_params (Session.connection en) reset_tables_set
       /\ Session.console (snd run)
          = (Session.console s
             ++ main_lines a db_params (Session.connection en)
                  reset_tables_set)%list.
Proof.
  by_shape main_shape a en s. intros N F.
  destruct H as [(_ & _ & -> & _)|[(_ & _ & _ & -> & _)|(rs & p & R & H)]];
    try contradiction.
  destruct H as [(e & _ & -> & _)|[(e & t' & _ & -> & X & _)|(f & -> & -> & ->)]].
  - inversion F as [|? ? Q _]. discriminate Q.
  - exfalso. inversion F as [|? ? _ F']; subst.
    apply Exists_exists in X. destruct X as (ev & I & Q).
    rewrite Forall_forall in F'. specialize (F' ev I).
    unfold step_raised in F'. rewrite Q in F'. discriminate F'.
  - apply Forall_app in F. destruct F as [_ F]. inversion F as [|? ? Q _].
    destruct f as [e|]; [discriminate Q|]. split; [reflexivity|].
    exists rs, p. split; [exact R|]. split; [|reflexivity].
    rewrite main_steps_last. unfold main_steps. cbn [app].
    now rewrite <- app_assoc.
Qed.

(** X27. If a step other than connecting and closing raises, [main] raises
    the exception of one of its steps and never closes the connection. *)
Theorem main_leaves_connection_open_after_failure a en s ev :
  let run := main a en s in
  let trace := new_steps s (snd run) in
  In ev trace ->
  step_raised ev = true ->
  is_connect (Session.made ev) = false ->
  is_close (Session.made ev) = false ->
  (exists e, fst run = Raise e
             /\ Exists (fun ev' => Session.failed ev' = Some e) trace)
  /\ Forall (fun ev' => is_close (Session.made ev') = false) trace.
Proof.
  by_shape main_shape a en s. intros I Q NC NX.
  destruct H as [(_ & _ & -> & _)|[(_ & _ & _ & -> & _)|(rs & p & R & H)]];
    try contradiction.
  destruct H as [(e & _ & -> & _)|[(e & t' & -> & -> & X & C)|(f & -> & _)]].
  - destruct I as [<-|[]]. discriminate NC.
  - split.
    + exists e. split; [reflexivity|]. now apply Exists_cons_tl.
    + constructor; [reflexivity|]. eapply Forall_impl; [|exact C]. now intros ? [].
  - exfalso. apply in_app_or in I. destruct I as [I|[<-|[]]].
    + apply in_removelast in I. pose proof (main_steps_passed a p
        (Session.connection en) rs) as P.
      rewrite Forall_forall in P. rewrite (P ev I) in Q. discriminate Q.
    + discriminate NX.
Qed.

(** X28. With valid arguments, a run of [main] that gets no connection returns
    normally after printing exactly one line; its only step, if any, is the
    attempt to connect that raised. *)
Theorem main_reports_setup_errors a en s :
  let run := main a en s in
  let trace := new_steps s (snd run) in
  valid_arguments a ->
  Forall (fun ev => is_connect (Session.made ev) = true -> step_raised ev = true)
    trace ->
  fst run = Ok tt
  /\ (exists l, Session.console (snd run) = (Session.console s ++ [l])%list)
  /\ (trace = [] \/ exists db_params e,
                      trace = [{| Session.made := Session.Connect db_params;
                                  Session.failed := Some e |}]).
Proof.
  by_shape main_shape a en s. intros V F.
  destruct H as [(V' & _)|[(_ & _ & -> & -> & l & ->)|(rs & p & R & H)]];
    try contradiction.
  - split; [reflexivity|]. split; [now exists l|now left].
  - destruct H as [(e & -> & -> & ->)|[(e & t' & _ & -> & _)|(f & -> & _)]].
    + split; [reflexivity|]. split; [eexists; reflexivity|]. right. now exists p, e.
    + inversion F as [|? ? Q _]. discriminate (Q eq_refl).
    + rewrite main_steps_last in F. inversion F as [|? ? Q _].
      discriminate (Q eq_refl).
Qed.

Lemma main_rejects_bad_arguments_witness :
  ~ valid_arguments no_tables
  /\ exists m,
       main no_tables quiet_session session_start
       = (Raise (Exn ValueError (Lit m)), session_start).
Proof.
  assert (V : ~ valid_arguments no_tables).
  { unfold valid_arguments. cbn. lia. }
  split; [exact V|].
  exact (main_rejects_bad_arguments no_tables quiet_session session_start V).
Defined.

Lemma main_connects_first_witness :
  new_steps session_start (snd (main demo_arguments quiet_session session_start))
  <> []
  /\ exists reset_tables_set db_params f rest,
       ready demo_arguments quiet_session reset_tables_set db_params
       /\ new_steps session_start
            (snd (main demo_arguments quiet_session session_start))
          = ({| Session.made := Session.Connect db_params; Session.failed := f |}
             :: rest)%list.
Proof.
  assert (N : new_steps session_start
                (snd (main demo_arguments quiet_session session_start)) <> []).
  { vm_compute. discriminate. }
  split; [exact N|].
  exact (main_connects_first demo_arguments quiet_session session_start N).
Defined.

Lemma main_follows_the_plan_witness :
  (new_steps session_start (snd (main demo_arguments quiet_session session_start))
   <> []
   /\ Forall (fun ev => step_raised ev = false)
        (new_steps session_start
           (snd (main demo_arguments quiet_session session_start))))
  /\ fst (main demo_arguments quiet_session session_start) = Ok tt
  /\ exists reset_tables_set db_params,
       ready demo_arguments quiet_session reset_tables_set db_params
       /\ new_steps session_start
            (snd (main demo_arguments quiet_session session_start))
          = main_steps demo_arguments db_params
              (Session.connection quiet_session) reset_tables_set
       /\ Session.console (snd (main demo_arguments quiet_session session_start))
          = (Session.console session_start
             ++ main_lines demo_arguments db_params
                  (Session.connection quiet_session) reset_tables_set)%list.
Proof.
  assert (N : new_steps session_start
                (snd (main demo_arguments quiet_session session_start)) <> []).
  { vm_compute. discriminate. }
  assert (F : Forall (fun ev => step_raised ev = false)
                (new_steps session_start
                   (snd (main demo_arguments quiet_session session_start)))).
  { vm_compute. repeat constructor. }
  split; [split; [exact N|exact F]|].
  exact (main_follows_the_plan demo_arguments quiet_session session_start N F).
Defined.

Lemma main_leaves_connection_open_after_failure_witness :
  (In {| Session.made := Session.InsertRecords 7%nat "transactions_2" 1000 10000;
         Session.failed := Some statement_failed |}
      (new_steps session_start
         (snd (main demo_arguments first_insert_fails session_start))))
  /\ (exists e,
        fst (main demo_arguments first_insert_fails session_start) = Raise e
        /\ Exists (fun ev' => Session.failed ev' = Some e)
             (new_steps session_start
                (snd (main demo_arguments first_insert_fails session_start))))
  /\ Forall (fun ev' => is_close (Session.made ev') = false)
       (new_steps session_start
          (snd (main demo_arguments first_insert_fails session_start))).
Proof.
  assert (I : In {| Session.made :=
                      Session.InsertRecords 7%nat "transactions_2" 1000 10000;
                    Session.failed := Some statement_failed |}
                (new_steps session_start
                   (snd (main demo_arguments first_insert_fails session_start)))).
  { vm_compute. do 5 right. left. reflexivity. }
  split; [exact I|].
  exact (main_leaves_connection_open_after_failure demo_arguments
           first_insert_fails session_start _ I eq_refl eq_refl eq_refl).
Defined.

Lemma main_reports_setup_errors_witness :
  (valid_arguments demo_arguments
   /\ Forall (fun ev => is_connect (Session.made ev) = true -> step_raised ev = true)
        (new_steps session_start
           (snd (main demo_arguments second_step_fails session_start))))
  /\ fst (main demo_arguments second_step_fails session_start) = Ok tt
  /\ (exists l,
        Session.console (snd (main demo_arguments second_step_fails session_start))
        = (Session.console session_start ++ [l])%list)
  /\ (new_steps session_start
        (snd (main demo_arguments second_step_fails session_start)) = []
      \/ exists db_params e,
           new_steps session_start
             (snd (main demo_arguments second_step_fails session_start))
           = [{| Session.made := Session.Connect db_params;
                 Session.failed := Some e |}]).
Proof.
  assert (V : valid_arguments demo_arguments).
  { unfold valid_arguments. cbn. lia. }
  assert (F : Forall (fun ev => is_connect (Session.made ev) = true
                                -> step_raised ev = true)
                (new_steps session_start
                   (snd (main demo_arguments second_step_fails session_start)))).
  { vm_compute. constructor. }
  split; [split; [exact V|exact F]|].
  exact (main_reports_setup_errors demo_arguments second_step_fails session_start
           V F).
Defined.
